(** * Open Games Launcher: a shallow embedding of [launcher.py]

    The development follows the non-presentational engine of the launcher:
    the catalog store ([_read_game_file], [_write_game_file], [load_games],
    [save_games]), the launch dispatcher ([launch_game]), the downloader
    ([download_update]) and the archive extractor ([_safe_extract_zip]),
    and then the parts of the [Launcher] methods [play], [load_news],
    [download] and [quick_add_game] that use them.

    Modelling conventions.
    - A Python [str] is a Rocq [string] holding its UTF-8 encoding; a file
      holds a [string] of bytes.
    - A Python exception is a value of [exn]; code that can raise lives in
      the monad [M], which threads the [world] and keeps every change made
      before the exception was raised, as Python does.
    - A function that mutates a [dict] argument returns the updated dict.
    - The file system has directories and regular files, each with a
      read-only flag; symbolic links are not modelled.  File-system code is
      modelled for a POSIX host; [launch_game] is modelled for both values
      of [os.name] it distinguishes.
    - Library code the program calls ([json], [zipfile], [requests.get],
      [Response.text], [webbrowser], [subprocess], [os.startfile], [str]
      of a value) is taken as a parameter through the classes [JsonCodec],
      [ZipCodec], [Network], [TextDecoder], [OSEnv] and [PyRepr].
      [pathlib] and [int] are modelled after CPython 3.12,
      [Response.raise_for_status] after requests.
    - What the model leaves out.  [stat] fails only for an entry that is
      not there: no entry is refused for its permissions or for the length
      of its name.  A write to an open file always goes through: the disk
      is never full.  [resolve] is lexical, there being no links.
      [str.lower] maps the letters of ASCII and U+212A, [int] reads ASCII,
      and file names are ordered by their bytes, which is the order of
      [sorted] for names in UTF-8 on a POSIX host.  A quotient
      [downloaded / total] is the exact rational, of which Python computes
      the nearest float.  A statement that depends on one of these says
      so: it takes the outcome of the operation as a hypothesis, or
      restricts the strings it is about. *)

From Stdlib Require Import ZArith QArith Ascii String List Lia.
From Stdlib Require Import DecimalString DecimalNat DecimalFacts.
From stdpp Require Import base strings list gmap sorting.

Local Open Scope string_scope.
Local Open Scope list_scope.

(** ** Python string operations *)

Module PyStr.

Definition chars (s : string) : list ascii := list_ascii_of_string s.
Definition of_chars (l : list ascii) : string := string_of_list_ascii l.

(** [s.startswith(pre)] *)
Definition startswith (s pre : string) : bool := String.prefix pre s.

(** [s.startswith((p1, p2, ...))] *)
Definition startswith_any (s : string) (pres : list string) : bool :=
  existsb (startswith s) pres.

(** [s.endswith(suf)] *)
Definition endswith (s suf : string) : bool :=
  let n := String.length s in
  let k := String.length suf in
  (k <=? n)%nat && String.eqb (String.substring (n - k) k s) suf.

Definition lower_ascii (c : ascii) : ascii :=
  let n := nat_of_ascii c in
  if ((65 <=? n) && (n <=? 90))%nat then ascii_of_nat (n + 32) else c.

Definition upper_ascii (c : ascii) : ascii :=
  let n := nat_of_ascii c in
  if ((97 <=? n) && (n <=? 122))%nat then ascii_of_nat (n - 32) else c.

(** [s.lower()].  ASCII letters are mapped to lower case; U+212A KELVIN
    SIGN (bytes E2 84 AA), the one character outside ASCII whose lower case
    is an ASCII letter, becomes [k].  Other characters outside ASCII are
    left as they are. *)
Fixpoint lower_chars (l : list ascii) : list ascii :=
  match l with
  | [] => []
  | c :: l' =>
      match l' with
      | c1 :: c2 :: l'' =>
          if ((nat_of_ascii c =? 226) && (nat_of_ascii c1 =? 132)
              && (nat_of_ascii c2 =? 170))%nat
          then "k"%char :: lower_chars l''
          else lower_ascii c :: lower_chars l'
      | _ => lower_ascii c :: lower_chars l'
      end
  end.

Definition lower (s : string) : string := of_chars (lower_chars (chars s)).

Definition upper (s : string) : string := of_chars (map upper_ascii (chars s)).

(** [s.replace(a, b)] for single characters [a] and [b]. *)
Definition replace_char (a b : ascii) (s : string) : string :=
  of_chars (map (fun c => if Ascii.eqb c a then b else c) (chars s)).

(** [s.split(sep)] for a single character [sep]: never the empty list. *)
Fixpoint split_chars (sep : ascii) (cur : list ascii) (l : list ascii)
  : list string :=
  match l with
  | [] => [of_chars (rev cur)]
  | c :: l' =>
      if Ascii.eqb c sep
      then of_chars (rev cur) :: split_chars sep [] l'
      else split_chars sep (c :: cur) l'
  end.

Definition split (sep : ascii) (s : string) : list string :=
  split_chars sep [] (chars s).

(** [sep.join(l)] *)
Definition join (sep : string) (l : list string) : string :=
  String.concat sep l.

(** [s[i:]] and [s[:i]] and [s[i:j]] for indices within range or beyond. *)
Definition drop (i : nat) (s : string) : string :=
  String.substring i (String.length s - i) s.
Definition take (i : nat) (s : string) : string :=
  String.substring 0 (Nat.min i (String.length s)) s.
Definition slice (i j : nat) (s : string) : string :=
  take (j - i) (drop i s).

(** [s.find(c, start)] for a one-character needle. *)
Fixpoint find_chars (c : ascii) (i : nat) (l : list ascii) : option nat :=
  match l with
  | [] => None
  | x :: l' => if Ascii.eqb x c then Some i else find_chars c (S i) l'
  end.

Definition find_from (c : ascii) (start : nat) (s : string) : option nat :=
  find_chars c start (List.skipn start (chars s)).

(** [s.rfind(c)] *)
Fixpoint rfind_chars (c : ascii) (i : nat) (l : list ascii) (acc : option nat)
  : option nat :=
  match l with
  | [] => acc
  | x :: l' =>
      rfind_chars c (S i) l' (if Ascii.eqb x c then Some i else acc)
  end.

Definition rfind (c : ascii) (s : string) : option nat :=
  rfind_chars c 0 (chars s) None.

(** [x in s] for strings: [x] occurs in [s]. *)
Definition contains (s x : string) : bool :=
  match String.index 0 x s with Some _ => true | None => false end.

(** Truthiness of a [str]. *)
Definition truthy (s : string) : bool := negb (String.eqb s "").

(** [s.isascii()]: every byte is below 128. *)
Definition isascii (s : string) : bool :=
  forallb (fun c => (nat_of_ascii c <? 128)%nat) (chars s).

End PyStr.

(** ** Exceptions and the world monad *)

Inductive exn_class :=
| FileNotFoundError | FileExistsError | NotADirectoryError | IsADirectoryError
| PermissionError | TypeError | AttributeError | ValueError | JSONDecodeError
| HTTPError | ConnectionError | BadZipFile | PlainException.

(** An exception object: its class and [str(e)]. *)
Record exn := Exn { exn_cls : exn_class; exn_msg : string }.

Inductive result (A : Type) :=
| Ok (a : A)
| Raise (e : exn).
Arguments Ok {A} a.
Arguments Raise {A} e.

(** Canonical absolute location of a file-system object: the names from the
    root downwards. *)
Abbreviation path := (list string).

Inductive node :=
| File (read_only : bool) (data : string)
| Dir (read_only : bool).

Inductive log_level := WARNING | ERROR.

(** What the callbacks of [download_update] were called with. *)
Inductive event :=
| Progress (fraction : Q)
| Status (message : string).

(** What [launch_game] asked the operating system to do. *)
Inductive os_call :=
| WebOpen (url : string)
| StartFile (file : string)
| Popen (cmd : list string) (cwd : string).

Record world := World {
  w_fs : gmap path node;
  w_cwd : path;
  w_log : list (log_level * string);
  w_events : list event;
  w_calls : list os_call
}.

Definition M (A : Type) : Type := world -> result A * world.

Definition ret {A} (a : A) : M A := fun w => (Ok a, w).
Definition raise {A} (e : exn) : M A := fun w => (Raise e, w).
Definition bind {A B} (c : M A) (k : A -> M B) : M B :=
  fun w => match c w with
           | (Ok a, w') => k a w'
           | (Raise e, w') => (Raise e, w')
           end.

(** [try: c except Exception as e: h(e)] *)
Definition try_except {A} (c : M A) (h : exn -> M A) : M A :=
  fun w => match c w with
           | (Ok a, w') => (Ok a, w')
           | (Raise e, w') => h e w'
           end.

Definition lift {A} (r : result A) : M A := fun w => (r, w).
Definition get_fs : M (gmap path node) := fun w => (Ok (w_fs w), w).
Definition get_cwd : M path := fun w => (Ok (w_cwd w), w).
Definition put_fs (m : gmap path node) : M unit :=
  fun w => (Ok tt, World m (w_cwd w) (w_log w) (w_events w) (w_calls w)).
Definition logging (lvl : log_level) (msg : string) : M unit :=
  fun w => (Ok tt, World (w_fs w) (w_cwd w) (w_log w ++ [(lvl, msg)])
                         (w_events w) (w_calls w)).
Definition emit (ev : event) : M unit :=
  fun w => (Ok tt, World (w_fs w) (w_cwd w) (w_log w)
                         (w_events w ++ [ev]) (w_calls w)).
Definition record_call (c : os_call) : M unit :=
  fun w => (Ok tt, World (w_fs w) (w_cwd w) (w_log w) (w_events w)
                         (w_calls w ++ [c])).

Notation "'let*' x ':=' c 'in' k" := (bind c (fun x => k))
  (at level 10, x pattern, c at level 100, k at level 200).
Notation "c '>>' k" := (bind c (fun _ => k))
  (at level 100, k at level 200, right associativity, only parsing).

(** [if not cond: raise e] *)
Definition guard (cond : bool) (e : exn) : M unit :=
  if cond then ret tt else raise e.


(** ** [pathlib] pure paths (CPython 3.12)

    A pure path is a drive, a root and the remaining components ([_tail]).
    [parse] is [PurePath._parse_path], [to_str] is [__str__]. *)

Inductive flavour := Posix | Windows.

Record pure_path := PurePath {
  pp_flavour : flavour;
  pp_drive : string;
  pp_root : string;
  pp_tail : list string
}.

Module Pathlib.

Definition sep (fl : flavour) : ascii :=
  match fl with Posix => "/"%char | Windows => "\"%char end.
Definition sep_str (fl : flavour) : string := String (sep fl) "".

(** [posixpath.splitroot] *)
Definition posix_splitroot (p : string) : string * string * string :=
  if negb (String.eqb (PyStr.take 1 p) "/") then ("", "", p)
  else if negb (String.eqb (PyStr.slice 1 2 p) "/")
          || String.eqb (PyStr.slice 2 3 p) "/"
       then ("", "/", PyStr.drop 1 p)
       else ("", PyStr.take 2 p, PyStr.drop 2 p).

(** The number of bytes of the first character of a string. *)
Definition first_char_bytes (p : string) : nat :=
  match p with
  | String c _ =>
      let n := nat_of_ascii c in
      if (n <? 192)%nat then 1%nat
      else if (n <? 224)%nat then 2%nat
      else if (n <? 240)%nat then 3%nat
      else 4%nat
  | EmptyString => 1%nat
  end.

(** [ntpath.splitroot], applied to a string whose [/] were already
    replaced by [\].  The drive of [X:...] ends after the second
    character, whatever the first character is. *)
Definition nt_splitroot (p : string) : string * string * string :=
  if String.eqb (PyStr.take 1 p) "\" then
    if String.eqb (PyStr.slice 1 2 p) "\" then
      let start :=
        if String.eqb (PyStr.upper (PyStr.take 8 p)) "\\?\UNC\"
        then 8%nat else 2%nat in
      match PyStr.find_from "\"%char start p with
      | None => (p, "", "")
      | Some index =>
          match PyStr.find_from "\"%char (index + 1) p with
          | None => (p, "", "")
          | Some index2 =>
              (PyStr.take index2 p, PyStr.slice index2 (index2 + 1) p,
               PyStr.drop (index2 + 1) p)
          end
      end
    else ("", PyStr.take 1 p, PyStr.drop 1 p)
  else
    let k := first_char_bytes p in
    if String.eqb (PyStr.slice k (k + 1) p) ":" then
      if String.eqb (PyStr.slice (k + 1) (k + 2) p) "\"
      then (PyStr.take (k + 1) p, PyStr.slice (k + 1) (k + 2) p,
            PyStr.drop (k + 2) p)
      else (PyStr.take (k + 1) p, "", PyStr.drop (k + 1) p)
    else ("", "", p).

Definition splitroot (fl : flavour) (p : string) : string * string * string :=
  match fl with Posix => posix_splitroot p | Windows => nt_splitroot p end.

(** The components kept in the tail: [x and x != '.'] *)
Definition keep_part (x : string) : bool :=
  negb (String.eqb x "") && negb (String.eqb x ".").

Definition parse (fl : flavour) (raw : string) : pure_path :=
  if String.eqb raw "" then PurePath fl "" "" []
  else
    let p := match fl with
             | Posix => raw
             | Windows => PyStr.replace_char "/"%char "\"%char raw
             end in
    let '(drv, root, rel) := splitroot fl p in
    let root :=
      if String.eqb root "" && PyStr.startswith drv (sep_str fl)
         && negb (PyStr.endswith drv (sep_str fl))
      then
        let drv_parts := PyStr.split (sep fl) drv in
        if (length drv_parts =? 4)%nat
           && negb (PyStr.contains "?." (nth 2 drv_parts ""))
        then sep_str fl
        else if (length drv_parts =? 6)%nat then sep_str fl else root
      else root in
    PurePath fl drv root (filter (fun x => keep_part x = true)
                                 (PyStr.split (sep fl) rel)).

(** [PurePath._format_parsed_parts] followed by [or '.'] *)
Definition to_str (p : pure_path) : string :=
  let fl := pp_flavour p in
  let s :=
    if PyStr.truthy (pp_drive p) || PyStr.truthy (pp_root p)
    then pp_drive p +:+ pp_root p +:+ PyStr.join (sep_str fl) (pp_tail p)
    else
      match pp_tail p with
      | t :: _ =>
          if PyStr.truthy (fst (fst (splitroot fl t)))
          then PyStr.join (sep_str fl) ("." :: pp_tail p)
          else PyStr.join (sep_str fl) (pp_tail p)
      | [] => ""
      end in
  if String.eqb s "" then "." else s.

(** [p.name] *)
Definition name (p : pure_path) : string := List.last (pp_tail p) "".

(** The suffix of a file name: from its last dot on, unless that dot is
    the first or the last character. *)
Definition name_suffix (nm : string) : string :=
  match PyStr.rfind "."%char nm with
  | Some i =>
      if ((0 <? i) && (i <? String.length nm - 1))%nat
      then PyStr.drop i nm else ""
  | None => ""
  end.

Definition name_stem (nm : string) : string :=
  match PyStr.rfind "."%char nm with
  | Some i =>
      if ((0 <? i) && (i <? String.length nm - 1))%nat
      then PyStr.take i nm else nm
  | None => nm
  end.

(** [p.suffix] and [p.stem] *)
Definition suffix (p : pure_path) : string := name_suffix (name p).
Definition stem (p : pure_path) : string := name_stem (name p).

(** [p.parent] *)
Definition parent (p : pure_path) : pure_path :=
  match pp_tail p with
  | [] => p
  | _ => PurePath (pp_flavour p) (pp_drive p) (pp_root p)
                  (removelast (pp_tail p))
  end.

(** [p.is_absolute()] *)
Definition is_absolute (p : pure_path) : bool :=
  match pp_flavour p with
  | Posix => PyStr.truthy (pp_root p)
  | Windows => PyStr.truthy (pp_drive p) && PyStr.truthy (pp_root p)
  end.

(** [posixpath.join(a, b)] *)
Definition posix_join (a b : string) : string :=
  if PyStr.startswith b "/" then b
  else if String.eqb a "" || PyStr.endswith a "/" then a +:+ b
  else a +:+ "/" +:+ b.

(** [p / seg] on a POSIX path, for a segment given by its raw string. *)
Definition joinpath (p : pure_path) (seg : string) : pure_path :=
  parse Posix (posix_join (to_str p) seg).

(** The path [glob] builds for a directory entry
    ([_make_child_relpath]): the entry's name is appended unparsed. *)
Definition make_child (p : pure_path) (nm : string) : pure_path :=
  PurePath (pp_flavour p) (pp_drive p) (pp_root p) (pp_tail p ++ [nm]).

(** Lexical normalisation of a list of components below the root: what
    [os.path.realpath] computes when no component is a symbolic link. *)
Fixpoint normalize (acc : path) (comps : list string) : path :=
  match comps with
  | [] => acc
  | c :: rest =>
      if String.eqb c ".." then normalize (removelast acc) rest
      else normalize (acc ++ [c]) rest
  end.

(** [p.resolve()] on a POSIX path, in the working directory [cwd]: the
    path made absolute, its [..] components taken out.  This is what
    [resolve] returns where no component is a symbolic link. *)
Definition resolve (cwd : path) (p : pure_path) : pure_path :=
  PurePath Posix "" "/"
    (normalize (if PyStr.truthy (pp_root p) then [] else cwd) (pp_tail p)).

(** The resolved path as a location of the file system. *)
Definition location (p : pure_path) : path := pp_tail p.

(** [Path.cwd()] *)
Definition of_cwd (cwd : path) : pure_path := PurePath Posix "" "/" cwd.

End Pathlib.

(** ** The file system

    A map from canonical locations to nodes.  The root is the location [[]].
    Path resolution is the operating system's: every component but the last
    must be an existing directory, and [..] goes to the parent of the
    directory reached so far. *)

Module FS.

(** An [OSError] of the class [c], about the file named [name]. *)
Definition os_error_named (c : exn_class) (name : string) : exn :=
  let text := match c with
              | FileNotFoundError => "[Errno 2] No such file or directory: '"
              | FileExistsError => "[Errno 17] File exists: '"
              | NotADirectoryError => "[Errno 20] Not a directory: '"
              | IsADirectoryError => "[Errno 21] Is a directory: '"
              | _ => "[Errno 13] Permission denied: '"
              end in
  Exn c (text +:+ name +:+ "'").

Definition os_error (c : exn_class) (p : pure_path) : exn :=
  os_error_named c (Pathlib.to_str p).

Definition start (cwd : path) (p : pure_path) : path :=
  if PyStr.truthy (pp_root p) then [] else cwd.

Definition step (cur : path) (c : string) : path :=
  if String.eqb c ".." then removelast cur else cur ++ [c].

Fixpoint walk (m : gmap path node) (p : pure_path) (cur : path)
         (comps : list string) : result path :=
  match comps with
  | [] => Ok cur
  | c :: rest =>
      match rest with
      | [] => Ok (step cur c)
      | _ :: _ =>
          match m !! step cur c with
          | Some (Dir _) => walk m p (step cur c) rest
          | Some (File _ _) => Raise (os_error NotADirectoryError p)
          | None => Raise (os_error FileNotFoundError p)
          end
      end
  end.

(** Where the path [p] points, whether or not something is there. *)
Definition locate (p : pure_path) : M path :=
  fun w => (walk (w_fs w) p (start (w_cwd w) p) (pp_tail p), w).

(** [os.stat(p)].  It fails only for an entry that is not there:
    permissions on the directories of the way and limits on the length of
    names are not modelled. *)
Definition stat (p : pure_path) : M node :=
  let* q := locate p in
  let* m := get_fs in
  match m !! q with
  | Some nd => ret nd
  | None => raise (os_error FileNotFoundError p)
  end.

(** [pathlib._ignore_error], and the [except ValueError] beside it: the
    errors of [stat] that [exists] and [is_dir] answer with [False].  They
    are [ENOENT] and [ENOTDIR] ([EBADF] and [ELOOP] do not arise here). *)
Definition ignore_error (e : exn) : bool :=
  match exn_cls e with
  | FileNotFoundError | NotADirectoryError | ValueError => true
  | _ => false
  end.

(** [p.exists()] and [p.is_dir()] (CPython 3.12): [False] when [stat] fails
    with an error that [_ignore_error] accepts; any other error of [stat]
    is raised again. *)
Definition exists_ (p : pure_path) : M bool :=
  try_except (stat p >> ret true)
             (fun e => if ignore_error e then ret false else raise e).

Definition is_dir (p : pure_path) : M bool :=
  try_except (let* nd := stat p in
              ret (match nd with Dir _ => true | File _ _ => false end))
             (fun e => if ignore_error e then ret false else raise e).

(** Creating a new entry at [q]: its parent must be a writable directory. *)
Definition create (p : pure_path) (q : path) (nd : node) : M unit :=
  let* m := get_fs in
  match m !! removelast q with
  | Some (Dir ro) =>
      if ro then raise (os_error PermissionError p)
      else put_fs (<[q := nd]> m)
  | Some (File _ _) => raise (os_error NotADirectoryError p)
  | None => raise (os_error FileNotFoundError p)
  end.

(** [os.mkdir(p)] *)
Definition os_mkdir (p : pure_path) : M unit :=
  let* q := locate p in
  let* m := get_fs in
  match m !! q with
  | Some _ => raise (os_error FileExistsError p)
  | None => create p q (Dir false)
  end.

(** [p.mkdir(parents=False, exist_ok=exist_ok)] *)
Definition mkdir (exist_ok : bool) (p : pure_path) : M unit :=
  try_except (os_mkdir p)
    (fun e =>
       match exn_cls e with
       | FileNotFoundError => raise e
       | _ => let* d := is_dir p in
              if negb exist_ok || negb d then raise e else ret tt
       end).

(** [p.mkdir(parents=True, exist_ok=True)], by recursion on the reversed
    components of [p]: the parent drops the last one. *)
Fixpoint mkdir_rec (fl : flavour) (drv root : string) (rtail : list string)
  : M unit :=
  let self := PurePath fl drv root (rev rtail) in
  try_except (os_mkdir self)
    (fun e =>
       match exn_cls e with
       | FileNotFoundError =>
           match rtail with
           | [] => raise e
           | _ :: rparent =>
               mkdir_rec fl drv root rparent >> mkdir true self
           end
       | _ => let* d := is_dir self in
              if negb d then raise e else ret tt
       end).

Definition mkdir_parents (p : pure_path) : M unit :=
  mkdir_rec (pp_flavour p) (pp_drive p) (pp_root p) (rev (pp_tail p)).

(** [open(p, "wb")]: creates the file or truncates it; the handle is the
    file's location. *)
Definition open_wb (p : pure_path) : M path :=
  let* q := locate p in
  let* m := get_fs in
  match m !! q with
  | Some (Dir _) => raise (os_error IsADirectoryError p)
  | Some (File ro _) =>
      if ro then raise (os_error PermissionError p)
      else put_fs (<[q := File false ""]> m) >> ret q
  | None => create p q (File false "") >> ret q
  end.

(** [f.write(data)] on the handle of an open file.  The write goes
    through: a disk that is full or fails is not modelled. *)
Definition write (h : path) (data : string) : M unit :=
  let* m := get_fs in
  match m !! h with
  | Some (File ro old) => put_fs (<[h := File ro (old +:+ data)]> m)
  | _ => ret tt
  end.

(** [p.write_text(data)], and [open(p, "wb")] followed by one [write]. *)
Definition write_file (p : pure_path) (data : string) : M unit :=
  let* h := open_wb p in write h data.

(** [p.read_text()] before decoding: the bytes of the file. *)
Definition read_file (p : pure_path) : M string :=
  let* nd := stat p in
  match nd with
  | File _ data => ret data
  | Dir _ => raise (os_error IsADirectoryError p)
  end.

(** The names of the entries of the directory at location [d]. *)
Definition entry_name (d : path) (q : path) : option string :=
  match q with
  | [] => None
  | _ :: _ => if decide (removelast q = d) then Some (List.last q "") else None
  end.

Definition listdir (m : gmap path node) (d : path) : list string :=
  omap (fun kv => entry_name d (fst kv)) (map_to_list m).

(** [sorted(p.glob("*" + ext))]: the entries of the directory [p] whose
    name ends in [ext], in the order of their names.  Nothing when [p] is
    not a directory.  The names are compared byte by byte, which is how
    [sorted] orders POSIX paths whose names are in UTF-8. *)
Definition str_le (a b : string) : Prop := String.leb a b = true.

#[global] Instance str_le_dec a b : Decision (str_le a b).
Proof. unfold str_le. apply _. Defined.

Definition sorted_glob (p : pure_path) (ext : string) : M (list pure_path) :=
  let* d := is_dir p in
  if negb d then ret []
  else
    let* q := locate p in
    let* m := get_fs in
    ret (map (Pathlib.make_child p)
             (merge_sort str_le
                (filter (fun nm => PyStr.endswith nm ext = true)
                        (listdir m q)))).

End FS.

(** ** JSON values and game records

    What [json.loads] returns and what a game [dict] holds.  A [dict] with
    string keys is a finite map. *)

#[warnings="-register-all"]
Inductive json :=
| JNull
| JBool (b : bool)
| JNum (n : Z)
| JStr (s : string)
| JArr (items : list json)
| JObj (fields : gmap string json).

(** A game record: the [dict] the program passes around. *)
Abbreviation game := (gmap string json).

(** Truthiness of a Python value ([if v:], [not v], [a or b]). *)
Definition truthy (v : json) : bool :=
  match v with
  | JNull => false
  | JBool b => b
  | JNum n => negb (n =? 0)%Z
  | JStr s => PyStr.truthy s
  | JArr items => match items with [] => false | _ :: _ => true end
  | JObj fields => negb (bool_decide (map_to_list fields = []))
  end.

(** [d.get(k)]: [None] when the key is missing. *)
Definition dict_get (k : string) (d : game) : json := default JNull (d !! k).

(** [d.get(k)] is truthy. *)
Definition has_truthy (k : string) (d : game) : bool := truthy (dict_get k d).

(** [json.dumps(v, indent=2)] encoded as UTF-8, and [json.loads] of the
    decoded bytes of a file; [None] stands for any exception raised while
    decoding or parsing. *)
Class JsonCodec := {
  dumps : json -> string;
  loads : string -> option json
}.

(** [str(v)] of a Python value, as an f-string formats it. *)
Class PyRepr := py_str : json -> string.

(** ** CatalogStore *)

Section Catalog.

Context `{JsonCodec} `{PyRepr}.

Definition GAMES_DIR : pure_path := Pathlib.parse Posix "games".

(** [SCHEMA_DEFAULT], built when the module is imported in the working
    directory [cwd]. *)
Definition SCHEMA_DEFAULT (cwd : path) : game :=
  let here := Pathlib.of_cwd cwd in
  <["id" := JStr "sample"]>
  (<["name" := JStr "Sample Game"]>
  (<["game_path" := JStr (Pathlib.to_str (Pathlib.joinpath here "SampleGame.exe"))]>
  (<["work_dir" := JStr (Pathlib.to_str here)]>
  (<["args" := JArr []]>
  (<["news_url" :=
       JStr "https://raw.githubusercontent.com/github/markup/master/README.md"]>
  (<["icon" := JStr "assets/empty_icon.png"]>
  (<["cover" := JStr "assets/empty_background.jpg"]>
  (<["update" :=
       JObj (<["url" := JStr ""]>
            (<["dest" := JStr (Pathlib.to_str
                                 (Pathlib.joinpath here "sample_update.zip"))]>
            (<["extract_to" := JStr (Pathlib.to_str here)]> ∅)))]>
   ∅)))))))).

(** [json.loads(p.read_text(encoding="utf-8"))] *)
Definition read_json (p : pure_path) : M json :=
  let* bytes := FS.read_file p in
  match loads bytes with
  | Some v => ret v
  | None => raise (Exn JSONDecodeError "invalid JSON")
  end.

(** Lines 88-90: the working directory of a record that has none. *)
Definition default_work_dir (d : game) : M string :=
  let* cwd := get_cwd in
  if has_truthy "game_path" d then
    match dict_get "game_path" d with
    | JStr s =>
        let gp := Pathlib.parse Posix s in
        let* there := FS.exists_ gp in
        ret (Pathlib.to_str (if there then Pathlib.parent gp
                             else Pathlib.of_cwd cwd))
    | _ => raise (Exn TypeError
                    "expected str, bytes or os.PathLike object")
    end
  else ret (Pathlib.to_str (Pathlib.of_cwd cwd)).

(** The body of the [try] of [_read_game_file].  A value that is not a
    [dict] makes one of lines 85-87 raise ([TypeError] or
    [AttributeError]). *)
Definition read_game_body (p : pure_path) : M game :=
  let* data := read_json p in
  match data with
  | JObj d =>
      let d := match d !! "id" with
               | Some _ => d
               | None => <["id" := JStr (Pathlib.stem p)]> d
               end in
      let d := match d !! "name" with
               | Some _ => d
               | None => <["name" := dict_get "id" d]> d
               end in
      let* d := if negb (has_truthy "work_dir" d)
                then let* wd := default_work_dir d in
                     ret (<["work_dir" := JStr wd]> d)
                else ret d in
      ret (<["meta_path" := JStr (Pathlib.to_str p)]> d)
  | _ => raise (Exn TypeError "game file does not hold an object")
  end.

Definition _read_game_file (p : pure_path) : M game :=
  try_except (read_game_body p)
    (fun e =>
       logging WARNING ("Skipping bad game file " +:+ Pathlib.name p
                        +:+ ": " +:+ exn_msg e) >>
       ret ∅).

(** [a or b or "game"] followed by [.lower().replace(" ", "_")]: the
    first truthy operand must be a [str]. *)
Definition derive_gid (g : game) : M string :=
  let chosen := if has_truthy "id" g then dict_get "id" g
                else if has_truthy "name" g then dict_get "name" g
                else JStr "game" in
  match chosen with
  | JStr s => ret (PyStr.replace_char " "%char "_"%char (PyStr.lower s))
  | _ => raise (Exn AttributeError "object has no attribute 'lower'")
  end.

(** [Path(game.get("meta_path") or (GAMES_DIR / f"{gid}.json"))] *)
Definition target_path (g : game) (gid : string) : M pure_path :=
  if has_truthy "meta_path" g then
    match dict_get "meta_path" g with
    | JStr s => ret (Pathlib.parse Posix s)
    | _ => raise (Exn TypeError
                    "expected str, bytes or os.PathLike object")
    end
  else ret (Pathlib.joinpath GAMES_DIR (gid +:+ ".json")).

(** [{k: v for k, v in game.items() if k != "meta_path"}] *)
Definition to_save (g : game) : game := delete "meta_path" g.

(** Returns the path written and the record with its [meta_path] set. *)
Definition _write_game_file (g : game) : M (pure_path * game) :=
  let* gid := derive_gid g in
  let* p := target_path g gid in
  FS.mkdir_parents (Pathlib.parent p) >>
  FS.write_file p (dumps (JObj (to_save g))) >>
  ret (p, <["meta_path" := JStr (Pathlib.to_str p)]> g).

(** The [for] loop of [load_games]. *)
Fixpoint scan_games (ps : list pure_path) (games : list game)
  : M (list game) :=
  match ps with
  | [] => ret games
  | p :: ps' =>
      let* g := _read_game_file p in
      scan_games ps' (if truthy (JObj g) then games ++ [g] else games)
  end.

Definition load_games : M (list game) :=
  let* cwd := get_cwd in
  FS.mkdir true GAMES_DIR >>
  let* ps := FS.sorted_glob GAMES_DIR ".json" in
  let* games := scan_games ps [] in
  match games with
  | [] =>
      let sample := <["name" := JStr "Sample Game"]>
                      (<["id" := JStr "sample"]> (SCHEMA_DEFAULT cwd)) in
      let* written := _write_game_file sample in
      ret (games ++ [snd written])
  | _ :: _ => ret games
  end.

(** Returns the records as the loop leaves them: a record that was saved
    has its [meta_path] set. *)
Fixpoint save_games (games : list game) : M (list game) :=
  match games with
  | [] => ret []
  | g :: rest =>
      let* g' :=
        try_except (let* written := _write_game_file g in
                    ret (snd written))
          (fun e =>
             logging ERROR
               ("Save failed for "
                +:+ py_str (default (JStr "(no id)") (g !! "id"))
                +:+ ": " +:+ exn_msg e) >>
             ret g) in
      let* rest' := save_games rest in
      ret (g' :: rest')
  end.

End Catalog.

(** ** LaunchDispatcher

    The three launch mechanisms belong to the host: each either succeeds or
    raises an exception (a subclass of [Exception]).  [os_name] is
    [os.name]; [pathlib] follows it. *)

Class OSEnv := {
  os_name : string;
  webbrowser_open : string -> result bool;
  os_startfile : string -> result unit;
  subprocess_Popen : list string -> string -> result unit
}.

Section Launch.

Context `{OSEnv}.

Definition host_flavour : flavour :=
  if String.eqb os_name "nt" then Windows else Posix.

(** [Path(s)] on the host. *)
Definition host_path (s : string) : pure_path := Pathlib.parse host_flavour s.

Definition _is_windows_shortcut (p : pure_path) : bool :=
  existsb (String.eqb (PyStr.lower (Pathlib.suffix p)))
          [".lnk"; ".url"; ".bat"; ".cmd"].

(** The host is asked to do [c]; [r] is what it answers. *)
Definition os_request {A} (c : os_call) (r : result A) : M A :=
  record_call c >> lift r.

Definition PROTOCOLS : list string :=
  ["http://"; "https://"; "steam://"; "epic://"].

(** The body of the [try] of [launch_game], after [args = args or []]. *)
Definition launch_body (game_path : string) (work_dir : option string)
           (args : list string) : M (bool * string) :=
  if PyStr.startswith_any game_path PROTOCOLS then
    os_request (WebOpen game_path) (webbrowser_open game_path) >>
    ret (true, "Opened URL/protocol")
  else
    let p := host_path game_path in
    if String.eqb os_name "nt" && _is_windows_shortcut p
       && match args with [] => true | _ :: _ => false end
    then
      os_request (StartFile (Pathlib.to_str p))
                 (os_startfile (Pathlib.to_str p)) >>
      ret (true, "Launched via Shell")
    else
      let cwd := match work_dir with
                 | Some wd => if PyStr.truthy wd then wd
                              else Pathlib.to_str (Pathlib.parent p)
                 | None => Pathlib.to_str (Pathlib.parent p)
                 end in
      let cmd := Pathlib.to_str p :: args in
      os_request (Popen cmd cwd) (subprocess_Popen cmd cwd) >>
      ret (true, "Launched").

Definition launch_game (game_path : string) (work_dir : option string)
           (args : option (list string)) : M (bool * string) :=
  let args := default [] args in
  try_except (launch_body game_path work_dir args)
             (fun e => ret (false, exn_msg e)).

End Launch.

(** ** ArchiveExtractor *)

(** An entry of an open archive ([ZipInfo]): its recorded name and its
    decompressed content, or [None] when [zf.open] raises for it. *)
Record zip_entry := ZipEntry {
  ze_filename : string;
  ze_data : option string
}.

(** [info.is_dir()] *)
Definition ze_is_dir (info : zip_entry) : bool :=
  PyStr.endswith (ze_filename info) "/".

(** The body of the [for] loop of [_safe_extract_zip]. *)
Definition extract_entry (base : pure_path) (info : zip_entry) : M unit :=
  let rel := Pathlib.parse Posix (ze_filename info) in
  guard (negb (Pathlib.is_absolute rel))
        (Exn PlainException
             ("Unsafe absolute path in zip: " +:+ ze_filename info)) >>
  let* cwd := get_cwd in
  let out := Pathlib.resolve cwd (Pathlib.joinpath base (ze_filename info)) in
  guard (PyStr.startswith (Pathlib.to_str out) (Pathlib.to_str base))
        (Exn PlainException
             ("Unsafe path traversal in zip: " +:+ ze_filename info)) >>
  if ze_is_dir info then FS.mkdir_parents out
  else
    FS.mkdir_parents (Pathlib.parent out) >>
    match ze_data info with
    | Some data => FS.write_file out data
    | None => raise (Exn BadZipFile "Bad entry in zip file")
    end.

Fixpoint extract_entries (base : pure_path) (infos : list zip_entry) : M unit :=
  match infos with
  | [] => ret tt
  | info :: rest => extract_entry base info >> extract_entries base rest
  end.

Definition _safe_extract_zip (zf : list zip_entry) (dest_dir : pure_path)
  : M unit :=
  let* cwd := get_cwd in
  extract_entries (Pathlib.resolve cwd dest_dir) zf.

(** A location lies within the directory at [base]: it is [base] or below. *)
Definition within (base q : path) : Prop := base `prefix_of` q.

(** ** Downloader *)

(** A streamed HTTP response: its status, its [Content-Length] header if
    any, the chunks [iter_content] yields, and the exception it raises
    after them when the transfer breaks. *)
Record response := Response {
  status_code : Z;
  content_length : option string;
  body_chunks : list string;
  body_error : option exn
}.

(** [_HTTP.get(url, stream=True, timeout=60)] *)
Class Network := http_get : string -> result response.

(** [zipfile.ZipFile(f, "r").infolist()] for the bytes of the file; [None]
    when the bytes are no archive. *)
Class ZipCodec := read_zip : string -> option (list zip_entry).

Module PyInt.

Definition is_space (c : ascii) : bool :=
  let n := nat_of_ascii c in
  ((n =? 32) || ((9 <=? n) && (n <=? 13)) || ((28 <=? n) && (n <=? 31)))%nat.

Fixpoint lstrip (l : list ascii) : list ascii :=
  match l with
  | c :: l' => if is_space c then lstrip l' else l
  | [] => []
  end.

Definition strip (l : list ascii) : list ascii :=
  rev (lstrip (rev (lstrip l))).

Definition is_digit (c : ascii) : bool :=
  let n := nat_of_ascii c in ((48 <=? n) && (n <=? 57))%nat.

(** Digits with single underscores between them. *)
Fixpoint digits (l : list ascii) (after_digit : bool) (acc : Z) : option Z :=
  match l with
  | [] => if after_digit then Some acc else None
  | c :: l' =>
      if is_digit c
      then digits l' true (10 * acc + Z.of_nat (nat_of_ascii c - 48))%Z
      else if Ascii.eqb c "_" && after_digit
           then match l' with
                | d :: _ => if is_digit d then digits l' false acc else None
                | [] => None
                end
           else None
  end.

(** [sys.get_int_max_str_digits()]: the default, which the launcher leaves
    as it is. *)
Definition max_str_digits : nat := N.to_nat 4300.

(** The run of digits and underscores at the head of a literal, as [int]
    scans it before it converts: the number of digits in it, or [None] for
    two underscores in a row or an underscore at its end. *)
Fixpoint scan (l : list ascii) (after_underscore : bool) (n : nat)
  : option nat :=
  match l with
  | c :: l' =>
      if is_digit c then scan l' false (S n)
      else if Ascii.eqb c "_"
           then if after_underscore then None else scan l' true n
           else if after_underscore then None else Some n
  | [] => if after_underscore then None else Some n
  end.

(** What [int] makes of a string: a number, or one of its two
    [ValueError]s. *)
Inductive literal :=
| Number (n : Z)
| Invalid
| TooLong (ndigits : nat).

Definition unsigned (l : list ascii) : literal :=
  match l with
  | c :: _ =>
      if Ascii.eqb c "_" then Invalid
      else match scan l false 0 with
           | None => Invalid
           | Some n =>
               if (max_str_digits <? n)%nat then TooLong n
               else match digits l false 0%Z with
                    | Some z => Number z
                    | None => Invalid
                    end
           end
  | [] => Invalid
  end.

Definition read (s : string) : literal :=
  match strip (PyStr.chars s) with
  | c :: l' =>
      if Ascii.eqb c "-"
      then match unsigned l' with
           | Number z => Number (- z)
           | other => other
           end
      else if Ascii.eqb c "+" then unsigned l'
      else unsigned (c :: l')
  | [] => Invalid
  end.

(** [int(s)] for a string of ASCII characters: [None] is [ValueError]. *)
Definition of_str (s : string) : option Z :=
  match read s with
  | Number z => Some z
  | _ => None
  end.

(** [str(e)] of that [ValueError], for a string that [repr] shows between
    plain quotes as it is. *)
Definition error_message (s : string) : string :=
  match read s with
  | TooLong n =>
      "Exceeds the limit (4300 digits) for integer string conversion: value has "
      +:+ NilZero.string_of_uint (Nat.to_uint n)
      +:+ " digits; use sys.set_int_max_str_digits() to increase the limit"
  | _ => "invalid literal for int() with base 10: '" +:+ s +:+ "'"
  end.

End PyInt.

Section Download.

Context `{Network} `{ZipCodec}.

(** [r.raise_for_status()]: an [HTTPError] for the statuses 400 to 599. *)
Definition raise_for_status (url : string) (r : response) : M unit :=
  let code := status_code r in
  let shown := DecimalString.NilZero.string_of_int (Z.to_int code) in
  if ((400 <=? code) && (code <? 500))%Z
  then raise (Exn HTTPError (shown +:+ " Client Error for url: " +:+ url))
  else if ((500 <=? code) && (code <? 600))%Z
  then raise (Exn HTTPError (shown +:+ " Server Error for url: " +:+ url))
  else ret tt.

(** [int(r.headers.get("Content-Length", "0") or 0)] *)
Definition declared_total (r : response) : M Z :=
  let header := default "0" (content_length r) in
  if PyStr.truthy header then
    match PyInt.of_str header with
    | Some n => ret n
    | None => raise (Exn ValueError (PyInt.error_message header))
    end
  else ret 0%Z.

Definition len (chunk : string) : Z := Z.of_nat (String.length chunk).

(** The loop over [r.iter_content(chunk_size=65536)], with the file open
    at [f]; returns the number of bytes written. *)
Fixpoint write_chunks (f : path) (total : Z) (progress_cb : bool)
         (chunks : list string) (downloaded : Z) : M Z :=
  match chunks with
  | [] => ret downloaded
  | chunk :: rest =>
      if negb (PyStr.truthy chunk)
      then write_chunks f total progress_cb rest downloaded
      else
        FS.write f chunk >>
        let downloaded := (downloaded + len chunk)%Z in
        (if negb (total =? 0)%Z && progress_cb
         then emit (Progress (inject_Z downloaded / inject_Z total))
         else ret tt) >>
        write_chunks f total progress_cb rest downloaded
  end.

(** Whether the last name written in [dest], slashes apart, is [.]. *)
Definition ends_in_dot (dest : string) : bool :=
  String.eqb (List.last (List.filter PyStr.truthy (PyStr.split "/" dest)) "")
             ".".

(** An error of [open(dest, ...)] names the string as it was given. *)
Definition named {A} (dest : string) (c : M A) : M A :=
  try_except c (fun e => raise (FS.os_error_named (exn_cls e) dest)).

(** [open(dest, ...)] is given the string itself: an empty string names
    nothing; a final [.] names, through itself, the directory written
    before it, which must be there and cannot be opened for writing; and a
    trailing slash asks for a directory. *)
Definition open_named (dest : string) : M path :=
  let p := Pathlib.parse Posix dest in
  let has_name := match pp_tail p with [] => false | _ :: _ => true end in
  if String.eqb dest "" then raise (FS.os_error_named FileNotFoundError dest)
  else if ends_in_dot dest && has_name
  then named dest
         (let* nd := FS.stat p in
          raise (FS.os_error (match nd with
                              | File _ _ => NotADirectoryError
                              | Dir _ => IsADirectoryError
                              end) p))
  else if PyStr.endswith dest "/" && has_name
  then let* isfile := try_except
                        (let* nd := FS.stat p in
                         ret (match nd with File _ _ => true | Dir _ => false end))
                        (fun _ => ret false) in
       raise (FS.os_error_named (if isfile then NotADirectoryError
                                 else IsADirectoryError) dest)
  else named dest (FS.open_wb p).

(** The [with _HTTP.get(...) as r:] block. *)
Definition fetch_to_file (url dest : string) (progress_cb : bool) : M unit :=
  let* r := lift (http_get url) in
  raise_for_status url r >>
  let* total := declared_total r in
  FS.mkdir_parents (Pathlib.parent (Pathlib.parse Posix dest)) >>
  let* f := open_named dest in
  let* _ := write_chunks f total progress_cb (body_chunks r) 0%Z in
  match body_error r with
  | Some e => raise e
  | None => ret tt
  end.

(** [zipfile.ZipFile(dest, "r")] *)
Definition open_zip (dest : string) : M (list zip_entry) :=
  let* bytes := FS.read_file (Pathlib.parse Posix dest) in
  match read_zip bytes with
  | Some zf => ret zf
  | None => raise (Exn BadZipFile "File is not a zip file")
  end.

(** [progress_cb] and [status_cb] tell whether a callback was passed; the
    calls made to them are recorded in [w_events].  An absent or empty
    [extract_to] is the empty string. *)
Definition download_update (url dest extract_to : string)
           (progress_cb status_cb : bool) : M unit :=
  fetch_to_file url dest progress_cb >>
  if PyStr.endswith (PyStr.lower dest) ".zip" && PyStr.truthy extract_to
  then
    (if status_cb then emit (Status "Extracting…") else ret tt) >>
    let* zf := open_zip dest in
    _safe_extract_zip zf (Pathlib.parse Posix extract_to)
  else ret tt.

End Download.

(** ** A JSON codec for the examples

    An instance of [JsonCodec] on which the examples below run: the layout
    of [json.dumps(v, indent=2)] with the members of an object in the order
    of the map, and a recursive-descent parser for the JSON grammar
    restricted to integer numbers and escapes of the Basic Latin block. *)

Module ExampleCodec.

Definition dquote : ascii := ascii_of_nat 34.
Definition newline : ascii := ascii_of_nat 10.

Definition hex_digit (n : nat) : ascii :=
  if (n <? 10)%nat then ascii_of_nat (48 + n) else ascii_of_nat (87 + n).

Definition escape_char (c : ascii) : list ascii :=
  let n := nat_of_ascii c in
  if (n =? 34)%nat then ["\"%char; dquote]
  else if (n =? 92)%nat then ["\"%char; "\"%char]
  else if (n =? 10)%nat then ["\"%char; "n"%char]
  else if (n =? 13)%nat then ["\"%char; "r"%char]
  else if (n =? 9)%nat then ["\"%char; "t"%char]
  else if (n =? 8)%nat then ["\"%char; "b"%char]
  else if (n =? 12)%nat then ["\"%char; "f"%char]
  else if (n <? 32)%nat
       then ["\"%char; "u"%char; "0"%char; "0"%char;
             hex_digit (n / 16); hex_digit (n mod 16)]
       else [c].

Definition quote (s : string) : list ascii :=
  dquote :: flat_map escape_char (PyStr.chars s) ++ [dquote].

Definition print_int (n : Z) : list ascii :=
  PyStr.chars (DecimalString.NilZero.string_of_int (Z.to_int n)).

Definition spaces (n : nat) : list ascii := repeat " "%char n.

Fixpoint join_lines (items : list (list ascii)) : list ascii :=
  match items with
  | [] => []
  | [x] => x
  | x :: rest => x ++ ","%char :: newline :: join_lines rest
  end.

Fixpoint print (depth : nat) (ind : nat) (v : json) : list ascii :=
  match depth with
  | 0%nat => []
  | S depth' =>
      match v with
      | JNull => PyStr.chars "null"
      | JBool true => PyStr.chars "true"
      | JBool false => PyStr.chars "false"
      | JNum n => print_int n
      | JStr s => quote s
      | JArr [] => PyStr.chars "[]"
      | JArr items =>
          "["%char :: newline ::
          join_lines (map (fun x => spaces (ind + 2) ++ print depth' (ind + 2) x)
                          items)
          ++ newline :: spaces ind ++ ["]"%char]
      | JObj fields =>
          match map_to_list fields with
          | [] => PyStr.chars "{}"
          | kvs =>
              "{"%char :: newline ::
              join_lines
                (map (fun kv => spaces (ind + 2) ++ quote (fst kv)
                                ++ ":"%char :: " "%char
                                :: print depth' (ind + 2) (snd kv))
                     kvs)
              ++ newline :: spaces ind ++ ["}"%char]
          end
      end
  end.

Definition is_ws (c : ascii) : bool :=
  let n := nat_of_ascii c in
  ((n =? 32) || (n =? 10) || (n =? 13) || (n =? 9))%nat.

Fixpoint skip_ws (l : list ascii) : list ascii :=
  match l with
  | c :: l' => if is_ws c then skip_ws l' else l
  | [] => []
  end.

Fixpoint strip (pre : list ascii) (l : list ascii) : option (list ascii) :=
  match pre, l with
  | [], _ => Some l
  | p :: pre', c :: l' => if Ascii.eqb p c then strip pre' l' else None
  | _ :: _, [] => None
  end.

Definition is_digit (c : ascii) : bool :=
  let n := nat_of_ascii c in ((48 <=? n) && (n <=? 57))%nat.

Fixpoint take_digits (l : list ascii) (acc : Z) : Z * list ascii :=
  match l with
  | c :: l' =>
      if is_digit c
      then take_digits l' (10 * acc + Z.of_nat (nat_of_ascii c - 48))%Z
      else (acc, l)
  | [] => (acc, [])
  end.

(** An integer literal: no leading zero, no fraction, no exponent. *)
Definition parse_int (l : list ascii) : option (Z * list ascii) :=
  let '(neg, l1) := match l with
                    | c :: l' => if Ascii.eqb c "-" then (true, l') else (false, l)
                    | [] => (false, l)
                    end in
  match l1 with
  | c :: l2 =>
      if negb (is_digit c) then None
      else
        let '(n, rest) := take_digits l1 0%Z in
        let leading_zero :=
          Ascii.eqb c "0" && match l2 with
                             | d :: _ => is_digit d
                             | [] => false
                             end in
        let more := match rest with
                    | d :: _ => Ascii.eqb d "." || Ascii.eqb d "e"
                                || Ascii.eqb d "E"
                    | [] => false
                    end in
        if leading_zero || more then None
        else Some (if neg then (- n)%Z else n, rest)
  | [] => None
  end.

Definition hex_value (c : ascii) : option nat :=
  let n := nat_of_ascii c in
  if ((48 <=? n) && (n <=? 57))%nat then Some (n - 48)%nat
  else if ((97 <=? n) && (n <=? 102))%nat then Some (n - 87)%nat
  else if ((65 <=? n) && (n <=? 70))%nat then Some (n - 55)%nat
  else None.

(** The characters of a string literal after its opening quote. *)
Fixpoint parse_chars (l : list ascii) (acc : list ascii)
  : option (string * list ascii) :=
  match l with
  | [] => None
  | c :: l' =>
      if Ascii.eqb c dquote then Some (PyStr.of_chars (rev acc), l')
      else if (nat_of_ascii c <? 32)%nat then None
      else if Ascii.eqb c "\" then
        match l' with
        | e :: l'' =>
            let simple (x : nat) := parse_chars l'' (ascii_of_nat x :: acc) in
            if Ascii.eqb e dquote then simple 34%nat
            else if Ascii.eqb e "\" then simple 92%nat
            else if Ascii.eqb e "/" then simple 47%nat
            else if Ascii.eqb e "n" then simple 10%nat
            else if Ascii.eqb e "r" then simple 13%nat
            else if Ascii.eqb e "t" then simple 9%nat
            else if Ascii.eqb e "b" then simple 8%nat
            else if Ascii.eqb e "f" then simple 12%nat
            else if Ascii.eqb e "u" then
              match l'' with
              | h1 :: h2 :: h3 :: h4 :: l3 =>
                  match hex_value h1, hex_value h2, hex_value h3, hex_value h4 with
                  | Some 0%nat, Some 0%nat, Some a, Some b =>
                      if (a <? 8)%nat
                      then parse_chars l3 (ascii_of_nat (16 * a + b) :: acc)
                      else None
                  | _, _, _, _ => None
                  end
              | _ => None
              end
            else None
        | [] => None
        end
      else parse_chars l' (c :: acc)
  end.

Fixpoint parse_value (fuel : nat) (l : list ascii)
  : option (json * list ascii) :=
  match fuel with
  | 0%nat => None
  | S fuel' =>
      match skip_ws l with
      | [] => None
      | c :: r =>
          if Ascii.eqb c dquote then
            match parse_chars r [] with
            | Some (s, r') => Some (JStr s, r')
            | None => None
            end
          else if Ascii.eqb c "[" then
            match skip_ws r with
            | d :: r' =>
                if Ascii.eqb d "]" then Some (JArr [], r')
                else match parse_items fuel' r with
                     | Some (items, r'') => Some (JArr items, r'')
                     | None => None
                     end
            | [] => None
            end
          else if Ascii.eqb c "{" then
            match skip_ws r with
            | d :: r' =>
                if Ascii.eqb d "}" then Some (JObj ∅, r')
                else match parse_members fuel' r ∅ with
                     | Some (fields, r'') => Some (JObj fields, r'')
                     | None => None
                     end
            | [] => None
            end
          else
            match strip (PyStr.chars "null") (c :: r),
                  strip (PyStr.chars "true") (c :: r),
                  strip (PyStr.chars "false") (c :: r) with
            | Some r', _, _ => Some (JNull, r')
            | _, Some r', _ => Some (JBool true, r')
            | _, _, Some r' => Some (JBool false, r')
            | None, None, None =>
                match parse_int (c :: r) with
                | Some (n, r') => Some (JNum n, r')
                | None => None
                end
            end
      end
  end
with parse_items (fuel : nat) (l : list ascii)
  : option (list json * list ascii) :=
  match fuel with
  | 0%nat => None
  | S fuel' =>
      match parse_value fuel' l with
      | Some (v, r) =>
          match skip_ws r with
          | c :: r' =>
              if Ascii.eqb c "]" then Some ([v], r')
              else if Ascii.eqb c "," then
                match parse_items fuel' r' with
                | Some (vs, r'') => Some (v :: vs, r'')
                | None => None
                end
              else None
          | [] => None
          end
      | None => None
      end
  end
with parse_members (fuel : nat) (l : list ascii) (acc : gmap string json)
  : option (gmap string json * list ascii) :=
  match fuel with
  | 0%nat => None
  | S fuel' =>
      match skip_ws l with
      | q :: r =>
          if Ascii.eqb q dquote then
            match parse_chars r [] with
            | Some (k, r1) =>
                match skip_ws r1 with
                | colon :: r2 =>
                    if Ascii.eqb colon ":" then
                      match parse_value fuel' r2 with
                      | Some (v, r3) =>
                          match skip_ws r3 with
                          | c :: r4 =>
                              if Ascii.eqb c "}" then Some (<[k := v]> acc, r4)
                              else if Ascii.eqb c ","
                                   then parse_members fuel' r4 (<[k := v]> acc)
                                   else None
                          | [] => None
                          end
                      | None => None
                      end
                    else None
                | [] => None
                end
            | None => None
            end
          else None
      | [] => None
      end
  end.

Definition example_dumps (v : json) : string :=
  PyStr.of_chars (print 64 0 v).

Definition example_loads (s : string) : option json :=
  let l := PyStr.chars s in
  match parse_value (2 * length l + 2) l with
  | Some (v, r) => match skip_ws r with [] => Some v | _ :: _ => None end
  | None => None
  end.

#[export] Instance example_codec : JsonCodec :=
  {| dumps := example_dumps; loads := example_loads |}.

(** [str(v)] for the values the examples format. *)
#[export] Instance example_repr : PyRepr := fun v =>
  match v with
  | JStr s => s
  | JNum n => PyStr.of_chars (print_int n)
  | JNull => "None"
  | JBool true => "True"
  | JBool false => "False"
  | JArr _ => "[...]"
  | JObj _ => "{...}"
  end.

End ExampleCodec.

(** ** The launch classification in the words of the specification

    Three kinds, tried in this order: a target that begins with a known
    scheme; on the host with a shell-open mechanism, a target whose
    extension names a shortcut or batch script, when no arguments are
    passed; any other target. *)

Inductive launch_kind := Protocol | ShellOpen | DirectExec.

Definition kind_of (c : os_call) : launch_kind :=
  match c with
  | WebOpen _ => Protocol
  | StartFile _ => ShellOpen
  | Popen _ _ => DirectExec
  end.

Definition classify_spec `{OSEnv} (target : string) (args : list string)
  : launch_kind :=
  if bool_decide (Exists (fun scheme => String.prefix scheme target = true)
                         ["http://"; "https://"; "steam://"; "epic://"])
  then Protocol
  else if bool_decide (os_name = "nt")
          && _is_windows_shortcut (host_path target)
          && bool_decide (args = [])
  then ShellOpen
  else DirectExec.

(** [work_dir or p.parent], as a string. *)
Definition spawn_cwd (work_dir : option string) (parent : string) : string :=
  match work_dir with
  | Some wd => if PyStr.truthy wd then wd else parent
  | None => parent
  end.

(** The one request the classification asks of the host. *)
Definition chosen_call `{OSEnv} (target : string) (work_dir : option string)
           (args : list string) : os_call :=
  let p := host_path target in
  match classify_spec target args with
  | Protocol => WebOpen target
  | ShellOpen => StartFile (Pathlib.to_str p)
  | DirectExec =>
      Popen (Pathlib.to_str p :: args)
            (spawn_cwd work_dir (Pathlib.to_str (Pathlib.parent p)))
  end.

(** ** Frames and the catalog directory *)

(** The world with another file system. *)
Definition with_fs (w : world) (m : gmap path node) : world :=
  World m (w_cwd w) (w_log w) (w_events w) (w_calls w).

(** The world after one more log record. *)
Definition with_log (w : world) (lvl : log_level) (msg : string) : world :=
  World (w_fs w) (w_cwd w) (w_log w ++ [(lvl, msg)]) (w_events w) (w_calls w).

(** [c] relates every world to the one it leaves. *)
Definition keeps {A} (R : world -> world -> Prop) (c : M A) : Prop :=
  forall w, R w (snd (c w)).

(** Computations that leave the world as it is. *)
Abbreviation pure c := (keeps eq c).

Definition same_events (w w' : world) : Prop := w_events w' = w_events w.

Definition same_but_log (w w' : world) : Prop :=
  w_fs w' = w_fs w /\ w_cwd w' = w_cwd w /\ w_events w' = w_events w
  /\ w_calls w' = w_calls w.

Definition same_but_fs (w w' : world) : Prop :=
  w_cwd w' = w_cwd w /\ w_log w' = w_log w /\ w_events w' = w_events w
  /\ w_calls w' = w_calls w.

(** The path string of a location: [str] of the resolved path. *)
Definition loc_str (q : path) : string := "/" +:+ PyStr.join "/" q.

(** Every regular file of [w'] is a file of [w], unchanged, or lies at a
    location that [ok] accepts. *)
Definition writes_only (ok : path -> Prop) (w w' : world) : Prop :=
  forall q ro d,
    w_fs w' !! q = Some (File ro d) ->
    w_fs w !! q = Some (File ro d) \/ ok q.

(** The locations the test of [_safe_extract_zip] lets through: their path
    string begins with the path string of [base]. *)
Definition passes_test (base : pure_path) (q : path) : Prop :=
  PyStr.startswith (loc_str q) (Pathlib.to_str base) = true.

(** The fractions the progress callback was called with. *)
Definition progress_values (evs : list event) : list Q :=
  omap (fun ev => match ev with Progress q => Some q | Status _ => None end) evs.

Definition same_progress (w w' : world) : Prop :=
  progress_values (w_events w') = progress_values (w_events w).

(** Where [GAMES_DIR] is, seen from the working directory. *)
Definition games_loc (cwd : path) : path := cwd ++ ["games"].

(** The names [sorted(GAMES_DIR.glob("*.json"))] goes through. *)
Definition catalog_names (m : gmap path node) (cwd : path) : list string :=
  merge_sort FS.str_le
    (filter (fun nm => PyStr.endswith nm ".json" = true)
            (FS.listdir m (games_loc cwd))).

(** Whether [p.exists()] returns, in the file system [m] seen from [cwd],
    rather than raises. *)
Definition exists_returns (m : gmap path node) (cwd : path) (p : pure_path)
  : bool :=
  match fst (FS.exists_ p (World m cwd [] [] [])) with
  | Ok _ => true
  | Raise _ => false
  end.

(** A valid record file is one the loader can complete: its bytes parse as
    a JSON object, and when the record needs its [game_path] to derive
    [work_dir] (lines 88-90), the [game_path] is a string and the test
    [Path(game_path).exists()] returns.  This is narrower than a file that
    parses: an object whose [work_dir] is missing or empty and whose
    [game_path] is, say, a number parses and is skipped all the same. *)
Definition valid_record `{JsonCodec} (m : gmap path node) (cwd : path)
           (bytes : string) : bool :=
  match loads bytes with
  | Some (JObj d) =>
      has_truthy "work_dir" d || negb (has_truthy "game_path" d)
      || match dict_get "game_path" d with
         | JStr s => exists_returns m cwd (Pathlib.parse Posix s)
         | _ => false
         end
  | _ => false
  end.

(** The entry [nm] of the catalog directory is a valid record file. *)
Definition valid_entry `{JsonCodec} (m : gmap path node) (cwd : path)
           (nm : string) : bool :=
  match m !! (games_loc cwd ++ [nm]) with
  | Some (File _ bytes) => valid_record m cwd bytes
  | _ => false
  end.

(** The values of [downloaded] after each chunk that is not empty. *)
Fixpoint running_totals (chunks : list string) (downloaded : Z) : list Z :=
  match chunks with
  | [] => []
  | chunk :: rest =>
      if PyStr.truthy chunk
      then (downloaded + len chunk)%Z
           :: running_totals rest (downloaded + len chunk)%Z
      else running_totals rest downloaded
  end.

(** The number of bytes in all the chunks. *)
Definition total_length (chunks : list string) : Z :=
  fold_right (fun chunk n => (len chunk + n)%Z) 0%Z chunks.

(** [downloaded / total], exactly.  Python computes the float nearest to
    this quotient; rounding to nearest keeps the order of the quotients
    and leaves 0 and 1 as they are. *)
Definition fraction (total downloaded : Z) : Q :=
  inject_Z downloaded / inject_Z total.

(** A record was loaded from the entry [nm] of the catalog directory. *)
Definition loaded_from (nm : string) (g : game) : Prop :=
  g !! "meta_path"
  = Some (JStr (Pathlib.to_str (Pathlib.make_child GAMES_DIR nm))).

(** Where the placeholder record is saved. *)
Definition sample_loc (cwd : path) : path := games_loc cwd ++ ["sample.json"].

(** The placeholder record [load_games] builds, before it is saved. *)
Definition placeholder (cwd : path) : game :=
  <["name" := JStr "Sample Game"]>
    (<["id" := JStr "sample"]> (SCHEMA_DEFAULT cwd)).

(** ** The launcher's actions

    The parts of the [Launcher] methods that read or change the catalog,
    the file system and the host, without the widgets they update. *)

(** [s.lower().replace(" ", "_")]: the identifier [quick_add_game] derives
    from a file name, and the file name [_write_game_file] derives from an
    identifier. *)
Definition file_id (s : string) : string :=
  PyStr.replace_char " "%char "_"%char (PyStr.lower s).

(** [f"{base_id}_{n}"] *)
Definition numbered (base_id : string) (n : nat) : string :=
  base_id +:+ "_" +:+ NilZero.string_of_uint (Nat.to_uint n).

Section QuickAdd.

Context `{JsonCodec}.

(** The [while] loop of [quick_add_game], entered with the identifier
    [gid] and the counter [n], and run for at most [fuel] tests: [None]
    when the loop is still running after them. *)
Fixpoint free_gid (fuel : nat) (base_id gid : string) (n : nat)
  : M (option string) :=
  match fuel with
  | O => ret None
  | S fuel' =>
      let* taken := FS.exists_ (Pathlib.joinpath GAMES_DIR (gid +:+ ".json")) in
      if taken then free_gid fuel' base_id (numbered base_id n) (S n)
      else ret (Some gid)
  end.

(** The record [quick_add_game] builds for the executable at [p]. *)
Definition new_record (p : pure_path) (gid : string) : game :=
  let folder := JStr (Pathlib.to_str (Pathlib.parent p)) in
  <["id" := JStr gid]>
  (<["name" := JStr (Pathlib.stem p)]>
  (<["game_path" := JStr (Pathlib.to_str p)]>
  (<["work_dir" := folder]>
  (<["args" := JArr []]>
  (<["news_url" := JStr ""]>
  (<["icon" := JStr "assets/empty_icon.png"]>
  (<["cover" := JStr "assets/empty_background.jpg"]>
  (<["update" := JObj (<["url" := JStr ""]> (<["dest" := JStr ""]>
                      (<["extract_to" := folder]> ∅)))]> ∅)))))))).

(** [quick_add_game], from the path the file dialog returned ([""] when
    it was cancelled) to [self.games.append(new)]: the records of the
    launcher afterwards.  [None] when the search for a free identifier
    is still running after [fuel] tests. *)
Definition quick_add_game (fuel : nat) (path : string) (games : list game)
  : M (option (list game)) :=
  if negb (PyStr.truthy path) then ret (Some games)
  else
    let p := Pathlib.parse Posix path in
    let base_id := file_id (Pathlib.stem p) in
    let* found := free_gid fuel base_id base_id 1 in
    match found with
    | None => ret None
    | Some gid =>
        let* written := _write_game_file (new_record p gid) in
        ret (Some (games ++ [snd written]))
    end.

End QuickAdd.

(** The identifiers the loop of [quick_add_game] tries, in order:
    [base_id], [base_id_1], [base_id_2], ... *)
Definition candidate (base_id : string) (k : nat) : string :=
  match k with O => base_id | S _ => numbered base_id k end.

(** Where the record file of the identifier [gid] is. *)
Definition record_loc (cwd : path) (gid : string) : path :=
  games_loc cwd ++ [gid +:+ ".json"].

(** [s[:n]] on a [str]: its first [n] characters.  A character begins at
    each byte that is not a continuation byte of UTF-8. *)
Definition is_continuation (c : ascii) : bool :=
  let n := nat_of_ascii c in ((128 <=? n) && (n <? 192))%nat.

Fixpoint take_points (n : nat) (l : list ascii) : list ascii :=
  match l with
  | [] => []
  | c :: l' =>
      if is_continuation c then c :: take_points n l'
      else match n with
           | O => []
           | S n' => c :: take_points n' l'
           end
  end.

(** [len(s)] for a [str]: the number of its characters. *)
Definition points (l : list ascii) : nat :=
  length (filter (fun c => is_continuation c = false) l).

(** [r.text]: the body of a response decoded to a [str]. *)
Class TextDecoder := response_text : response -> string.

(** What [Launcher.play] did: it showed the warning box, or launched and
    set the status label to a text. *)
Inductive played :=
| Refused
| Launched (status : string).

Section Actions.

Context `{OSEnv} `{Network} `{ZipCodec} `{TextDecoder}.

(** [fetch_news].  Without [stream=True] the body is read before [get]
    returns, so a transfer that breaks makes [get] itself raise. *)
Definition fetch_news (url : string) : M string :=
  let* r := lift (http_get url) in
  (match body_error r with
   | Some e => raise e
   | None => ret tt
   end) >>
  raise_for_status url r >>
  ret (response_text r).

(** The worker of [Launcher.load_news]: it returns the text it hands to
    [_news_loaded], if any; the status it schedules when the fetch fails is
    recorded in [w_events]. *)
Definition news_job (url : string) : M (option string) :=
  try_except
    (let* text := fetch_news url in
     ret (Some (PyStr.of_chars
                  (take_points (N.to_nat 20000) (PyStr.chars text)))))
    (fun e => emit (Status ("News fetch failed: " +:+ exn_msg e)) >> ret None).

(** The worker of [Launcher.download], for an update block whose fields
    are strings.  Both callbacks are passed; what they and the worker
    schedule on the main loop is recorded, in order, in [w_events]. *)
Definition download_job (url dest extract_to : string) : M unit :=
  try_except
    (download_update url dest extract_to true true >>
     emit (Status ("Saved to " +:+ dest)))
    (fun e => emit (Status ("Download failed: " +:+ exn_msg e))).

(** [Launcher.play] on a POSIX host, for a selected record whose fields
    are of the types [launch_game] takes; [exe] is [None] when the record
    has no [game_path]. *)
Definition play (exe : option string) (work_dir : option string)
           (args : option (list string)) : M played :=
  match exe with
  | None => ret Refused
  | Some exe =>
      if negb (PyStr.truthy exe) then ret Refused
      else
        let* missing :=
          if PyStr.startswith_any exe ["http"; "steam://"; "epic://"]
          then ret false
          else let* there := FS.exists_ (Pathlib.parse Posix exe) in
               ret (negb there) in
        if missing then ret Refused
        else
          let* r := launch_game exe work_dir args in
          ret (Launched ((if fst r then "OK" else "FAIL")
                         +:+ " — " +:+ snd r))
  end.

End Actions.

(** ** Strings, paths and worlds: the vocabulary of the further properties *)

(** The test [lower_chars] makes at the head of a list: the three bytes of
    U+212A. *)
Definition kelvin (l : list ascii) : bool :=
  match l with
  | c :: c1 :: c2 :: _ =>
      ((nat_of_ascii c =? 226) && (nat_of_ascii c1 =? 132)
       && (nat_of_ascii c2 =? 170))%nat
  | _ => false
  end.

(** [" " -> "_"], the replacement of [replace(" ", "_")] on one byte. *)
Definition underscore (c : ascii) : ascii :=
  if Ascii.eqb c " " then "_"%char else c.

(** A string that is one component of a path: no [/] in it. *)
Definition no_slash (s : string) : Prop :=
  Forall (fun c => c <> "/"%char) (PyStr.chars s).

(** Bytes that [lower] and [replace] leave alone, wherever they stand. *)
Definition plain (c : ascii) : Prop :=
  PyStr.lower_ascii c = c /\ underscore c = c
  /\ (nat_of_ascii c =? 226)%nat = false
  /\ (nat_of_ascii c =? 132)%nat = false
  /\ (nat_of_ascii c =? 170)%nat = false
  /\ Ascii.eqb c "/" = false.

(** A name that can be one component of a location: not empty, no [/] in
    it, and neither [.] nor [..]. *)
Definition component (s : string) : Prop :=
  no_slash s /\ Pathlib.keep_part s = true /\ s <> "..".

(** The world apart from the file system and the calls to the callbacks. *)
Definition same_session (w w' : world) : Prop :=
  w_cwd w' = w_cwd w /\ w_log w' = w_log w /\ w_calls w' = w_calls w.

(** Where [p] denotes an existing directory of [w]. *)
Definition directory_at (p : pure_path) (w : world) : Prop :=
  exists q ro,
    FS.walk (w_fs w) p (FS.start (w_cwd w) p) (pp_tail p) = Ok q
    /\ w_fs w !! q = Some (Dir ro).

(** ** Example hosts, networks and worlds *)

Module Examples.

Export ExampleCodec.

(** A Windows host on which [missing.exe] cannot be spawned. *)
Definition windows_host : OSEnv := {|
  os_name := "nt";
  webbrowser_open := fun _ => Ok true;
  os_startfile := fun _ => Ok tt;
  subprocess_Popen := fun cmd _ =>
    if String.eqb (hd "" cmd) "missing.exe"
    then Raise (Exn FileNotFoundError
                    "[WinError 2] The system cannot find the file specified")
    else Ok tt
|}.

(** A POSIX host on which everything can be launched. *)
Definition posix_host : OSEnv := {|
  os_name := "posix";
  webbrowser_open := fun _ => Ok true;
  os_startfile := fun _ => Ok tt;
  subprocess_Popen := fun _ _ => Ok tt
|}.

Definition home : path := ["home"; "u"].

(** A home directory with nothing in it, and [/tmp]. *)
Definition fresh_fs : gmap path node :=
  {[ [] := Dir false; ["home"] := Dir false; home := Dir false;
     ["tmp"] := Dir false ]}.

Definition fresh : world := World fresh_fs home [] [] [].

(** A catalog with two valid record files and two invalid ones. *)
Definition mixed_catalog : world :=
  World (<[home ++ ["games"; "a.json"] := File false "{}"]>
        (<[home ++ ["games"; "b.json"] := File false "[1,"]>
        (<[home ++ ["games"; "c.json"] :=
             File false (example_dumps
                           (JObj (<["id" := JStr "c"]>
                                 (<["work_dir" := JStr "/opt/c"]> ∅))))]>
        (<[home ++ ["games"; "d.json"] := File false "[]"]>
        (<[home ++ ["games"; "notes.txt"] := File false "x"]>
        (<[home ++ ["games"] := Dir false]> fresh_fs))))))
        home [] [] [].

(** An empty catalog directory. *)
Definition empty_catalog : world :=
  World (<[home ++ ["games"] := Dir false]> fresh_fs) home [] [] [].

(** The same, with a catalog directory that cannot be written to. *)
Definition locked : world :=
  World (<[home ++ ["games"] := Dir true]> fresh_fs) home [] [] [].

(** A writable catalog directory whose one entry, [sample.json], does not
    parse and cannot be written to. *)
Definition blocked_sample : world :=
  World (<[home ++ ["games"; "sample.json"] := File true "[1,"]>
        (<[home ++ ["games"] := Dir false]> fresh_fs))
        home [] [] [].

(** A record whose [work_dir] is the empty string. *)
Definition blank_work_dir : game :=
  <["id" := JStr "a"]> (<["name" := JStr "A"]>
  (<["game_path" := JStr ""]> (<["work_dir" := JStr ""]> ∅))).

(** A record with every field of the data model. *)
Definition full_record : game :=
  <["id" := JStr "doom"]> (<["name" := JStr "Doom"]>
  (<["game_path" := JStr "/opt/doom/doom.exe"]>
  (<["work_dir" := JStr "/opt/doom"]>
  (<["args" := JArr [JStr "--fast"]]>
  (<["news_url" := JStr ""]>
  (<["icon" := JStr "assets/empty_icon.png"]>
  (<["cover" := JStr "assets/empty_background.jpg"]>
  (<["update" := JObj (<["url" := JStr ""]> (<["dest" := JStr ""]>
                      (<["extract_to" := JStr "/opt/doom"]> ∅)))]> ∅)))))))).

(** A server that answers every request with 404. *)
Definition not_found : Network := fun _ =>
  Ok (Response 404 (Some "9") ["Not found"] None).

(** A server that answers 300 Multiple Choices with a page of choices. *)
Definition multiple_choices : Network := fun _ =>
  Ok (Response 300 None ["<html>choices</html>"] None).

(** A server that declares 4 bytes and whose content, once decoded by the
    client, is 8 bytes in two chunks. *)
Definition compressed : Network := fun _ =>
  Ok (Response 200 (Some "4") ["abcd"; "efgh"] None).

(** A server that declares the 8 bytes it sends. *)
Definition honest : Network := fun _ =>
  Ok (Response 200 (Some "8") ["abcd"; ""; "efgh"] None).

(** A server that sends an empty resource and declares its size. *)
Definition empty_resource : Network := fun _ =>
  Ok (Response 200 (Some "0") [] None).

(** No file is an archive. *)
Definition no_archive : ZipCodec := fun _ => None.

(** Saving [blank_work_dir] in the fresh home, and loading the file
    written. *)
Definition saved_blank : result (pure_path * game) * world :=
  _write_game_file blank_work_dir fresh.

Definition reloaded_blank : result game * world :=
  _read_game_file (Pathlib.make_child GAMES_DIR "a.json") (snd saved_blank).

(** Saving [full_record] in the fresh home. *)
Definition saved_full : result (pure_path * game) * world :=
  _write_game_file full_record fresh.


(** The record loaded from [c.json] of [mixed_catalog], and what the file
    holds. *)
Definition c_fields : game :=
  <["id" := JStr "c"]> (<["work_dir" := JStr "/opt/c"]> ∅).

Definition loaded_c : game :=
  match fst (_read_game_file (Pathlib.make_child GAMES_DIR "c.json")
                             mixed_catalog) with
  | Ok g => g
  | Raise _ => ∅
  end.

(** A working directory in which [games] is a regular file. *)
Definition games_is_a_file : world :=
  World (<[home ++ ["games"] := File false "not a directory"]> fresh_fs)
        home [] [] [].

(** A catalog in which [my_game.json] and [my_game_1.json] exist. *)
Definition crowded_catalog : world :=
  World (<[home ++ ["games"; "my_game.json"] := File false "{}"]>
        (<[home ++ ["games"; "my_game_1.json"] := File false "{}"]>
        (<[home ++ ["games"] := Dir false]> fresh_fs)))
        home [] [] [].

(** A server whose [Content-Length] is no number. *)
Definition garbled_length : Network := fun _ =>
  Ok (Response 200 (Some "8 bytes") ["abcdefgh"] None).

(** Opening the destination of a download in the fresh home. *)
Definition opened : result path * world :=
  (FS.mkdir_parents (Pathlib.parent (Pathlib.parse Posix "dl/a.bin")) >>
   open_named "dl/a.bin") fresh.

(** An archive with one nested entry, extracted in the fresh home. *)
Definition nested : list zip_entry := [ZipEntry "a/b/ok.txt" (Some "hello")].


(** Quick-add of [/opt/My Game/My Game.exe] in the crowded catalog, and the
    record it appends. *)
Definition quick_added : result (option (list game)) * world :=
  quick_add_game 8 "/opt/My Game/My Game.exe" [] crowded_catalog.

Definition added_record : game :=
  match fst quick_added with
  | Ok (Some [g]) => g
  | _ => ∅
  end.

End Examples.

(** * Properties *)

(** ** Running the monad *)

Section Run.

Context {A B : Type}.

Lemma bind_ok (c : M A) (k : A -> M B) w a w' :
  c w = (Ok a, w') -> bind c k w = k a w'.
Proof. intros Hc. unfold bind. now rewrite Hc. Qed.

Lemma bind_ok_inv (c : M A) (k : A -> M B) w b w2 :
  bind c k w = (Ok b, w2) ->
  exists a w1, c w = (Ok a, w1) /\ k a w1 = (Ok b, w2).
Proof.
  unfold bind. destruct (c w) as [[a|e] w1]; intros Hk.
  - now exists a, w1.
  - discriminate.
Qed.

End Run.

(** ** LaunchDispatcher *)

Section LaunchFacts.

Context `{OSEnv}.

Lemma startswith_any_Exists s pres :
  PyStr.startswith_any s pres = true <->
  Exists (fun pre => String.prefix pre s = true) pres.
Proof.
  unfold PyStr.startswith_any, PyStr.startswith.
  rewrite existsb_exists, Exists_exists.
  split; intros (x & Hx & Hp); exists x; split; auto;
    now apply list_elem_of_In.
Qed.

Lemma kind_of_chosen_call target work_dir args :
  kind_of (chosen_call target work_dir args) = classify_spec target args.
Proof. unfold chosen_call. now destruct (classify_spec target args). Qed.

Lemma os_request_run {A} (c : os_call) (r : result A) w :
  os_request c r w
  = (r, World (w_fs w) (w_cwd w) (w_log w) (w_events w) (w_calls w ++ [c])).
Proof. unfold os_request, record_call, lift, bind. now destruct r. Qed.

(** [launch_body] makes exactly the chosen request and nothing else; it
    raises exactly when the host does. *)
Lemma launch_body_run target work_dir args w :
  exists (ok : result unit) (msg : string),
    launch_body target work_dir args w
    = (match ok with Ok _ => Ok (true, msg) | Raise e => Raise e end,
       World (w_fs w) (w_cwd w) (w_log w) (w_events w)
             (w_calls w ++ [chosen_call target work_dir args])).
Proof.
  unfold launch_body, chosen_call, classify_spec.
  destruct (PyStr.startswith_any target PROTOCOLS) eqn:Hproto.
  - rewrite bool_decide_eq_true_2
      by (now apply startswith_any_Exists).
    destruct (webbrowser_open target) as [b|e].
    + exists (Ok tt), "Opened URL/protocol".
      unfold bind. now rewrite os_request_run.
    + exists (Raise e), "".
      unfold bind. now rewrite os_request_run.
  - rewrite bool_decide_eq_false_2.
    2:{ intros Hex. apply startswith_any_Exists in Hex.
        unfold PROTOCOLS in Hproto. congruence. }
    assert (Hnt : String.eqb os_name "nt" = bool_decide (os_name = "nt")).
    { destruct (String.eqb_spec os_name "nt") as [Heq|Hne].
      - now rewrite bool_decide_eq_true_2.
      - now rewrite bool_decide_eq_false_2. }
    assert (Hargs : match args with [] => true | _ :: _ => false end
                    = bool_decide (args = [])) by now destruct args.
    rewrite Hnt, Hargs.
    destruct (bool_decide (os_name = "nt")
              && _is_windows_shortcut (host_path target)
              && bool_decide (args = [])).
    + destruct (os_startfile (Pathlib.to_str (host_path target)))
        as [u|e].
      * exists (Ok tt), "Launched via Shell".
        unfold bind. now rewrite os_request_run.
      * exists (Raise e), "".
        unfold bind. now rewrite os_request_run.
    + fold (spawn_cwd work_dir
              (Pathlib.to_str (Pathlib.parent (host_path target)))).
      destruct (subprocess_Popen (Pathlib.to_str (host_path target) :: args)
                  (spawn_cwd work_dir
                     (Pathlib.to_str (Pathlib.parent (host_path target)))))
        as [u|e].
      * exists (Ok tt), "Launched".
        unfold bind. now rewrite os_request_run.
      * exists (Raise e), "".
        unfold bind. now rewrite os_request_run.
Qed.

Lemma launch_game_calls target work_dir args w :
  w_calls (snd (launch_game target work_dir args w))
  = w_calls w ++ [chosen_call target work_dir (default [] args)].
Proof.
  unfold launch_game, try_except.
  destruct (launch_body_run target work_dir (default [] args) w)
    as (ok & msg & ->).
  now destruct ok.
Qed.

End LaunchFacts.

Section LaunchClaims.

Context `{OSEnv}.

Lemma host_flavour_nt : os_name = "nt" -> host_flavour = Windows.
Proof. unfold host_flavour. now intros ->. Qed.


Lemma classify_protocol target args :
  classify_spec target args = Protocol <->
  String.prefix "http://" target = true
  \/ String.prefix "https://" target = true
  \/ String.prefix "steam://" target = true
  \/ String.prefix "epic://" target = true.
Proof.
  unfold classify_spec. case_bool_decide as Hex.
  - split; [intros _|easy].
    rewrite !Exists_cons, Exists_nil in Hex. tauto.
  - split.
    + destruct (_ && _ && _); discriminate.
    + intros Hp. exfalso. apply Hex.
      rewrite !Exists_cons, Exists_nil. tauto.
Qed.

Lemma chosen_call_protocol target work_dir args :
  chosen_call target work_dir args = WebOpen target <->
  classify_spec target args = Protocol.
Proof.
  unfold chosen_call. destruct (classify_spec target args); easy.
Qed.




(** C10.  [launch_game] takes the URL/protocol path exactly when the
    target starts with [http://], [https://], [steam://] or [epic://].
    Any other target, such as [battlenet://x], is asked of the host as a
    shortcut or as an executable; [battlenet://x] itself is spawned. *)
Theorem protocol_path_iff_known_prefix
        (target : string) (work_dir : option string)
        (args : option (list string)) (w : world) :
  (w_calls (snd (launch_game target work_dir args w))
   = w_calls w ++ [WebOpen target]
   <-> (String.prefix "http://" target = true
        \/ String.prefix "https://" target = true
        \/ String.prefix "steam://" target = true
        \/ String.prefix "epic://" target = true))
  /\ (exists c : os_call,
         w_calls (snd (launch_game target work_dir args w)) = w_calls w ++ [c]
         /\ (kind_of c = Protocol
             <-> (String.prefix "http://" target = true
                  \/ String.prefix "https://" target = true
                  \/ String.prefix "steam://" target = true
                  \/ String.prefix "epic://" target = true)))
  /\ (exists cmd cwd,
         w_calls (snd (launch_game "battlenet://x" work_dir args w))
         = w_calls w ++ [Popen cmd cwd]).
Proof.
  split; [split|split].
  - rewrite launch_game_calls. intros Heq.
    apply app_inv_head in Heq. injection Heq as Heq.
    now apply chosen_call_protocol, classify_protocol in Heq.
  - intros Hp. rewrite launch_game_calls.
    replace (chosen_call target work_dir (default [] args))
      with (WebOpen target); [reflexivity|].
    symmetry. now apply chosen_call_protocol, classify_protocol.
  - exists (chosen_call target work_dir (default [] args)).
    split; [apply launch_game_calls|].
    rewrite kind_of_chosen_call. apply classify_protocol.
  - rewrite launch_game_calls. unfold chosen_call.
    assert (Hk : classify_spec "battlenet://x" (default [] args) = DirectExec).
    { unfold classify_spec. rewrite bool_decide_eq_false_2.
      - unfold host_path.
        destruct (decide (os_name = "nt")) as [Hnt|Hnt].
        + rewrite (host_flavour_nt Hnt).
          change (_is_windows_shortcut (Pathlib.parse Windows "battlenet://x"))
            with false.
          now rewrite andb_false_r.
        + now rewrite (bool_decide_eq_false_2 _ Hnt).
      - rewrite !Exists_cons, Exists_nil. cbn. intuition discriminate. }
    rewrite Hk. eauto.
Qed.

End LaunchClaims.

(** The dispatcher on the example hosts. *)
Example launch_shortcut_on_windows :
  launch_game (H := Examples.windows_host) "C:/Games/Doom/Doom.LNK" None None
              Examples.fresh
  = (Ok (true, "Launched via Shell"),
     World Examples.fresh_fs Examples.home [] []
           [StartFile "C:\Games\Doom\Doom.LNK"]).
Proof. vm_compute. reflexivity. Qed.

Example launch_shortcut_with_args_on_windows :
  launch_game (H := Examples.windows_host) "C:/Games/Doom/Doom.LNK" None
              (Some ["-v"]) Examples.fresh
  = (Ok (true, "Launched"),
     World Examples.fresh_fs Examples.home [] []
           [Popen ["C:\Games\Doom\Doom.LNK"; "-v"] "C:\Games\Doom"]).
Proof. vm_compute. reflexivity. Qed.

Example launch_missing_executable_on_windows :
  launch_game (H := Examples.windows_host) "missing.exe" (Some "C:\Games")
              (Some ["--fast"]) Examples.fresh
  = (Ok (false, "[WinError 2] The system cannot find the file specified"),
     World Examples.fresh_fs Examples.home [] []
           [Popen ["missing.exe"; "--fast"] "C:\Games"]).
Proof. vm_compute. reflexivity. Qed.

Example launch_shortcut_on_posix :
  launch_game (H := Examples.posix_host) "games/doom.lnk" None None
              Examples.fresh
  = (Ok (true, "Launched"),
     World Examples.fresh_fs Examples.home [] []
           [Popen ["games/doom.lnk"] "games"]).
Proof. vm_compute. reflexivity. Qed.

Example launch_unknown_scheme_on_posix :
  launch_game (H := Examples.posix_host) "battlenet://x" None None
              Examples.fresh
  = (Ok (true, "Launched"),
     World Examples.fresh_fs Examples.home [] []
           [Popen ["battlenet:/x"] "battlenet:"]).
Proof. vm_compute. reflexivity. Qed.

(** ** Frame rules *)

Section Frames.

Context (R : world -> world -> Prop) `{!PreOrder R}.

Lemma keeps_ret {A} (a : A) : keeps R (ret a).
Proof. intros w. reflexivity. Qed.

Lemma keeps_raise {A} e : keeps R (@raise A e).
Proof. intros w. reflexivity. Qed.

Lemma keeps_get_fs : keeps R get_fs.
Proof. intros w. reflexivity. Qed.

Lemma keeps_get_cwd : keeps R get_cwd.
Proof. intros w. reflexivity. Qed.

Lemma keeps_guard b e : keeps R (guard b e).
Proof. intros w. unfold guard. destruct b; reflexivity. Qed.

Lemma keeps_bind {A B} (c : M A) (k : A -> M B) :
  keeps R c -> (forall a, keeps R (k a)) -> keeps R (bind c k).
Proof.
  intros Hc Hk w. unfold bind. specialize (Hc w).
  destruct (c w) as [[a|e] w1]; cbn in *; [|exact Hc].
  etransitivity; [exact Hc|apply Hk].
Qed.

Lemma keeps_try {A} (c : M A) (h : exn -> M A) :
  keeps R c -> (forall e, keeps R (h e)) -> keeps R (try_except c h).
Proof.
  intros Hc Hh w. unfold try_except. specialize (Hc w).
  destruct (c w) as [[a|e] w1]; cbn in *; [exact Hc|].
  etransitivity; [exact Hc|apply Hh].
Qed.

Lemma keeps_locate p : keeps R (FS.locate p).
Proof. intros w. reflexivity. Qed.

Lemma keeps_stat p : keeps R (FS.stat p).
Proof.
  unfold FS.stat. apply keeps_bind; [apply keeps_locate|intros q].
  apply keeps_bind; [apply keeps_get_fs|intros m].
  destruct (m !! q); [apply keeps_ret|apply keeps_raise].
Qed.

Lemma keeps_exists p : keeps R (FS.exists_ p).
Proof.
  unfold FS.exists_. apply keeps_try;
    [|intros e; destruct (FS.ignore_error e); [apply keeps_ret|apply keeps_raise]].
  apply keeps_bind; [apply keeps_stat|intros nd; apply keeps_ret].
Qed.

Lemma keeps_is_dir p : keeps R (FS.is_dir p).
Proof.
  unfold FS.is_dir. apply keeps_try;
    [|intros e; destruct (FS.ignore_error e); [apply keeps_ret|apply keeps_raise]].
  apply keeps_bind; [apply keeps_stat|intros nd; apply keeps_ret].
Qed.

Lemma keeps_read_file p : keeps R (FS.read_file p).
Proof.
  unfold FS.read_file. apply keeps_bind; [apply keeps_stat|intros nd].
  destruct nd; [apply keeps_ret|apply keeps_raise].
Qed.

(** Creating directories: for every [R] that new directories do not
    disturb. *)
Hypothesis R_dir : forall w q, R w (with_fs w (<[q := Dir false]> (w_fs w))).

Lemma keeps_os_mkdir p : keeps R (FS.os_mkdir p).
Proof.
  unfold FS.os_mkdir. apply keeps_bind; [apply keeps_locate|intros q].
  intros w. unfold bind, get_fs, FS.create.
  destruct (w_fs w !! q); [reflexivity|]. unfold bind, get_fs.
  destruct (w_fs w !! removelast q) as [[ro d|ro]|]; try reflexivity.
  destruct ro; [reflexivity|apply R_dir].
Qed.

Lemma keeps_mkdir exist_ok p : keeps R (FS.mkdir exist_ok p).
Proof.
  unfold FS.mkdir. apply keeps_try; [apply keeps_os_mkdir|intros e].
  destruct (exn_cls e); try apply keeps_raise;
    (apply keeps_bind; [apply keeps_is_dir|intros d];
     destruct (negb exist_ok || negb d); [apply keeps_raise|apply keeps_ret]).
Qed.

Lemma keeps_mkdir_rec fl drv root rtail :
  keeps R (FS.mkdir_rec fl drv root rtail).
Proof.
  induction rtail as [|c rparent IH]; cbn [FS.mkdir_rec];
    (apply keeps_try; [apply keeps_os_mkdir|intros e]);
    destruct (exn_cls e); try apply keeps_raise;
    try (apply keeps_bind; [apply keeps_is_dir|intros d];
         destruct (negb d); [apply keeps_raise|apply keeps_ret]).
  apply keeps_bind; [exact IH|intros _; apply keeps_mkdir].
Qed.

Lemma keeps_mkdir_parents p : keeps R (FS.mkdir_parents p).
Proof. apply keeps_mkdir_rec. Qed.

(** Changing the file system in any way: for every [R] that ignores it. *)
Hypothesis R_fs : forall w m, R w (with_fs w m).

Lemma keeps_put_fs m : keeps R (put_fs m).
Proof. intros w. apply R_fs. Qed.

Lemma keeps_create p q nd : keeps R (FS.create p q nd).
Proof.
  unfold FS.create. apply keeps_bind; [apply keeps_get_fs|intros m].
  destruct (m !! removelast q) as [[ro d|ro]|];
    [apply keeps_raise| |apply keeps_raise].
  destruct ro; [apply keeps_raise|apply keeps_put_fs].
Qed.

Lemma keeps_open_wb p : keeps R (FS.open_wb p).
Proof.
  unfold FS.open_wb. apply keeps_bind; [apply keeps_locate|intros q].
  apply keeps_bind; [apply keeps_get_fs|intros m].
  destruct (m !! q) as [[ro d|ro]|].
  - destruct ro; [apply keeps_raise|].
    apply keeps_bind; [apply keeps_put_fs|intros _; apply keeps_ret].
  - apply keeps_raise.
  - apply keeps_bind; [apply keeps_create|intros _; apply keeps_ret].
Qed.

Lemma keeps_write h data : keeps R (FS.write h data).
Proof.
  unfold FS.write. apply keeps_bind; [apply keeps_get_fs|intros m].
  destruct (m !! h) as [[ro d|ro]|];
    [apply keeps_put_fs|apply keeps_ret|apply keeps_ret].
Qed.

Lemma keeps_write_file p data : keeps R (FS.write_file p data).
Proof.
  unfold FS.write_file.
  apply keeps_bind; [apply keeps_open_wb|intros h; apply keeps_write].
Qed.

End Frames.

#[local] Instance same_events_preorder : PreOrder same_events.
Proof.
  split; [now intros w|]. intros w1 w2 w3 H12 H23.
  unfold same_events in *. congruence.
Qed.

#[local] Instance same_progress_preorder : PreOrder same_progress.
Proof.
  split; [now intros w|]. intros w1 w2 w3 H12 H23.
  unfold same_progress in *. congruence.
Qed.

#[local] Instance same_but_fs_preorder : PreOrder same_but_fs.
Proof.
  split; [now intros w|]. intros w1 w2 w3 H12 H23.
  unfold same_but_fs in *. intuition congruence.
Qed.

#[local] Instance same_but_log_preorder : PreOrder same_but_log.
Proof.
  split; [now intros w|]. intros w1 w2 w3 H12 H23.
  unfold same_but_log in *. intuition congruence.
Qed.

Lemma pure_run {A} (c : M A) w : pure c -> c w = (fst (c w), w).
Proof. intros Hc. specialize (Hc w). destruct (c w); cbn in *. congruence. Qed.

(** ** File-system facts *)

Lemma step_name cur c : c <> ".." -> FS.step cur c = cur ++ [c].
Proof.
  intros Hc. unfold FS.step. now destruct (String.eqb_spec c "..").
Qed.

Lemma locate_run p w :
  FS.locate p w = (FS.walk (w_fs w) p (FS.start (w_cwd w) p) (pp_tail p), w).
Proof. reflexivity. Qed.

(** [stat] fails only for an entry that is not there. *)
Lemma walk_raises m p comps : forall cur e,
  FS.walk m p cur comps = Raise e -> FS.ignore_error e = true.
Proof.
  induction comps as [|c rest IH]; intros cur e; cbn [FS.walk];
    [discriminate|].
  destruct rest as [|c' rest']; [discriminate|].
  destruct (m !! FS.step cur c) as [[ro d|ro]|].
  - now intros [= <-].
  - apply IH.
  - now intros [= <-].
Qed.

Lemma stat_raises p w e w' :
  FS.stat p w = (Raise e, w') -> FS.ignore_error e = true /\ w' = w.
Proof.
  unfold FS.stat, bind, get_fs. rewrite locate_run.
  destruct (FS.walk _ _ _ _) as [q|e0] eqn:Hwalk.
  - destruct (w_fs w !! q); [discriminate|]. now intros [= <- <-].
  - intros [= <- <-]. split; [|reflexivity]. exact (walk_raises _ _ _ _ _ Hwalk).
Qed.

(** So, in this file system, [exists] always answers. *)
Lemma exists_run p w : exists b, FS.exists_ p w = (Ok b, w).
Proof.
  unfold FS.exists_, try_except, bind.
  destruct (FS.stat p w) as [[nd|e] w1] eqn:Hstat.
  - pose proof (keeps_stat eq p w) as Hpure. rewrite Hstat in Hpure.
    cbn in Hpure. subst w1. now exists true.
  - apply stat_raises in Hstat as [-> ->]. now exists false.
Qed.

(** Writing a regular file where no directory was does not change where
    paths lead. *)
Lemma walk_insert_file m p q ro d comps : forall cur r,
  (forall ro', m !! q <> Some (Dir ro')) ->
  FS.walk m p cur comps = Ok r ->
  FS.walk (<[q := File ro d]> m) p cur comps = Ok r.
Proof.
  induction comps as [|c rest IH]; intros cur r Hq Hwalk; [exact Hwalk|].
  cbn [FS.walk] in *. destruct rest as [|c' rest']; [exact Hwalk|].
  destruct (m !! FS.step cur c) as [[ro' d'|ro']|] eqn:Hstep;
    try discriminate.
  assert (Hne : q <> FS.step cur c) by (intros ->; now apply (Hq ro')).
  rewrite lookup_insert_ne, Hstep by exact Hne.
  now apply IH.
Qed.

Lemma stat_run p w q :
  FS.walk (w_fs w) p (FS.start (w_cwd w) p) (pp_tail p) = Ok q ->
  FS.stat p w
  = (match w_fs w !! q with
     | Some nd => Ok nd
     | None => Raise (FS.os_error FileNotFoundError p)
     end, w).
Proof.
  intros Hwalk. unfold FS.stat, bind, get_fs. rewrite locate_run, Hwalk.
  now destruct (w_fs w !! q).
Qed.

Lemma is_dir_existing p w q ro :
  FS.walk (w_fs w) p (FS.start (w_cwd w) p) (pp_tail p) = Ok q ->
  w_fs w !! q = Some (Dir ro) ->
  FS.is_dir p w = (Ok true, w).
Proof.
  intros Hwalk Hq. unfold FS.is_dir, try_except, bind.
  now rewrite (stat_run _ _ _ Hwalk), Hq.
Qed.

Lemma os_mkdir_existing p w q nd :
  FS.walk (w_fs w) p (FS.start (w_cwd w) p) (pp_tail p) = Ok q ->
  w_fs w !! q = Some nd ->
  FS.os_mkdir p w = (Raise (FS.os_error FileExistsError p), w).
Proof.
  intros Hwalk Hq. unfold FS.os_mkdir, bind, get_fs.
  now rewrite locate_run, Hwalk, Hq.
Qed.

(** [mkdir(exist_ok=True)] of a directory that is there changes nothing. *)
Lemma mkdir_existing p w q ro :
  FS.walk (w_fs w) p (FS.start (w_cwd w) p) (pp_tail p) = Ok q ->
  w_fs w !! q = Some (Dir ro) ->
  FS.mkdir true p w = (Ok tt, w).
Proof.
  intros Hwalk Hq. unfold FS.mkdir, try_except.
  rewrite (os_mkdir_existing _ _ _ _ Hwalk Hq). cbn.
  unfold bind. now rewrite (is_dir_existing _ _ _ _ Hwalk Hq).
Qed.

Lemma mkdir_rec_existing fl drv root rtail w q ro :
  let p := PurePath fl drv root (rev rtail) in
  FS.walk (w_fs w) p (FS.start (w_cwd w) p) (pp_tail p) = Ok q ->
  w_fs w !! q = Some (Dir ro) ->
  FS.mkdir_rec fl drv root rtail w = (Ok tt, w).
Proof.
  intros p Hwalk Hq.
  destruct rtail as [|c rparent]; cbn [FS.mkdir_rec]; fold p;
    unfold try_except;
    rewrite (os_mkdir_existing _ _ _ _ Hwalk Hq); cbn;
    unfold bind; now rewrite (is_dir_existing _ _ _ _ Hwalk Hq).
Qed.

Lemma mkdir_parents_existing p w q ro :
  FS.walk (w_fs w) p (FS.start (w_cwd w) p) (pp_tail p) = Ok q ->
  w_fs w !! q = Some (Dir ro) ->
  FS.mkdir_parents p w = (Ok tt, w).
Proof.
  intros Hwalk Hq. unfold FS.mkdir_parents.
  apply (mkdir_rec_existing _ _ _ _ _ q ro); [|exact Hq].
  cbn. rewrite rev_involutive. now destruct p.
Qed.

(** What a successful [open(p, "wb")] did. *)
Lemma open_wb_ok p w q w' :
  FS.open_wb p w = (Ok q, w') ->
  FS.walk (w_fs w) p (FS.start (w_cwd w) p) (pp_tail p) = Ok q
  /\ (forall ro, w_fs w !! q <> Some (Dir ro))
  /\ w' = with_fs w (<[q := File false ""]> (w_fs w)).
Proof.
  unfold FS.open_wb, bind, get_fs. rewrite locate_run.
  destruct (FS.walk _ _ _ _) as [q0|e]; [|discriminate].
  destruct (w_fs w !! q0) as [[ro d|ro]|] eqn:Hq0.
  - destruct ro; [discriminate|]. cbn. intros [= <- <-].
    repeat split; congruence.
  - discriminate.
  - unfold FS.create, bind, get_fs.
    destruct (w_fs w !! removelast q0) as [[ro d|ro]|]; try discriminate.
    destruct ro; [discriminate|]. cbn. intros [= <- <-].
    repeat split; congruence.
Qed.

Lemma write_file_ok p data w u w' :
  FS.write_file p data w = (Ok u, w') ->
  exists q,
    FS.walk (w_fs w) p (FS.start (w_cwd w) p) (pp_tail p) = Ok q
    /\ (forall ro, w_fs w !! q <> Some (Dir ro))
    /\ w' = with_fs w (<[q := File false data]> (w_fs w)).
Proof.
  unfold FS.write_file. intros Hrun.
  apply bind_ok_inv in Hrun as (q & w1 & Hopen & Hwrite).
  apply open_wb_ok in Hopen as (Hwalk & Hnodir & ->).
  exists q. split; [exact Hwalk|]. split; [exact Hnodir|].
  unfold FS.write, bind, get_fs, put_fs in Hwrite. cbn in Hwrite.
  rewrite lookup_insert_eq in Hwrite. injection Hwrite as _ <-.
  unfold with_fs. cbn. now rewrite insert_insert_eq.
Qed.

(** A file that was written reads back as it was written. *)
Lemma read_after_write p data w u w' :
  FS.write_file p data w = (Ok u, w') ->
  FS.read_file p w' = (Ok data, w').
Proof.
  intros Hrun. apply write_file_ok in Hrun as (q & Hwalk & Hnodir & ->).
  unfold FS.read_file, bind.
  rewrite (stat_run _ _ q).
  - cbn. now rewrite lookup_insert_eq.
  - cbn. now apply walk_insert_file.
Qed.

(** When writing a file succeeds. *)
Lemma write_file_run p data w q :
  FS.walk (w_fs w) p (FS.start (w_cwd w) p) (pp_tail p) = Ok q ->
  (w_fs w !! q = None /\ w_fs w !! removelast q = Some (Dir false))
  \/ (exists old, w_fs w !! q = Some (File false old)) ->
  FS.write_file p data w
  = (Ok tt, with_fs w (<[q := File false data]> (w_fs w))).
Proof.
  intros Hwalk Hcase.
  unfold FS.write_file, FS.open_wb, FS.create, FS.write, bind, get_fs, put_fs, ret.
  rewrite locate_run, Hwalk.
  destruct Hcase as [[Hnone Hparent]|[old Hold]].
  - rewrite Hnone. cbn. rewrite Hparent. cbn.
    rewrite lookup_insert_eq. unfold with_fs. now rewrite insert_insert_eq.
  - rewrite Hold. cbn.
    rewrite lookup_insert_eq. unfold with_fs. now rewrite insert_insert_eq.
Qed.

(** ** CatalogStore: saving *)

Section CatalogSave.

Context `{JsonCodec} `{PyRepr}.

Lemma derive_gid_run g w : derive_gid g w = (fst (derive_gid g w), w).
Proof.
  unfold derive_gid.
  now destruct (if has_truthy "id" g then _ else _).
Qed.

Lemma target_path_run g gid w :
  target_path g gid w = (fst (target_path g gid w), w).
Proof.
  unfold target_path. destruct (has_truthy "meta_path" g); [|reflexivity].
  now destruct (dict_get "meta_path" g).
Qed.

(** What a successful save did: the file holds the whole serialisation of
    the record without its [meta_path], and only the file system changed. *)
Lemma write_game_file_ok g w p g' w' :
  _write_game_file g w = (Ok (p, g'), w') ->
  g' = <["meta_path" := JStr (Pathlib.to_str p)]> g
  /\ FS.read_file p w' = (Ok (dumps (JObj (to_save g))), w')
  /\ w_cwd w' = w_cwd w /\ w_log w' = w_log w.
Proof.
  unfold _write_game_file. intros Hrun.
  apply bind_ok_inv in Hrun as (gid & w1 & Hgid & Hrun).
  rewrite derive_gid_run in Hgid. injection Hgid as _ <-.
  apply bind_ok_inv in Hrun as (p0 & w2 & Hp & Hrun).
  rewrite target_path_run in Hp. injection Hp as _ <-.
  apply bind_ok_inv in Hrun as (u1 & w3 & Hmk & Hrun).
  apply bind_ok_inv in Hrun as (u2 & w4 & Hwr & Hrun).
  injection Hrun as <- <- <-.
  split; [reflexivity|]. split; [exact (read_after_write _ _ _ _ _ Hwr)|].
  apply write_file_ok in Hwr as (q & _ & _ & ->). cbn.
  pose proof (keeps_mkdir_parents same_but_fs ltac:(easy)
                (Pathlib.parent p0) w) as Hk.
  rewrite Hmk in Hk. destruct Hk as (Hcwd & Hlog & _). now split.
Qed.

(** The body of [save_games] for one record. *)
Lemma save_games_one g w :
  save_games [g] w
  = match _write_game_file g w with
    | (Ok written, w') => (Ok [snd written], w')
    | (Raise e, w') =>
        (Ok [g],
         with_log w' ERROR
           ("Save failed for "
            +:+ py_str (default (JStr "(no id)") (g !! "id"))
            +:+ ": " +:+ exn_msg e))
    end.
Proof.
  cbn [save_games]. unfold bind, try_except, ret, logging, with_log.
  now destruct (_write_game_file g w) as [[written|e] w'].
Qed.

Lemma save_games_total games : forall w,
  exists out w', save_games games w = (Ok out, w')
                 /\ length out = length games.
Proof.
  induction games as [|g rest IH]; intros w.
  - now exists [], w.
  - cbn [save_games]. unfold bind, try_except, ret, logging.
    destruct (_write_game_file g w) as [[written|e] w1].
    + destruct (IH w1) as (out & w2 & Hrest & Hlen).
      exists (snd written :: out), w2. rewrite Hrest.
      cbn. now rewrite Hlen.
    + destruct (IH (with_log w1 ERROR
                      ("Save failed for "
                       +:+ py_str (default (JStr "(no id)") (g !! "id"))
                       +:+ ": " +:+ exn_msg e)))
        as (out & w2 & Hrest & Hlen).
      exists (g :: out), w2. unfold with_log in Hrest. rewrite Hrest.
      cbn. now rewrite Hlen.
Qed.

(** C2, as amended.  [_write_game_file] either leaves the file holding the
    whole serialisation of the record and returns, or raises to its caller.
    [save_games] does not pass that exception on.  It saves the first
    record; when that save raises it logs the error and keeps the record
    as it was; either way it goes on with the records after it, in the
    world the first one left.  So every record is handled in turn, each
    failure is logged, and [save_games] always returns a list of the same
    length. *)
Theorem save_raises_or_is_logged (g : game) (games : list game) (w : world) :
  match _write_game_file g w with
  | (Ok (p, g'), w') =>
      FS.read_file p w' = (Ok (dumps (JObj (to_save g))), w')
      /\ exists (out : list game) (w'' : world),
          save_games games w' = (Ok out, w'')
          /\ length out = length games
          /\ save_games (g :: games) w = (Ok (g' :: out), w'')
  | (Raise e, w') =>
      exists (out : list game) (w'' : world),
        save_games games
          (with_log w' ERROR
             ("Save failed for "
              +:+ py_str (default (JStr "(no id)") (g !! "id"))
              +:+ ": " +:+ exn_msg e))
        = (Ok out, w'')
        /\ length out = length games
        /\ save_games (g :: games) w = (Ok (g :: out), w'')
  end.
Proof.
  assert (Hstep : save_games (g :: games) w
                  = (let* g' :=
                       try_except (let* written := _write_game_file g in
                                   ret (snd written))
                         (fun e =>
                            logging ERROR
                              ("Save failed for "
                               +:+ py_str (default (JStr "(no id)") (g !! "id"))
                               +:+ ": " +:+ exn_msg e) >>
                            ret g) in
                     let* rest' := save_games games in
                     ret (g' :: rest')) w) by reflexivity.
  destruct (_write_game_file g w) as [[[p g']|e] w'] eqn:Hrun.
  - split; [now apply write_game_file_ok in Hrun as (_ & Hread & _)|].
    destruct (save_games_total games w') as (out & w'' & Hrest & Hlen).
    exists out, w''. split; [exact Hrest|]. split; [exact Hlen|].
    rewrite Hstep. unfold bind, try_except, ret. rewrite Hrun. cbn [snd].
    now rewrite Hrest.
  - destruct (save_games_total games
                (with_log w' ERROR
                   ("Save failed for "
                    +:+ py_str (default (JStr "(no id)") (g !! "id"))
                    +:+ ": " +:+ exn_msg e)))
      as (out & w'' & Hrest & Hlen).
    exists out, w''. split; [exact Hrest|]. split; [exact Hlen|].
    rewrite Hstep. unfold bind, try_except, ret, logging. rewrite Hrun.
    unfold with_log in Hrest. now rewrite Hrest.
Qed.

End CatalogSave.

(** ** CatalogStore: loading *)

Section CatalogLoad.

Context `{JsonCodec} `{PyRepr}.

Lemma read_json_run p w :
  read_json p w
  = (match fst (FS.read_file p w) with
     | Ok bytes =>
         match loads bytes with
         | Some v => Ok v
         | None => Raise (Exn JSONDecodeError "invalid JSON")
         end
     | Raise e => Raise e
     end, w).
Proof.
  unfold read_json, bind.
  rewrite (pure_run (FS.read_file p) w) by (apply keeps_read_file; apply _).
  destruct (fst (FS.read_file p w)) as [bytes|e]; [|reflexivity].
  cbn [fst]. now destruct (loads bytes).
Qed.

Lemma default_work_dir_run d w :
  default_work_dir d w
  = (if has_truthy "game_path" d then
       match dict_get "game_path" d with
       | JStr s =>
           Ok (Pathlib.to_str
                 (if fst (FS.exists_ (Pathlib.parse Posix s) w)
                       is Ok true
                  then Pathlib.parent (Pathlib.parse Posix s)
                  else Pathlib.of_cwd (w_cwd w)))
       | _ => Raise (Exn TypeError "expected str, bytes or os.PathLike object")
       end
     else Ok (Pathlib.to_str (Pathlib.of_cwd (w_cwd w))), w).
Proof.
  unfold default_work_dir, bind, get_cwd.
  destruct (has_truthy "game_path" d); [|reflexivity].
  destruct (dict_get "game_path" d) as [| | |s| |]; try reflexivity.
  rewrite (pure_run (FS.exists_ (Pathlib.parse Posix s)) w)
    by (apply keeps_exists; apply _).
  assert (Hex : exists b, fst (FS.exists_ (Pathlib.parse Posix s) w) = Ok b).
  { destruct (exists_run (Pathlib.parse Posix s) w) as [b ->]. now exists b. }
  destruct Hex as [b ->]. cbn [fst]. now destruct b.
Qed.

(** The record with the keys [_read_game_file] adds when they are missing. *)
Lemma completed_lookup (d : game) (stem : string) (k : string) :
  k <> "id" -> k <> "name" ->
  let d1 := match d !! "id" with
            | Some _ => d
            | None => <["id" := JStr stem]> d
            end in
  let d2 := match d1 !! "name" with
            | Some _ => d1
            | None => <["name" := dict_get "id" d1]> d1
            end in
  d2 !! k = d !! k.
Proof.
  intros Hid Hname d1 d2. subst d2.
  assert (H1 : d1 !! k = d !! k).
  { subst d1. destruct (d !! "id"); [reflexivity|].
    now rewrite lookup_insert_ne. }
  destruct (d1 !! "name"); [exact H1|].
  now rewrite lookup_insert_ne.
Qed.

(** In this file system the [exists] test of the loader always returns:
    [stat] fails only for an entry that is not there. *)
Lemma exists_returns_true m cwd p : exists_returns m cwd p = true.
Proof.
  unfold exists_returns.
  now destruct (exists_run p (World m cwd [] [] [])) as [b ->].
Qed.

Lemma exists_returns_run p w :
  exists_returns (w_fs w) (w_cwd w) p
  = match fst (FS.exists_ p w) with Ok _ => true | Raise _ => false end.
Proof.
  rewrite exists_returns_true. now destruct (exists_run p w) as [b ->].
Qed.

Lemma valid_record_anywhere m cwd m' cwd' bytes :
  valid_record m cwd bytes = valid_record m' cwd' bytes.
Proof.
  unfold valid_record. destruct (loads bytes) as [[| | | | |d]|]; try reflexivity.
  destruct (dict_get "game_path" d); try reflexivity.
  now rewrite !exists_returns_true.
Qed.

(** What [_read_game_file] does with the bytes of a file: a valid record is
    completed and returned, anything else is logged and gives [{}]. *)
Lemma read_game_file_run p w :
  exists (g : game) (msg : string),
    _read_game_file p w
    = match fst (FS.read_file p w) with
      | Ok bytes =>
          if valid_record (w_fs w) (w_cwd w) bytes then (Ok g, w)
          else (Ok ∅, with_log w WARNING msg)
      | Raise _ => (Ok ∅, with_log w WARNING msg)
      end
    /\ g !! "meta_path" = Some (JStr (Pathlib.to_str p)).
Proof.
  unfold _read_game_file, try_except, read_game_body, bind at 1.
  rewrite read_json_run. unfold valid_record.
  destruct (fst (FS.read_file p w)) as [bytes|e].
  2:{ exists (<["meta_path" := JStr (Pathlib.to_str p)]> ∅). eexists.
      split; [reflexivity|apply lookup_insert_eq]. }
  destruct (loads bytes) as [[| | | | |d]|];
    try (exists (<["meta_path" := JStr (Pathlib.to_str p)]> ∅); eexists;
         split; [reflexivity|apply lookup_insert_eq]).
  pose proof (completed_lookup d (Pathlib.stem p)) as Hk. cbv zeta in Hk.
  set (d1 := match d !! "id" with
             | Some _ => d
             | None => <["id" := JStr (Pathlib.stem p)]> d
             end) in *.
  set (d2 := match d1 !! "name" with
             | Some _ => d1
             | None => <["name" := dict_get "id" d1]> d1
             end) in *.
  assert (Hwd : has_truthy "work_dir" d2 = has_truthy "work_dir" d)
    by (unfold has_truthy, dict_get; now rewrite Hk).
  assert (Hgp : dict_get "game_path" d2 = dict_get "game_path" d)
    by (unfold dict_get; now rewrite Hk).
  assert (Hgpt : has_truthy "game_path" d2 = has_truthy "game_path" d)
    by (unfold has_truthy; now rewrite Hgp).
  rewrite Hwd. destruct (has_truthy "work_dir" d).
  - exists (<["meta_path" := JStr (Pathlib.to_str p)]> d2), "".
    split; [reflexivity|apply lookup_insert_eq].
  - cbn [negb orb]. unfold bind. rewrite default_work_dir_run, Hgpt, Hgp.
    destruct (has_truthy "game_path" d).
    + destruct (dict_get "game_path" d) as [| | |s| |] eqn:Hs; cbn [negb orb];
        try (exists (<["meta_path" := JStr (Pathlib.to_str p)]> ∅); eexists;
             split; [reflexivity|apply lookup_insert_eq]).
      rewrite exists_returns_true.
      eexists. exists "". split; [reflexivity|apply lookup_insert_eq].
    + eexists. exists "". split; [reflexivity|apply lookup_insert_eq].
Qed.

(** Reading back what [_write_game_file] wrote, for a record that has an
    [id], a [name] and a truthy [work_dir]. *)
Lemma read_game_file_saved g p w :
  FS.read_file p w = (Ok (dumps (JObj (to_save g))), w) ->
  loads (dumps (JObj (to_save g))) = Some (JObj (to_save g)) ->
  is_Some (g !! "id") -> is_Some (g !! "name") ->
  has_truthy "work_dir" g = true ->
  _read_game_file p w
  = (Ok (<["meta_path" := JStr (Pathlib.to_str p)]> (to_save g)), w).
Proof.
  intros Hread Hloads [vid Hid] [vname Hname] Hwd.
  unfold _read_game_file, try_except, read_game_body, bind at 1.
  rewrite read_json_run, Hread. cbn [fst]. rewrite Hloads.
  unfold to_save.
  rewrite (lookup_delete_ne g "meta_path" "id") by discriminate.
  rewrite Hid.
  rewrite (lookup_delete_ne g "meta_path" "name") by discriminate.
  rewrite Hname.
  assert (Hwd' : has_truthy "work_dir" (delete "meta_path" g) = true).
  { unfold has_truthy, dict_get in *.
    now rewrite lookup_delete_ne by discriminate. }
  rewrite Hwd'. reflexivity.
Qed.

(** C3, as amended.  For a record that has an [id], a [name] and a
    non-empty [work_dir], and whose persisted fields the JSON library
    reads back as it wrote them: when [_write_game_file] has saved it,
    [_read_game_file] on the file written returns a record that agrees
    with the saved one on every field other than [meta_path], and whose
    [meta_path] is the file's path. *)
Theorem save_load_roundtrip
        (g g' : game) (p : pure_path) (w w' : world)
        (Hcodec : loads (dumps (JObj (to_save g))) = Some (JObj (to_save g)))
        (Hid : is_Some (g !! "id"))
        (Hname : is_Some (g !! "name"))
        (Hwork_dir : has_truthy "work_dir" g = true)
        (Hsaved : _write_game_file g w = (Ok (p, g'), w')) :
  exists loaded : game,
    _read_game_file p w' = (Ok loaded, w')
    /\ (forall k, k <> "meta_path" -> loaded !! k = g !! k)
    /\ loaded !! "meta_path" = Some (JStr (Pathlib.to_str p)).
Proof.
  apply write_game_file_ok in Hsaved as (_ & Hread & _).
  exists (<["meta_path" := JStr (Pathlib.to_str p)]> (to_save g)).
  split; [now apply read_game_file_saved|].
  split; [|apply lookup_insert_eq].
  intros k Hk. unfold to_save.
  rewrite lookup_insert_ne by congruence.
  now rewrite lookup_delete_ne by congruence.
Qed.

End CatalogLoad.

(** ** CatalogStore: the catalog directory *)

Section CatalogDirectory.

Context `{JsonCodec} `{PyRepr}.

Lemma GAMES_DIR_parts : GAMES_DIR = PurePath Posix "" "" ["games"].
Proof. reflexivity. Qed.

Lemma games_dir_walk m cwd :
  FS.walk m GAMES_DIR (FS.start cwd GAMES_DIR) (pp_tail GAMES_DIR)
  = Ok (games_loc cwd).
Proof. reflexivity. Qed.

Lemma entry_walk m cwd ro nm :
  nm <> ".." ->
  m !! games_loc cwd = Some (Dir ro) ->
  let p := Pathlib.make_child GAMES_DIR nm in
  FS.walk m p (FS.start cwd p) (pp_tail p) = Ok (games_loc cwd ++ [nm]).
Proof.
  intros Hnm Hdir p. subst p. rewrite GAMES_DIR_parts.
  cbn [Pathlib.make_child pp_tail pp_flavour pp_drive pp_root app FS.walk].
  change (FS.start cwd _) with cwd.
  change (FS.step cwd "games") with (games_loc cwd).
  rewrite Hdir. now rewrite step_name.
Qed.

Lemma json_name_not_dotdot nm : PyStr.endswith nm ".json" = true -> nm <> "..".
Proof. intros Hsuf ->. discriminate. Qed.

Lemma catalog_names_json m cwd :
  Forall (fun nm => nm <> "..") (catalog_names m cwd).
Proof.
  apply Forall_forall. intros nm Hin. apply json_name_not_dotdot.
  unfold catalog_names in Hin. rewrite merge_sort_Permutation in Hin.
  now apply list_elem_of_filter in Hin as [Hsuf _].
Qed.

Lemma truthy_record (g : game) k v : g !! k = Some v -> truthy (JObj g) = true.
Proof.
  intros Hk. cbn. rewrite bool_decide_eq_false_2; [reflexivity|].
  intros Hnil. apply map_to_list_empty_iff in Hnil. subst g.
  now rewrite lookup_empty in Hk.
Qed.

Lemma truthy_empty_record : truthy (JObj ∅) = false.
Proof. reflexivity. Qed.

(** Reading an entry of the catalog directory. *)
Lemma read_entry_run w ro nm :
  nm <> ".." ->
  w_fs w !! games_loc (w_cwd w) = Some (Dir ro) ->
  exists (g : game) (msg : string),
    _read_game_file (Pathlib.make_child GAMES_DIR nm) w
    = (if valid_entry (w_fs w) (w_cwd w) nm then (Ok g, w)
       else (Ok ∅, with_log w WARNING msg))
    /\ loaded_from nm g.
Proof.
  intros Hnm Hdir.
  destruct (read_game_file_run (Pathlib.make_child GAMES_DIR nm) w)
    as (g & msg & Hrun & Hmeta).
  exists g, msg. split; [|exact Hmeta]. rewrite Hrun.
  unfold FS.read_file, bind.
  rewrite (stat_run _ _ _ (entry_walk _ _ _ _ Hnm Hdir)).
  unfold valid_entry.
  now destruct (w_fs w !! (games_loc (w_cwd w) ++ [nm])) as [[fro data|dro]|].
Qed.

(** The loop of [load_games]: it never raises; it keeps the records of the
    valid entries, in order, and logs one warning for each other entry. *)
Lemma scan_games_run names : forall acc w ro,
  w_fs w !! games_loc (w_cwd w) = Some (Dir ro) ->
  Forall (fun nm => nm <> "..") names ->
  exists (recs : list game) (warnings : list (log_level * string)),
    scan_games (map (Pathlib.make_child GAMES_DIR) names) acc w
    = (Ok (acc ++ recs),
       World (w_fs w) (w_cwd w) (w_log w ++ warnings) (w_events w) (w_calls w))
    /\ Forall2 loaded_from
         (filter (fun nm => valid_entry (w_fs w) (w_cwd w) nm = true) names)
         recs
    /\ length warnings
       = length (filter (fun nm => valid_entry (w_fs w) (w_cwd w) nm = false)
                        names)
    /\ Forall (fun r => fst r = WARNING) warnings.
Proof.
  induction names as [|nm rest IH]; intros acc w ro Hdir Hnames.
  - exists [], []. cbn. rewrite !app_nil_r. destruct w.
    repeat split; constructor.
  - apply Forall_cons in Hnames as [Hnm Hrest].
    destruct (read_entry_run w ro nm Hnm Hdir) as (g & msg & Hread & Hmeta).
    cbn [map scan_games]. unfold bind. rewrite Hread.
    destruct (valid_entry (w_fs w) (w_cwd w) nm) eqn:Hvalid.
    + rewrite (truthy_record g _ _ Hmeta).
      destruct (IH (acc ++ [g]) w ro Hdir Hrest)
        as (recs & warnings & Hscan & Hrecs & Hlen & Hwarn).
      exists (g :: recs), warnings. rewrite Hscan, <- app_assoc.
      split; [reflexivity|].
      rewrite filter_cons_True by exact Hvalid.
      rewrite filter_cons_False by congruence.
      repeat split; [constructor|..]; assumption.
    + rewrite truthy_empty_record.
      destruct (IH acc (with_log w WARNING msg) ro Hdir Hrest)
        as (recs & warnings & Hscan & Hrecs & Hlen & Hwarn).
      exists recs, ((WARNING, msg) :: warnings). rewrite Hscan.
      unfold with_log. cbn [w_fs w_cwd w_log w_events w_calls].
      rewrite <- app_assoc. cbn [app].
      split; [reflexivity|].
      rewrite filter_cons_False by congruence.
      rewrite filter_cons_True by exact Hvalid.
      repeat split; [assumption|cbn; now f_equal|now constructor].
Qed.

Lemma sorted_glob_catalog w ro :
  w_fs w !! games_loc (w_cwd w) = Some (Dir ro) ->
  FS.sorted_glob GAMES_DIR ".json" w
  = (Ok (map (Pathlib.make_child GAMES_DIR)
             (catalog_names (w_fs w) (w_cwd w))), w).
Proof.
  intros Hdir. unfold FS.sorted_glob, bind.
  now rewrite (is_dir_existing _ _ _ _ (games_dir_walk _ _) Hdir).
Qed.

(** [load_games] up to the end of its loop. *)
Lemma load_games_scan w ro :
  w_fs w !! games_loc (w_cwd w) = Some (Dir ro) ->
  load_games w
  = bind (scan_games (map (Pathlib.make_child GAMES_DIR)
                          (catalog_names (w_fs w) (w_cwd w))) [])
         (fun games =>
            match games with
            | [] =>
                let* written := _write_game_file (placeholder (w_cwd w)) in
                ret (games ++ [snd written])
            | _ :: _ => ret games
            end) w.
Proof.
  intros Hdir. unfold load_games, bind at 1 2 3, get_cwd.
  rewrite (mkdir_existing _ _ _ _ (games_dir_walk _ _) Hdir).
  now rewrite (sorted_glob_catalog _ _ Hdir).
Qed.

(** C6, as amended.  In a catalog directory, call an entry named [*.json]
    valid when it is a regular file whose bytes parse as a JSON object that
    the loader can complete (see [valid_record]), and invalid otherwise.
    The loop of [load_games] never raises: it returns one record for each
    valid entry, in the order of the names, and logs one warning for each
    invalid one.  When there is at least one valid entry, [load_games]
    returns exactly these records, so as many as there are valid entries,
    and leaves the file system as it was.  With no valid entry
    [load_games] goes on to save the placeholder, and the error of that
    save is not caught. *)
Theorem load_games_skips_invalid_files
        (w : world) (ro : bool)
        (Hdir : w_fs w !! games_loc (w_cwd w) = Some (Dir ro)) :
  let names := catalog_names (w_fs w) (w_cwd w) in
  let valid := filter (fun nm => valid_entry (w_fs w) (w_cwd w) nm = true) names in
  let invalid := filter (fun nm => valid_entry (w_fs w) (w_cwd w) nm = false) names in
  exists (recs : list game) (warnings : list (log_level * string)),
    scan_games (map (Pathlib.make_child GAMES_DIR) names) [] w
    = (Ok recs,
       World (w_fs w) (w_cwd w) (w_log w ++ warnings) (w_events w) (w_calls w))
    /\ Forall2 loaded_from valid recs
    /\ length recs = length valid
    /\ length warnings = length invalid
    /\ Forall (fun r => fst r = WARNING) warnings
    /\ (0 < length valid ->
        load_games w
        = (Ok recs,
           World (w_fs w) (w_cwd w) (w_log w ++ warnings)
                 (w_events w) (w_calls w))).
Proof.
  intros names valid invalid.
  destruct (scan_games_run names [] w ro Hdir (catalog_names_json _ _))
    as (recs & warnings & Hscan & Hrecs & Hlen & Hwarn).
  exists recs, warnings. cbn [app] in Hscan.
  split; [exact Hscan|]. split; [exact Hrecs|].
  split; [symmetry; exact (Forall2_length _ _ _ Hrecs)|].
  split; [exact Hlen|]. split; [exact Hwarn|].
  intros Hsome. rewrite (load_games_scan _ _ Hdir).
  unfold bind at 1. fold names. rewrite Hscan.
  apply Forall2_length in Hrecs. fold valid in Hrecs.
  destruct recs; [cbn in Hrecs; lia|reflexivity].
Qed.

End CatalogDirectory.

(** ** CatalogStore: the placeholder record *)

Section Placeholder.

Context `{JsonCodec} `{PyRepr}.

Lemma placeholder_no_meta_path cwd : placeholder cwd !! "meta_path" = None.
Proof. reflexivity. Qed.

(** Saving the placeholder in a writable catalog directory, when nothing
    but a writable regular file is in the way. *)
Lemma write_placeholder w :
  w_fs w !! games_loc (w_cwd w) = Some (Dir false) ->
  w_fs w !! sample_loc (w_cwd w) = None
  \/ (exists old, w_fs w !! sample_loc (w_cwd w) = Some (File false old)) ->
  _write_game_file (placeholder (w_cwd w)) w
  = (Ok (Pathlib.make_child GAMES_DIR "sample.json",
         <["meta_path" := JStr "games/sample.json"]> (placeholder (w_cwd w))),
     with_fs w (<[sample_loc (w_cwd w) :=
                    File false (dumps (JObj (placeholder (w_cwd w))))]>
                  (w_fs w))).
Proof.
  intros Hdir Hfree. unfold _write_game_file.
  assert (Hgid : derive_gid (placeholder (w_cwd w)) w = (Ok "sample", w))
    by reflexivity.
  rewrite (bind_ok _ _ _ _ _ Hgid).
  assert (Hp : target_path (placeholder (w_cwd w)) "sample" w
               = (Ok (Pathlib.make_child GAMES_DIR "sample.json"), w))
    by reflexivity.
  rewrite (bind_ok _ _ _ _ _ Hp).
  assert (Hmk : FS.mkdir_parents
                  (Pathlib.parent (Pathlib.make_child GAMES_DIR "sample.json")) w
                = (Ok tt, w)).
  { change (Pathlib.parent (Pathlib.make_child GAMES_DIR "sample.json"))
      with GAMES_DIR.
    exact (mkdir_parents_existing _ _ _ _ (games_dir_walk _ _) Hdir). }
  rewrite (bind_ok _ _ _ _ _ Hmk).
  assert (Hsave : to_save (placeholder (w_cwd w)) = placeholder (w_cwd w))
    by (apply delete_id, placeholder_no_meta_path).
  rewrite Hsave.
  assert (Hwalk := entry_walk (w_fs w) (w_cwd w) false "sample.json"
                              ltac:(discriminate) Hdir).
  cbv zeta in Hwalk.
  assert (Hwr := write_file_run
                   (Pathlib.make_child GAMES_DIR "sample.json")
                   (dumps (JObj (placeholder (w_cwd w)))) w _ Hwalk).
  fold (sample_loc (w_cwd w)) in Hwr.
  assert (Hcase : w_fs w !! sample_loc (w_cwd w) = None
                  /\ w_fs w !! removelast (sample_loc (w_cwd w))
                     = Some (Dir false)
                  \/ (exists old, w_fs w !! sample_loc (w_cwd w)
                                  = Some (File false old))).
  { destruct Hfree as [Hnone|Hold]; [left|now right].
    split; [exact Hnone|]. unfold sample_loc. now rewrite removelast_last. }
  now rewrite (bind_ok _ _ _ _ _ (Hwr Hcase)).
Qed.

(** C7, as amended.  When the catalog directory exists and can be written
    to, none of its entries is a valid record file, and [sample.json] in it
    is absent or a writable regular file, [load_games] returns exactly one
    record, the placeholder with its [meta_path], and has saved it as
    [sample.json] in the catalog directory. *)
Theorem load_games_seeds_placeholder
        (w : world)
        (Hdir : w_fs w !! games_loc (w_cwd w) = Some (Dir false))
        (Hnone : filter (fun nm => valid_entry (w_fs w) (w_cwd w) nm = true)
                        (catalog_names (w_fs w) (w_cwd w)) = [])
        (Hfree : w_fs w !! sample_loc (w_cwd w) = None
                 \/ exists old,
                     w_fs w !! sample_loc (w_cwd w) = Some (File false old)) :
  exists warnings : list (log_level * string),
    load_games w
    = (Ok [<["meta_path" := JStr "games/sample.json"]> (placeholder (w_cwd w))],
       World (<[sample_loc (w_cwd w) :=
                  File false (dumps (JObj (placeholder (w_cwd w))))]> (w_fs w))
             (w_cwd w) (w_log w ++ warnings) (w_events w) (w_calls w))
    /\ Forall (fun r => fst r = WARNING) warnings.
Proof.
  destruct (scan_games_run (catalog_names (w_fs w) (w_cwd w)) [] w false
              Hdir (catalog_names_json _ _))
    as (recs & warnings & Hscan & Hrecs & _ & Hwarn).
  cbn [app] in Hscan. rewrite Hnone in Hrecs. apply Forall2_nil_inv_l in Hrecs. subst recs.
  exists warnings. split; [|exact Hwarn].
  rewrite (load_games_scan _ _ Hdir). unfold bind at 1. rewrite Hscan.
  set (w1 := World _ _ (w_log w ++ warnings) _ _).
  assert (Hwrite := write_placeholder w1 Hdir Hfree).
  cbn [app]. unfold bind. change (w_cwd w) with (w_cwd w1). rewrite Hwrite.
  reflexivity.
Qed.

End Placeholder.

(** ** CatalogStore on the examples *)

#[local] Existing Instances ExampleCodec.example_codec ExampleCodec.example_repr.

(** C2, as stated, fails: the catalog directory cannot be written to, so
    [_write_game_file] raises [PermissionError]; [save_games] returns all
    the same, having written nothing and logged the error. *)
Lemma save_games_swallows_write_failure :
  fst (_write_game_file Examples.full_record Examples.locked)
  = Raise (Exn PermissionError "[Errno 13] Permission denied: 'games/doom.json'")
  /\ fst (save_games [Examples.full_record] Examples.locked)
     = Ok [Examples.full_record]
  /\ w_fs (snd (save_games [Examples.full_record] Examples.locked))
     = w_fs Examples.locked
  /\ w_log (snd (save_games [Examples.full_record] Examples.locked))
     = [(ERROR,
         "Save failed for doom: [Errno 13] Permission denied: 'games/doom.json'")].
Proof. repeat split; vm_compute; reflexivity. Qed.

(** C3, as stated, fails: a record whose [work_dir] is the empty string is
    saved, and the record loaded from the file has the working directory
    of the process as its [work_dir]. *)
Lemma roundtrip_replaces_empty_work_dir :
  fst Examples.saved_blank
  = Ok (Pathlib.make_child GAMES_DIR "a.json",
        <["meta_path" := JStr "games/a.json"]> Examples.blank_work_dir)
  /\ Examples.blank_work_dir !! "work_dir" = Some (JStr "")
  /\ match fst Examples.reloaded_blank with
     | Ok loaded => loaded !! "work_dir"
     | Raise _ => None
     end = Some (JStr "/home/u").
Proof. repeat split; vm_compute; reflexivity. Qed.

(** [save_load_roundtrip] on [full_record], saved in the fresh home with the
    codec of the examples. *)
Lemma save_load_roundtrip_witness :
  exists loaded : game,
    _read_game_file (Pathlib.make_child GAMES_DIR "doom.json")
                    (snd Examples.saved_full)
    = (Ok loaded, snd Examples.saved_full)
    /\ (forall k, k <> "meta_path" -> loaded !! k = Examples.full_record !! k)
    /\ loaded !! "meta_path" = Some (JStr "games/doom.json").
Proof.
  apply (save_load_roundtrip
           Examples.full_record
           (<["meta_path" := JStr "games/doom.json"]> Examples.full_record)
           (Pathlib.make_child GAMES_DIR "doom.json")
           Examples.fresh (snd Examples.saved_full)).
  - vm_compute. reflexivity.
  - eexists. vm_compute. reflexivity.
  - eexists. vm_compute. reflexivity.
  - vm_compute. reflexivity.
  - vm_compute. reflexivity.
Defined.

(** [load_games_skips_invalid_files] on a catalog with the valid files
    [a.json] and [c.json] and the invalid files [b.json] and [d.json]. *)
Lemma load_games_skips_invalid_files_witness :
  exists (recs : list game) (warnings : list (log_level * string)),
    load_games Examples.mixed_catalog
    = (Ok recs,
       World (w_fs Examples.mixed_catalog) Examples.home warnings [] [])
    /\ Forall2 loaded_from ["a.json"; "c.json"] recs
    /\ length recs = 2
    /\ length warnings = 2.
Proof.
  destruct (load_games_skips_invalid_files Examples.mixed_catalog false)
    as (recs & warnings & _ & Hrecs & Hn & Hm & _ & Hload).
  - vm_compute. reflexivity.
  - exists recs, warnings.
    split; [apply Hload; vm_compute; lia|].
    split; [exact Hrecs|]. split; [exact Hn|exact Hm].
Defined.

(** C6, as stated, fails: the one entry of the catalog directory is an
    invalid file, which the loop skips with a warning; [load_games] then
    tries to save the placeholder over it, the file cannot be written to,
    and [load_games] raises [PermissionError]. *)
Lemma load_games_raises_on_blocked_sample :
  catalog_names (w_fs Examples.blocked_sample) (w_cwd Examples.blocked_sample)
  = ["sample.json"]
  /\ valid_entry (w_fs Examples.blocked_sample) (w_cwd Examples.blocked_sample)
                 "sample.json" = false
  /\ fst (load_games Examples.blocked_sample)
     = Raise (Exn PermissionError
                  "[Errno 13] Permission denied: 'games/sample.json'")
  /\ w_fs (snd (load_games Examples.blocked_sample))
     = w_fs Examples.blocked_sample
  /\ length (w_log (snd (load_games Examples.blocked_sample))) = 1.
Proof. repeat split; vm_compute; reflexivity. Qed.

(** C7, as stated, fails: the catalog directory is empty, so it yields no
    valid record, and it cannot be written to; [load_games] raises
    [PermissionError] and returns no catalog. *)
Lemma load_games_raises_in_locked_catalog :
  catalog_names (w_fs Examples.locked) (w_cwd Examples.locked) = []
  /\ load_games Examples.locked
     = (Raise (Exn PermissionError
                   "[Errno 13] Permission denied: 'games/sample.json'"),
        Examples.locked).
Proof. split; vm_compute; reflexivity. Qed.

(** The first run, in a home without a catalog directory: [load_games]
    creates the directory and seeds it with the placeholder. *)
Example load_games_first_run :
  load_games Examples.fresh
  = (Ok [<["meta_path" := JStr "games/sample.json"]>
           (placeholder Examples.home)],
     World (<[sample_loc Examples.home :=
                File false (dumps (JObj (placeholder Examples.home)))]>
           (<[games_loc Examples.home := Dir false]> Examples.fresh_fs))
           Examples.home [] [] []).
Proof. vm_compute. reflexivity. Qed.

(** [load_games_seeds_placeholder] on an empty, writable catalog
    directory. *)
Lemma load_games_seeds_placeholder_witness :
  exists warnings : list (log_level * string),
    load_games Examples.empty_catalog
    = (Ok [<["meta_path" := JStr "games/sample.json"]>
             (placeholder Examples.home)],
       World (<[sample_loc Examples.home :=
                  File false (dumps (JObj (placeholder Examples.home)))]>
                (w_fs Examples.empty_catalog))
             Examples.home ([] ++ warnings) [] [])
    /\ Forall (fun r => fst r = WARNING) warnings.
Proof.
  apply (load_games_seeds_placeholder Examples.empty_catalog).
  - vm_compute. reflexivity.
  - vm_compute. reflexivity.
  - left. vm_compute. reflexivity.
Defined.

(** ** ArchiveExtractor and Downloader: what they leave alone *)

(** Applies a frame rule and discharges its side conditions. *)
Tactic Notation "frame" "with" uconstr(rule) :=
  apply rule; try exact _; try assumption.

Section TransferFrames.

Context (R : world -> world -> Prop) `{!PreOrder R}.
Hypothesis R_fs : forall w m, R w (with_fs w m).

Let R_dir : forall w q, R w (with_fs w (<[q := Dir false]> (w_fs w))) :=
  fun w q => R_fs w _.

Lemma keeps_extract_entry base info : keeps R (extract_entry base info).
Proof.
  unfold extract_entry.
  frame with keeps_bind; [frame with keeps_guard|intros _].
  frame with keeps_bind; [frame with keeps_get_cwd|intros cwd].
  frame with keeps_bind; [frame with keeps_guard|intros _].
  destruct (ze_is_dir info); [frame with keeps_mkdir_parents|].
  frame with keeps_bind; [frame with keeps_mkdir_parents|intros _].
  destruct (ze_data info);
    [frame with keeps_write_file|frame with keeps_raise].
Qed.

Lemma keeps_extract_entries base infos : keeps R (extract_entries base infos).
Proof.
  induction infos as [|info rest IH]; cbn [extract_entries].
  - frame with keeps_ret.
  - frame with keeps_bind; [apply keeps_extract_entry|intros _; exact IH].
Qed.

Lemma keeps_safe_extract_zip zf dest_dir :
  keeps R (_safe_extract_zip zf dest_dir).
Proof.
  unfold _safe_extract_zip.
  frame with keeps_bind; [frame with keeps_get_cwd|intros cwd].
  apply keeps_extract_entries.
Qed.

Context `{Network} `{ZipCodec}.

Lemma keeps_open_zip dest : keeps R (open_zip dest).
Proof.
  unfold open_zip.
  frame with keeps_bind; [frame with keeps_read_file|intros bytes].
  destruct (read_zip bytes); [frame with keeps_ret|frame with keeps_raise].
Qed.

Lemma keeps_open_named dest : keeps R (open_named dest).
Proof.
  unfold open_named, named. cbv zeta.
  destruct (String.eqb dest ""); [frame with keeps_raise|].
  destruct (ends_in_dot dest && _).
  { frame with keeps_try; [|intros e; frame with keeps_raise].
    frame with keeps_bind; [frame with keeps_stat|intros nd].
    frame with keeps_raise. }
  destruct (_ && _);
    [|frame with keeps_try;
      [frame with keeps_open_wb|intros e; frame with keeps_raise]].
  frame with keeps_bind; [|intros b; frame with keeps_raise].
  frame with keeps_try; [|intros e; frame with keeps_ret].
  frame with keeps_bind; [frame with keeps_stat|intros nd].
  frame with keeps_ret.
Qed.

(** The part of [download_update] after the chunks were written, when the
    status callback does not disturb [R]. *)
Hypothesis R_status : forall s, keeps R (emit (Status s)).

Lemma keeps_extract_step (dest extract_to : string) (status_cb : bool) :
  keeps R
    (if PyStr.endswith (PyStr.lower dest) ".zip" && PyStr.truthy extract_to
     then
       (if status_cb then emit (Status "Extracting…") else ret tt) >>
       let* zf := open_zip dest in
       _safe_extract_zip zf (Pathlib.parse Posix extract_to)
     else ret tt).
Proof.
  destruct (_ && _); [|frame with keeps_ret].
  frame with keeps_bind; [|intros _].
  - destruct status_cb; [apply R_status|frame with keeps_ret].
  - frame with keeps_bind; [apply keeps_open_zip|intros zf].
    apply keeps_safe_extract_zip.
Qed.

(** Writing the chunks without reporting progress. *)
Lemma keeps_write_chunks_silent f total progress_cb chunks :
  negb (total =? 0)%Z && progress_cb = false ->
  forall downloaded,
    keeps R (write_chunks f total progress_cb chunks downloaded).
Proof.
  intros Hsilent. induction chunks as [|chunk rest IH]; intros downloaded;
    cbn [write_chunks]; [frame with keeps_ret|].
  destruct (negb (PyStr.truthy chunk)); [apply IH|].
  frame with keeps_bind; [frame with keeps_write|intros _].
  rewrite Hsilent.
  frame with keeps_bind; [frame with keeps_ret|intros _; apply IH].
Qed.

End TransferFrames.

(** ** Downloader: the fractions reported *)

Lemma truthy_len chunk :
  (PyStr.truthy chunk = true -> 0 < len chunk)%Z
  /\ (PyStr.truthy chunk = false -> len chunk = 0%Z).
Proof.
  unfold PyStr.truthy, len. destruct chunk; cbn; split; intros; lia || easy.
Qed.

Lemma running_totals_bounds chunks : forall downloaded,
  Forall (fun n => downloaded < n <= downloaded + total_length chunks)%Z
         (running_totals chunks downloaded).
Proof.
  induction chunks as [|chunk rest IH]; intros downloaded;
    cbn [running_totals total_length fold_right]; [constructor|].
  fold (total_length rest).
  destruct (truthy_len chunk) as [Hpos Hzero].
  assert (Hrest : (0 <= total_length rest)%Z).
  { clear. induction rest as [|c r IHr]; cbn; [lia|].
    fold (total_length r). unfold len. lia. }
  destruct (PyStr.truthy chunk).
  - specialize (Hpos eq_refl). constructor; [lia|].
    eapply Forall_impl; [apply IH|]. cbn. intros n Hn. lia.
  - rewrite (Hzero eq_refl).
    eapply Forall_impl; [apply IH|]. cbn. intros n Hn. lia.
Qed.

Lemma running_totals_sorted chunks : forall downloaded,
  Sorted Z.le (running_totals chunks downloaded).
Proof.
  induction chunks as [|chunk rest IH]; intros downloaded;
    cbn [running_totals]; [constructor|].
  destruct (PyStr.truthy chunk); [|apply IH].
  constructor; [apply IH|].
  pose proof (running_totals_bounds rest (downloaded + len chunk)) as Hb.
  destruct (running_totals rest (downloaded + len chunk)); constructor.
  apply Forall_cons in Hb as [Hz _]. lia.
Qed.

Lemma running_totals_last chunks : forall downloaded,
  (0 < total_length chunks)%Z ->
  last (running_totals chunks downloaded)
  = Some (downloaded + total_length chunks)%Z.
Proof.
  induction chunks as [|chunk rest IH]; intros downloaded Hpos;
    cbn [running_totals total_length fold_right] in *; [lia|].
  fold (total_length rest) in *.
  destruct (truthy_len chunk) as [Hchunk Hzero].
  destruct (PyStr.truthy chunk).
  - destruct (Z.eq_dec (total_length rest) 0%Z) as [Hnone|Hsome].
    + pose proof (running_totals_bounds rest (downloaded + len chunk)) as Hb.
      destruct (running_totals rest (downloaded + len chunk)) as [|n l].
      * cbn. f_equal. lia.
      * apply Forall_cons in Hb as [Hn _]. lia.
    + assert (Hrest : (0 <= total_length rest)%Z).
      { clear. induction rest as [|c r IHr]; cbn; [lia|].
        fold (total_length r). unfold len. lia. }
      rewrite last_cons, IH by lia. cbn. f_equal; lia.
  - rewrite (Hzero eq_refl) in *. rewrite IH by lia. f_equal; lia.
Qed.

Section Fractions.

Variable total : Z.
Hypothesis total_pos : (0 < total)%Z.

Lemma inv_total_nonneg : (0 <= / inject_Z total)%Q.
Proof.
  apply Qinv_le_0_compat. change 0%Q with (inject_Z 0).
  rewrite <- Zle_Qle. lia.
Qed.

Lemma fraction_le a b : (a <= b)%Z -> (fraction total a <= fraction total b)%Q.
Proof.
  intros Hab. unfold fraction, Qdiv.
  apply Qmult_le_compat_r; [now rewrite <- Zle_Qle|apply inv_total_nonneg].
Qed.

Lemma fraction_total : (fraction total total == 1)%Q.
Proof.
  unfold fraction, Qdiv. apply Qmult_inv_r.
  change 0%Q with (inject_Z 0). rewrite inject_Z_injective. lia.
Qed.

Lemma fraction_pos a : (0 < a)%Z -> (0 < fraction total a)%Q.
Proof.
  intros Ha. unfold fraction, Qdiv. apply Qmult_lt_0_compat.
  - change 0%Q with (inject_Z 0). rewrite <- Zlt_Qlt. lia.
  - apply Qinv_lt_0_compat. change 0%Q with (inject_Z 0).
    rewrite <- Zlt_Qlt. lia.
Qed.

Lemma fraction_le_1 a : (a <= total)%Z -> (fraction total a <= 1)%Q.
Proof.
  intros Ha. rewrite <- fraction_total. now apply fraction_le.
Qed.

Lemma fractions_sorted l :
  Sorted Z.le l -> Sorted Qle (map (fraction total) l).
Proof.
  induction 1 as [|a l Hsorted IH Hhd]; cbn [map]; constructor; [exact IH|].
  destruct Hhd as [|b l Hab]; cbn [map]; constructor.
  now apply fraction_le.
Qed.

End Fractions.

Section DownloadFacts.

Context `{Network} `{ZipCodec}.

Lemma progress_values_app evs evs' :
  progress_values (evs ++ evs') = progress_values evs ++ progress_values evs'.
Proof. apply omap_app. Qed.

Lemma status_same_progress s : keeps same_progress (emit (Status s)).
Proof.
  intros w. unfold same_progress. cbn.
  now rewrite progress_values_app, app_nil_r.
Qed.

Lemma fs_same_progress w m : same_progress w (with_fs w m).
Proof. reflexivity. Qed.

(** The fractions [write_chunks] reports when a total was declared and a
    callback was passed. *)
Lemma write_chunks_progress f total chunks : forall downloaded w,
  total <> 0%Z ->
  progress_values
    (w_events (snd (write_chunks f total true chunks downloaded w)))
  = progress_values (w_events w)
    ++ map (fraction total) (running_totals chunks downloaded).
Proof.
  induction chunks as [|chunk rest IH]; intros downloaded w Htotal;
    cbn [write_chunks running_totals map].
  - cbn. now rewrite app_nil_r.
  - destruct (PyStr.truthy chunk); cbn [negb]; [|now apply IH].
    assert (Hwrite : exists w1, FS.write f chunk w = (Ok tt, w1)
                                /\ w_events w1 = w_events w).
    { unfold FS.write, bind, get_fs, put_fs, ret.
      destruct (w_fs w !! f) as [[ro old|ro]|]; eauto. }
    destruct Hwrite as (w1 & Hwrite & Hevents).
    rewrite (bind_ok _ _ _ _ _ Hwrite).
    rewrite (proj2 (Z.eqb_neq total 0) Htotal). cbn [negb andb].
    unfold bind at 1, emit. rewrite IH by exact Htotal. cbn [w_events map].
    rewrite progress_values_app, Hevents, <- app_assoc. reflexivity.
Qed.

(** C5, as amended.  When the response has a status from 400 to 599,
    [download_update] raises an [HTTPError] and the world is as it was:
    nothing was created or written at [dest], and no callback was
    called. *)
Theorem download_error_status_writes_nothing
        (url dest extract_to : string) (progress_cb status_cb : bool)
        (w : world) (r : response)
        (Hget : http_get url = Ok r)
        (Hstatus : (400 <= status_code r < 600)%Z) :
  exists e : exn,
    download_update url dest extract_to progress_cb status_cb w = (Raise e, w)
    /\ exn_cls e = HTTPError.
Proof.
  unfold download_update, fetch_to_file, bind, lift. rewrite Hget.
  unfold raise_for_status.
  destruct ((400 <=? status_code r) && (status_code r <? 500))%Z eqn:H4.
  - eexists. split; reflexivity.
  - assert (H5 : ((500 <=? status_code r) && (status_code r <? 600))%Z = true)
      by lia.
    rewrite H5. eexists. split; reflexivity.
Qed.

End DownloadFacts.

Section DownloadProgress.

Context `{Network} `{ZipCodec}.

Lemma raise_for_status_run url r w :
  raise_for_status url r w = (fst (raise_for_status url r w), w).
Proof.
  unfold raise_for_status.
  destruct (_ && _)%Z; [reflexivity|]. now destruct (_ && _)%Z.
Qed.

Lemma raise_for_status_passes url r w :
  ~ (400 <= status_code r < 600)%Z ->
  raise_for_status url r w = (Ok tt, w).
Proof.
  intros Hstatus. unfold raise_for_status.
  destruct ((400 <=? status_code r) && (status_code r <? 500))%Z eqn:H4;
    [lia|].
  destruct ((500 <=? status_code r) && (status_code r <? 600))%Z eqn:H5;
    [lia|reflexivity].
Qed.

Lemma last_map {A B} (f : A -> B) (l : list A) :
  last (map f l) = option_map f (last l).
Proof.
  induction l as [|a l IH]; [reflexivity|].
  cbn [map]. rewrite !last_cons, IH. now destruct (last l).
Qed.

(** The download up to the end of the [with] block, after the response
    passed [raise_for_status] and declared [total]. *)
Lemma fetch_to_file_run url dest progress_cb w r total :
  http_get url = Ok r ->
  raise_for_status url r w = (Ok tt, w) ->
  declared_total r w = (Ok total, w) ->
  fetch_to_file url dest progress_cb w
  = (FS.mkdir_parents (Pathlib.parent (Pathlib.parse Posix dest)) >>
     let* f := open_named dest in
     let* _ := write_chunks f total progress_cb (body_chunks r) 0%Z in
     match body_error r with
     | Some e => raise e
     | None => ret tt
     end) w.
Proof.
  intros Hget Hstatus Htotal. unfold fetch_to_file.
  assert (Hlift : lift (http_get url) w = (Ok r, w))
    by (unfold lift; now rewrite Hget).
  rewrite (bind_ok _ _ _ _ _ Hlift), (bind_ok _ _ _ _ _ Hstatus).
  now rewrite (bind_ok _ _ _ _ _ Htotal).
Qed.

Lemma declared_total_absent r w :
  content_length r = None -> declared_total r w = (Ok 0%Z, w).
Proof. intros Hnone. unfold declared_total. now rewrite Hnone. Qed.

(** Without a declared size, or with a declared size of 0, nothing is
    reported while the file is fetched. *)
Lemma fetch_silent url dest progress_cb w r :
  http_get url = Ok r ->
  declared_total r w = (Ok 0%Z, w) ->
  same_progress w (snd (fetch_to_file url dest progress_cb w)).
Proof.
  intros Hget Hzero.
  destruct (fst (raise_for_status url r w)) as [[]|e] eqn:Hstatus.
  - rewrite (fetch_to_file_run url dest progress_cb w r 0%Z Hget).
    + revert w Hstatus Hzero. intros w _ _. revert w.
      change (keeps same_progress
                (FS.mkdir_parents (Pathlib.parent (Pathlib.parse Posix dest)) >>
                 let* f := open_named dest in
                 let* _ := write_chunks f 0%Z progress_cb (body_chunks r) 0%Z in
                 match body_error r with
                 | Some e => raise e
                 | None => ret tt
                 end)).
      frame with keeps_bind;
        [frame with keeps_mkdir_parents; intros; apply fs_same_progress
        |intros _].
      frame with keeps_bind;
        [frame with keeps_open_named; apply fs_same_progress|intros f].
      frame with keeps_bind.
      * apply keeps_write_chunks_silent;
          [exact _|apply fs_same_progress|reflexivity].
      * intros _. destruct (body_error r);
          [frame with keeps_raise|frame with keeps_ret].
    + rewrite raise_for_status_run, Hstatus. reflexivity.
    + exact Hzero.
  - unfold fetch_to_file, bind, lift. rewrite Hget.
    rewrite raise_for_status_run, Hstatus. reflexivity.
Qed.

(** C4, as amended.  With no [Content-Length] in the response, or with one
    that reads as 0, the progress callback is never called.  With a
    callback, a response that passes [raise_for_status], a
    [Content-Length] that [int] reads as a positive number equal to the
    number of bytes in the chunks, and a destination that could be opened,
    the callback is called once after each non-empty chunk with
    [downloaded / total]: fractions greater than 0 and at most 1, in
    non-decreasing order, the last one equal to 1.  The fractions are the
    exact quotients (see [fraction]). *)
Theorem progress_is_reported_against_declared_size
        (url dest extract_to : string) (progress_cb status_cb : bool)
        (w : world) (r : response)
        (Hget : http_get url = Ok r) :
  (content_length r = None \/ declared_total r w = (Ok 0%Z, w) ->
   progress_values
     (w_events (snd (download_update url dest extract_to
                                     progress_cb status_cb w)))
   = progress_values (w_events w))
  /\ (forall (header : string) (total : Z) (f : path) (w1 : world),
         progress_cb = true ->
         ~ (400 <= status_code r < 600)%Z ->
         content_length r = Some header ->
         PyInt.of_str header = Some total ->
         (0 < total)%Z ->
         total_length (body_chunks r) = total ->
         (FS.mkdir_parents (Pathlib.parent (Pathlib.parse Posix dest)) >>
          open_named dest) w = (Ok f, w1) ->
         exists fractions : list Q,
           progress_values
             (w_events (snd (download_update url dest extract_to
                                             progress_cb status_cb w)))
           = progress_values (w_events w) ++ fractions
           /\ fractions
              = map (fraction total) (running_totals (body_chunks r) 0%Z)
           /\ Forall (fun q => 0 < q /\ q <= 1)%Q fractions
           /\ Sorted Qle fractions
           /\ exists q, last fractions = Some q /\ (q == 1)%Q).
Proof.
  assert (Hstep : forall w2,
             same_progress w2
               (snd ((if PyStr.endswith (PyStr.lower dest) ".zip"
                         && PyStr.truthy extract_to
                      then
                        (if status_cb then emit (Status "Extracting…")
                         else ret tt) >>
                        let* zf := open_zip dest in
                        _safe_extract_zip zf (Pathlib.parse Posix extract_to)
                      else ret tt) w2))).
  { apply keeps_extract_step;
      [exact _|apply fs_same_progress|apply status_same_progress]. }
  assert (Hwhole : same_progress
                     (snd (fetch_to_file url dest progress_cb w))
                     (snd (download_update url dest extract_to
                                           progress_cb status_cb w))).
  { unfold download_update, bind.
    destruct (fetch_to_file url dest progress_cb w) as [[u|e] w2];
      [apply Hstep|reflexivity]. }
  split.
  - intros Hnone. rewrite Hwhole.
    apply (fetch_silent url dest _ w r Hget).
    destruct Hnone as [Hnone|Hzero];
      [now apply declared_total_absent|exact Hzero].
  - intros header total f w1 -> Hstatus Hheader Hint Hpos Hsum Hopen.
    exists (map (fraction total) (running_totals (body_chunks r) 0%Z)).
    split; [|split; [reflexivity|split; [|split]]].
    + rewrite Hwhole.
      rewrite (fetch_to_file_run url dest true w r total Hget
                 (raise_for_status_passes _ _ _ Hstatus)).
      2:{ assert (Htruthy : PyStr.truthy header = true)
            by (destruct header; [discriminate|reflexivity]).
          unfold declared_total. rewrite Hheader.
          unfold default, from_option, id. cbv zeta.
          now rewrite Htruthy, Hint. }
      apply bind_ok_inv in Hopen as (u & wa & Hmk & Hopen).
      rewrite (bind_ok _ _ _ _ _ Hmk), (bind_ok _ _ _ _ _ Hopen).
      assert (Hw1 : same_progress w w1).
      { transitivity wa.
        - pose proof (keeps_mkdir_parents same_progress
                        (fun w0 q => fs_same_progress w0 _)
                        (Pathlib.parent (Pathlib.parse Posix dest)) w) as Hk.
          now rewrite Hmk in Hk.
        - pose proof (keeps_open_named same_progress fs_same_progress
                        dest wa) as Hk.
          now rewrite Hopen in Hk. }
      pose proof (write_chunks_progress f total (body_chunks r) 0%Z w1
                    ltac:(lia)) as Hchunks.
      unfold bind.
      destruct (write_chunks f total true (body_chunks r) 0%Z w1)
        as [[n|e] w2]; cbn [snd] in *.
      * rewrite <- Hw1, <- Hchunks. now destruct (body_error r).
      * now rewrite <- Hw1, <- Hchunks.
    + apply Forall_forall. intros q Hq.
      apply list_elem_of_In, in_map_iff in Hq as (n & <- & Hn).
      pose proof (running_totals_bounds (body_chunks r) 0%Z) as Hb.
      rewrite Forall_forall in Hb.
      apply list_elem_of_In, Hb in Hn. rewrite Hsum in Hn.
      split; [apply fraction_pos|apply fraction_le_1]; lia.
    + apply fractions_sorted; [exact Hpos|apply running_totals_sorted].
    + rewrite last_map, running_totals_last by lia. cbn [option_map].
      eexists. split; [reflexivity|].
      rewrite Hsum, Z.add_0_l. now apply fraction_total.
Qed.

End DownloadProgress.

(** ** Downloader on the examples *)

(** C4, as stated, fails.  The server declares 4 bytes and the client
    yields 8 decoded bytes in two chunks: the callback is called with 1 and
    then with 2, which is above 1.  And for an empty resource whose
    declared size is 0 the callback is not called at all. *)
Lemma progress_exceeds_one_past_declared_size :
  progress_values
    (w_events (snd (download_update (H := Examples.compressed)
                                    (H0 := Examples.no_archive)
                                    "http://host/a.bin" "dl/a.bin" ""
                                    true true Examples.fresh)))
  = [fraction 4 4; fraction 4 8]
  /\ ~ (fraction 4 8 <= 1)%Q
  /\ progress_values
       (w_events (snd (download_update (H := Examples.empty_resource)
                                       (H0 := Examples.no_archive)
                                       "http://host/a.bin" "dl/a.bin" ""
                                       true true Examples.fresh)))
     = [].
Proof.
  split; [vm_compute; reflexivity|].
  split; [|vm_compute; reflexivity].
  unfold fraction, Qle. cbn. lia.
Qed.

(** [progress_is_reported_against_declared_size] on a response that declares
    the 8 bytes it delivers in two chunks, with an empty chunk between
    them: the callback is called with 1/2 and with 1. *)
Lemma progress_is_reported_against_declared_size_witness :
  exists fractions : list Q,
    progress_values
      (w_events (snd (download_update (H := Examples.honest)
                                      (H0 := Examples.no_archive)
                                      "http://host/a.bin" "dl/a.bin" ""
                                      true true Examples.fresh)))
    = progress_values (w_events Examples.fresh) ++ fractions
    /\ fractions = map (fraction 8) (running_totals ["abcd"; ""; "efgh"] 0%Z)
    /\ Forall (fun q => 0 < q /\ q <= 1)%Q fractions
    /\ Sorted Qle fractions
    /\ exists q, last fractions = Some q /\ (q == 1)%Q.
Proof.
  destruct (progress_is_reported_against_declared_size
              (H := Examples.honest) (H0 := Examples.no_archive)
              "http://host/a.bin" "dl/a.bin" "" true true Examples.fresh
              (Response 200 (Some "8") ["abcd"; ""; "efgh"] None) eq_refl)
    as [_ Hdeclared].
  apply (Hdeclared "8" 8%Z (Examples.home ++ ["dl"; "a.bin"])
           (snd ((FS.mkdir_parents
                    (Pathlib.parent (Pathlib.parse Posix "dl/a.bin")) >>
                  open_named "dl/a.bin") Examples.fresh))).
  - reflexivity.
  - cbn. lia.
  - reflexivity.
  - vm_compute. reflexivity.
  - lia.
  - vm_compute. reflexivity.
  - vm_compute. reflexivity.
Defined.

(** C5, as stated, fails: the status 300 is not a 2xx status, and
    [download_update] returns normally after writing the body of the
    response to [dest], which was not there before. *)
Lemma download_keeps_body_of_status_300 :
  Examples.multiple_choices "http://host/a.bin"
  = Ok (Response 300 None ["<html>choices</html>"] None)
  /\ fst (download_update (H := Examples.multiple_choices)
                          (H0 := Examples.no_archive)
                          "http://host/a.bin" "dl/a.bin" ""
                          true true Examples.fresh)
     = Ok tt
  /\ w_fs Examples.fresh !! (Examples.home ++ ["dl"; "a.bin"]) = None
  /\ w_fs (snd (download_update (H := Examples.multiple_choices)
                                (H0 := Examples.no_archive)
                                "http://host/a.bin" "dl/a.bin" ""
                                true true Examples.fresh))
       !! (Examples.home ++ ["dl"; "a.bin"])
     = Some (File false "<html>choices</html>").
Proof. repeat split; vm_compute; reflexivity. Qed.

(** [download_error_status_writes_nothing] on a response with status 404. *)
Lemma download_error_status_writes_nothing_witness :
  exists e : exn,
    download_update (H := Examples.not_found) (H0 := Examples.no_archive)
                    "http://host/a.zip" "dl/a.zip" "out"
                    true true Examples.fresh
    = (Raise e, Examples.fresh)
    /\ exn_cls e = HTTPError.
Proof.
  apply (download_error_status_writes_nothing
           (H := Examples.not_found) (H0 := Examples.no_archive)
           "http://host/a.zip" "dl/a.zip" "out" true true Examples.fresh
           (Response 404 (Some "9") ["Not found"] None)).
  - reflexivity.
  - cbn. lia.
Defined.

(** ** ArchiveExtractor on the examples *)

(** C1, where the code breaks it.  The archive has one entry,
    [../destroy.txt], and is extracted into [/tmp/dest].  The entry
    resolves to [/tmp/destroy.txt], a sibling of the destination whose
    name begins with the destination's name, so the test on the strings
    passes: nothing is raised and the file is written outside
    [/tmp/dest]. *)
Theorem zip_slip_into_sibling_with_same_prefix :
  Pathlib.location (Pathlib.resolve Examples.home
                                    (Pathlib.parse Posix "/tmp/dest"))
  = ["tmp"; "dest"]
  /\ fst (_safe_extract_zip [ZipEntry "../destroy.txt" (Some "evil")]
                            (Pathlib.parse Posix "/tmp/dest") Examples.fresh)
     = Ok tt
  /\ w_fs Examples.fresh !! ["tmp"; "destroy.txt"] = None
  /\ w_fs (snd (_safe_extract_zip [ZipEntry "../destroy.txt" (Some "evil")]
                                  (Pathlib.parse Posix "/tmp/dest")
                                  Examples.fresh))
       !! ["tmp"; "destroy.txt"]
     = Some (File false "evil")
  /\ ~ within ["tmp"; "dest"] ["tmp"; "destroy.txt"].
Proof.
  split; [vm_compute; reflexivity|].
  split; [vm_compute; reflexivity|].
  split; [vm_compute; reflexivity|].
  split; [vm_compute; reflexivity|].
  intros [k Hk]. discriminate.
Qed.

(** The two entries the specification names: [a/b/ok.txt] is written below
    the destination with its content. *)
Example extract_nested_entry :
  fst (_safe_extract_zip [ZipEntry "a/b/ok.txt" (Some "hello")]
                         (Pathlib.parse Posix "dest") Examples.fresh)
  = Ok tt
  /\ w_fs (snd (_safe_extract_zip [ZipEntry "a/b/ok.txt" (Some "hello")]
                                  (Pathlib.parse Posix "dest") Examples.fresh))
       !! (Examples.home ++ ["dest"; "a"; "b"; "ok.txt"])
     = Some (File false "hello").
Proof. split; vm_compute; reflexivity. Qed.

(** [../../evil.txt] is refused: the entry before it was extracted, nothing
    was written to [/home/evil.txt], and the entry after it was not looked
    at. *)
Example extract_refuses_parent_escape :
  fst (_safe_extract_zip [ZipEntry "ok.txt" (Some "hello");
                          ZipEntry "../../evil.txt" (Some "evil");
                          ZipEntry "late.txt" (Some "late")]
                         (Pathlib.parse Posix "dest") Examples.fresh)
  = Raise (Exn PlainException "Unsafe path traversal in zip: ../../evil.txt")
  /\ w_fs (snd (_safe_extract_zip [ZipEntry "ok.txt" (Some "hello");
                                   ZipEntry "../../evil.txt" (Some "evil");
                                   ZipEntry "late.txt" (Some "late")]
                                  (Pathlib.parse Posix "dest") Examples.fresh))
     = <[Examples.home ++ ["dest"; "ok.txt"] := File false "hello"]>
         (<[Examples.home ++ ["dest"] := Dir false]> Examples.fresh_fs).
Proof. split; vm_compute; reflexivity. Qed.

(** ** ArchiveExtractor: absolute entries *)

Lemma extract_entries_app base pre post w :
  extract_entries base (pre ++ post) w
  = (extract_entries base pre >> extract_entries base post) w.
Proof.
  revert w. induction pre as [|info pre IH]; intros w; [reflexivity|].
  cbn [app extract_entries]. unfold bind in *.
  destruct (extract_entry base info w) as [[[]|e] w1]; [apply IH|reflexivity].
Qed.

Lemma absolute_entry_refused base info w :
  Pathlib.is_absolute (Pathlib.parse Posix (ze_filename info)) = true ->
  extract_entry base info w
  = (Raise (Exn PlainException
                ("Unsafe absolute path in zip: " +:+ ze_filename info)), w).
Proof.
  intros Habs. unfold extract_entry, bind, guard. now rewrite Habs.
Qed.

(** X11.  An entry whose recorded path is absolute stops the extraction:
    when the entries before it were extracted, [_safe_extract_zip] raises at it,
    having written nothing for it, and the entries after it are not looked
    at. *)
Lemma extraction_stops_at_absolute_entry dest_dir pre info post w w1 :
  Pathlib.is_absolute (Pathlib.parse Posix (ze_filename info)) = true ->
  _safe_extract_zip pre dest_dir w = (Ok tt, w1) ->
  _safe_extract_zip (pre ++ info :: post) dest_dir w
  = (Raise (Exn PlainException
                ("Unsafe absolute path in zip: " +:+ ze_filename info)), w1).
Proof.
  intros Habs. unfold _safe_extract_zip, bind, get_cwd. intros Hpre.
  rewrite extract_entries_app. unfold bind. rewrite Hpre.
  cbn [extract_entries]. unfold bind.
  now rewrite (absolute_entry_refused _ _ _ Habs).
Qed.

(** ** CatalogStore: the records the loader returns *)

Lemma to_str_truthy p : PyStr.truthy (Pathlib.to_str p) = true.
Proof.
  unfold Pathlib.to_str. cbv zeta.
  match goal with
  | |- PyStr.truthy (if String.eqb ?s "" then _ else _) = true =>
      generalize s
  end.
  intros s. destruct (String.eqb s "") eqn:Hs; [reflexivity|].
  unfold PyStr.truthy. now rewrite Hs.
Qed.

Section LoadedRecords.

Context `{JsonCodec}.

(** The same for the body of [_read_game_file], inside its [try]. *)
Lemma read_game_body_shape p w g w' :
  read_game_body p w = (Ok g, w') ->
  is_Some (g !! "id") /\ is_Some (g !! "name")
  /\ has_truthy "work_dir" g = true
  /\ g !! "meta_path" = Some (JStr (Pathlib.to_str p)).
Proof.
  unfold read_game_body, bind at 1.
  rewrite read_json_run.
  destruct (fst (FS.read_file p w)) as [bytes|e]; [|discriminate].
  destruct (loads bytes) as [[| | | | |d]|]; try discriminate.
  set (d1 := match d !! "id" with
             | Some _ => d
             | None => <["id" := JStr (Pathlib.stem p)]> d
             end).
  set (d2 := match d1 !! "name" with
             | Some _ => d1
             | None => <["name" := dict_get "id" d1]> d1
             end).
  assert (Hid1 : is_Some (d1 !! "id")).
  { subst d1. destruct (d !! "id") eqn:Hd; [now rewrite Hd|].
    rewrite lookup_insert_eq. eauto. }
  assert (Hid : is_Some (d2 !! "id")).
  { subst d2. destruct (d1 !! "name"); [exact Hid1|].
    now rewrite lookup_insert_ne. }
  assert (Hname : is_Some (d2 !! "name")).
  { subst d2. destruct (d1 !! "name") eqn:Hd; [now rewrite Hd|].
    rewrite lookup_insert_eq. eauto. }
  destruct (has_truthy "work_dir" d2) eqn:Hwd; cbn [negb].
  - cbn. intros [= <- <-].
    rewrite !lookup_insert_ne by discriminate.
    split; [exact Hid|]. split; [exact Hname|].
    split; [|apply lookup_insert_eq].
    unfold has_truthy, dict_get in *.
    now rewrite lookup_insert_ne by discriminate.
  - unfold bind. rewrite default_work_dir_run.
    destruct (if has_truthy "game_path" d2 then _ else _) as [wd|e] eqn:Hdef;
      [|discriminate].
    cbn. intros [= <- <-].
    rewrite !lookup_insert_ne by discriminate.
    split; [exact Hid|]. split; [exact Hname|].
    split; [|apply lookup_insert_eq].
    unfold has_truthy, dict_get.
    rewrite lookup_insert_ne by discriminate.
    rewrite lookup_insert_eq. cbn.
    destruct (has_truthy "game_path" d2).
    + destruct (dict_get "game_path" d2); try discriminate.
      injection Hdef as <-. apply to_str_truthy.
    + injection Hdef as <-. apply to_str_truthy.
Qed.

(** A record that is not empty comes from the body. *)
Lemma read_game_file_body p w g w' :
  _read_game_file p w = (Ok g, w') -> g <> ∅ ->
  read_game_body p w = (Ok g, w').
Proof.
  unfold _read_game_file, try_except.
  destruct (read_game_body p w) as [[g0|e] w0]; [now intros [= <- <-]|].
  unfold bind, logging, ret. intros [= <- _] Hne. now destruct Hne.
Qed.

(** X2.  A record that [_read_game_file] returns (and not the [{}] of a
    bad file) has an [id], a [name], a non-empty [work_dir] and its
    [meta_path]: the records [load_games] puts in the catalog all satisfy
    what [save_load_roundtrip] asks of a record. *)
Lemma read_game_file_shape p w g w' :
  _read_game_file p w = (Ok g, w') ->
  g <> ∅ ->
  is_Some (g !! "id") /\ is_Some (g !! "name")
  /\ has_truthy "work_dir" g = true
  /\ g !! "meta_path" = Some (JStr (Pathlib.to_str p)).
Proof.
  intros Hread Hne. apply read_game_file_body in Hread; [|exact Hne].
  now apply read_game_body_shape in Hread.
Qed.

End LoadedRecords.

(** ** ArchiveExtractor: what the test on the strings does guarantee *)

#[local] Instance writes_only_preorder ok : PreOrder (writes_only ok).
Proof.
  split; [intros w q ro d Hq; now left|].
  intros w1 w2 w3 H12 H23 q ro d Hq.
  destruct (H23 q ro d Hq) as [Hin|Hok]; [now apply H12|now right].
Qed.

Lemma writes_only_dir ok w q :
  writes_only ok w (with_fs w (<[q := Dir false]> (w_fs w))).
Proof.
  intros q' ro d. cbn. destruct (decide (q = q')) as [->|Hne].
  - now rewrite lookup_insert_eq.
  - rewrite lookup_insert_ne by exact Hne. now left.
Qed.

Lemma writes_only_file (ok : path -> Prop) w q ro d :
  ok q -> writes_only ok w (with_fs w (<[q := File ro d]> (w_fs w))).
Proof.
  intros Hok q' ro' d'. cbn. destruct (decide (q = q')) as [->|Hne].
  - now right.
  - rewrite lookup_insert_ne by exact Hne. now left.
Qed.

Lemma Forall_removelast {A} (P : A -> Prop) (l : list A) :
  Forall P l -> Forall P (removelast l).
Proof.
  induction 1 as [|x l Hx Hl IH]; [constructor|].
  cbn. destruct l; [constructor|]. now constructor.
Qed.

Lemma normalize_no_dotdot comps : forall acc,
  Forall (fun c => c <> "..") acc ->
  Forall (fun c => c <> "..") (Pathlib.normalize acc comps).
Proof.
  induction comps as [|c rest IH]; intros acc Hacc; [exact Hacc|].
  cbn [Pathlib.normalize]. destruct (String.eqb_spec c "..") as [->|Hc].
  - now apply IH, Forall_removelast.
  - apply IH, Forall_app. split; [exact Hacc|]. now constructor.
Qed.

(** A path without [..] leads where its components say. *)
Lemma walk_plain m p comps : forall cur q,
  Forall (fun c => c <> "..") comps ->
  FS.walk m p cur comps = Ok q -> q = cur ++ comps.
Proof.
  induction comps as [|c rest IH]; intros cur q Hplain Hwalk.
  - injection Hwalk as <-. now rewrite app_nil_r.
  - apply Forall_cons in Hplain as [Hc Hrest]. cbn [FS.walk] in Hwalk.
    rewrite (step_name _ _ Hc) in Hwalk.
    destruct rest as [|c' rest'].
    + now injection Hwalk as <-.
    + destruct (m !! (cur ++ [c])) as [[ro d|ro]|]; try discriminate.
      rewrite (IH _ _ Hrest Hwalk), <- app_assoc. reflexivity.
Qed.

Lemma resolved_to_str cwd p :
  Pathlib.to_str (Pathlib.resolve cwd p)
  = loc_str (pp_tail (Pathlib.resolve cwd p)).
Proof. reflexivity. Qed.

Lemma resolved_walk m cwd cwd' p q :
  PyStr.truthy (pp_root p) = true ->
  let out := Pathlib.resolve cwd p in
  FS.walk m out (FS.start cwd' out) (pp_tail out) = Ok q ->
  q = pp_tail out.
Proof.
  intros Hroot out Hwalk. apply walk_plain in Hwalk; [exact Hwalk|].
  subst out. unfold Pathlib.resolve. cbn [pp_tail]. rewrite Hroot.
  apply normalize_no_dotdot. constructor.
Qed.

Lemma take_1_cons c r : PyStr.take 1 (String c r) = String c "".
Proof. unfold PyStr.take. cbn. now destruct r. Qed.

(** A string that begins with a slash parses to a path with a root. *)
Lemma parse_rooted r :
  PyStr.truthy (pp_root (Pathlib.parse Posix (String "/" r))) = true.
Proof.
  unfold Pathlib.parse. cbn [String.eqb Ascii.eqb]. cbv iota.
  unfold Pathlib.splitroot, Pathlib.posix_splitroot.
  rewrite take_1_cons. cbn [String.eqb Ascii.eqb Bool.eqb negb]. cbv iota.
  destruct (negb (String.eqb (PyStr.slice 1 2 (String "/" r)) "/")
            || String.eqb (PyStr.slice 2 3 (String "/" r)) "/");
    [reflexivity|].
  cbv beta iota zeta.
  destruct r as [|c r']; [reflexivity|].
  destruct r' as [|c' r'']; reflexivity.
Qed.

(** Joining a segment to an absolute path gives a path with a root. *)
Lemma joinpath_rooted base seg :
  pp_drive base = "" -> pp_root base = "/" ->
  PyStr.truthy (pp_root (Pathlib.joinpath base seg)) = true.
Proof.
  intros Hdrv Hroot. unfold Pathlib.joinpath.
  assert (Hstr : exists r, Pathlib.to_str base = String "/" r).
  { unfold Pathlib.to_str. rewrite Hdrv, Hroot. cbn. eauto. }
  destruct Hstr as [r ->]. unfold Pathlib.posix_join.
  destruct (PyStr.startswith seg "/") eqn:Hseg.
  - unfold PyStr.startswith in Hseg. destruct seg as [|c seg']; [discriminate|].
    cbn [String.prefix] in Hseg.
    destruct (ascii_dec "/" c) as [<-|]; [apply parse_rooted|discriminate].
  - destruct (_ || _); cbn [String.append]; apply parse_rooted.
Qed.

Lemma write_file_raises p data w e w' :
  FS.write_file p data w = (Raise e, w') -> w' = w.
Proof.
  unfold FS.write_file, FS.open_wb, FS.create, FS.write, bind, get_fs,
    put_fs, ret. rewrite locate_run.
  destruct (FS.walk _ _ _ _) as [q|e0]; [|now intros [= _ <-]].
  destruct (w_fs w !! q) as [[ro d|ro]|].
  - destruct ro; [now intros [= _ <-]|]. cbn.
    rewrite lookup_insert_eq. discriminate.
  - now intros [= _ <-].
  - destruct (w_fs w !! removelast q) as [[ro d|ro]|];
      try (now intros [= _ <-]).
    destruct ro; [now intros [= _ <-]|]. cbn.
    rewrite lookup_insert_eq. discriminate.
Qed.

Section StringPrefix.

Variable base : pure_path.
Hypothesis base_drive : pp_drive base = "".
Hypothesis base_root : pp_root base = "/".

Lemma extract_entry_writes info :
  keeps (writes_only (passes_test base)) (extract_entry base info).
Proof.
  intros w. unfold extract_entry, bind, guard, get_cwd.
  destruct (negb (Pathlib.is_absolute _)); [|reflexivity]. cbn.
  set (out := Pathlib.resolve (w_cwd w)
                (Pathlib.joinpath base (ze_filename info))).
  destruct (PyStr.startswith (Pathlib.to_str out) (Pathlib.to_str base))
    eqn:Htest; [|reflexivity]. cbn.
  destruct (ze_is_dir info).
  - exact (keeps_mkdir_parents (writes_only (passes_test base))
             (writes_only_dir (passes_test base)) out w).
  - pose proof (keeps_mkdir_parents (writes_only (passes_test base))
                  (writes_only_dir (passes_test base)) (Pathlib.parent out) w)
      as Hmk.
    destruct (FS.mkdir_parents (Pathlib.parent out) w) as [[[]|e] w1];
      cbn [snd] in *; [|exact Hmk].
    destruct (ze_data info) as [data|]; [|exact Hmk].
    etransitivity; [exact Hmk|].
    destruct (FS.write_file out data w1) as [[[]|e] w2] eqn:Hwrite.
    + apply write_file_ok in Hwrite as (q & Hwalk & _ & ->).
      apply writes_only_file. unfold passes_test.
      apply resolved_walk in Hwalk;
        [|now apply joinpath_rooted]. subst q.
      now rewrite <- resolved_to_str.
    + apply write_file_raises in Hwrite. subst w2. reflexivity.
Qed.

Lemma extract_entries_write infos :
  keeps (writes_only (passes_test base)) (extract_entries base infos).
Proof.
  induction infos as [|info rest IH]; cbn [extract_entries].
  - frame with keeps_ret.
  - frame with keeps_bind; [apply extract_entry_writes|intros _; exact IH].
Qed.

End StringPrefix.

(** X10.  What [_safe_extract_zip] guarantees, whatever the archive holds:
    every regular file it leaves behind was there before, unchanged, or is at a
    location whose path string begins with the characters of the resolved
    destination.  This is the test the code makes; it is weaker than lying
    within the destination (see [zip_slip_into_sibling_with_same_prefix]). *)
Lemma extraction_writes_where_the_test_passes zf dest_dir w q ro d :
  w_fs (snd (_safe_extract_zip zf dest_dir w)) !! q = Some (File ro d) ->
  w_fs w !! q = Some (File ro d)
  \/ PyStr.startswith (loc_str q)
                      (Pathlib.to_str (Pathlib.resolve (w_cwd w) dest_dir))
     = true.
Proof.
  unfold _safe_extract_zip, bind, get_cwd.
  now apply (extract_entries_write (Pathlib.resolve (w_cwd w) dest_dir)
               eq_refl eq_refl zf w).
Qed.

(** * Further properties *)

(** ** CatalogStore: what loading and saving keep *)

Section ReadEdge.

Context `{JsonCodec}.

Lemma read_game_body_pure p : pure (read_game_body p).
Proof.
  unfold read_game_body. frame with keeps_bind.
  - unfold read_json. frame with keeps_bind; [frame with keeps_read_file|].
    intros bytes. destruct (loads bytes);
      [frame with keeps_ret|frame with keeps_raise].
  - intros [| | | | |d]; try (frame with keeps_raise).
    frame with keeps_bind; [|intros; frame with keeps_ret].
    destruct (negb _); [|frame with keeps_ret].
    frame with keeps_bind; [|intros; frame with keeps_ret].
    unfold default_work_dir. frame with keeps_bind; [frame with keeps_get_cwd|].
    intros cwd. destruct (has_truthy _ _); [|frame with keeps_ret].
    destruct (dict_get _ _); try (frame with keeps_raise).
    frame with keeps_bind; [frame with keeps_exists|intros; frame with keeps_ret].
Qed.

Lemma read_game_body_meta p w g w' :
  read_game_body p w = (Ok g, w') ->
  g !! "meta_path" = Some (JStr (Pathlib.to_str p)).
Proof.
  unfold read_game_body. intros Hrun.
  apply bind_ok_inv in Hrun as (data & w1 & _ & Hrun).
  destruct data as [| | | | |d]; try discriminate.
  apply bind_ok_inv in Hrun as (d' & w2 & _ & Hrun).
  injection Hrun as <- _. apply lookup_insert_eq.
Qed.

(** X1.  [_read_game_file] never raises and never changes the file
    system.  Either it returns a record that carries the path of the file
    as its [meta_path] and leaves the world as it was, or it returns the
    empty record and logs one warning, which names the file and gives the
    reason. *)
Theorem read_game_file_never_raises (p : pure_path) (w : world) :
  exists (g : game) (w' : world),
    _read_game_file p w = (Ok g, w')
    /\ ((g !! "meta_path" = Some (JStr (Pathlib.to_str p)) /\ w' = w)
        \/ (g = ∅
            /\ exists reason : string,
                w' = with_log w WARNING
                       ("Skipping bad game file " +:+ Pathlib.name p
                        +:+ ": " +:+ reason))).
Proof.
  unfold _read_game_file, try_except.
  pose proof (pure_run _ w (read_game_body_pure p)) as Hpure.
  destruct (fst (read_game_body p w)) as [g|e] eqn:Hbody; rewrite Hpure.
  - exists g, w. split; [reflexivity|left]. split; [|reflexivity].
    exact (read_game_body_meta _ _ _ _ Hpure).
  - eexists ∅, _. split; [reflexivity|right]. split; [reflexivity|].
    now exists (exn_msg e).
Qed.

(** X3.  Loading keeps what the file says.  Every field of the JSON object
    in the file is in the loaded record with the value it has in the file,
    except [meta_path], which is set to the path of the file, and a
    [work_dir] that is empty, which is replaced.  A missing [id] is the stem
    of the file name, and a missing [name] is the [id]. *)
Theorem read_game_file_keeps_fields
        (p : pure_path) (w w' : world) (bytes : string) (d g : game)
        (Hfile : fst (FS.read_file p w) = Ok bytes)
        (Hloads : loads bytes = Some (JObj d))
        (Hread : _read_game_file p w = (Ok g, w'))
        (Hrecord : g !! "meta_path" = Some (JStr (Pathlib.to_str p))) :
  (forall k v, d !! k = Some v -> k <> "meta_path" ->
               (k = "work_dir" -> truthy v = true) -> g !! k = Some v)
  /\ (d !! "id" = None -> g !! "id" = Some (JStr (Pathlib.stem p)))
  /\ (d !! "name" = None -> g !! "name" = g !! "id").
Proof.
  revert Hread.
  unfold _read_game_file, try_except, read_game_body, bind at 1.
  rewrite read_json_run, Hfile, Hloads. cbn [fst].
  pose proof (completed_lookup d (Pathlib.stem p)) as Hk. cbv zeta in Hk.
  set (d1 := match d !! "id" with
             | Some _ => d
             | None => <["id" := JStr (Pathlib.stem p)]> d
             end) in *.
  set (d2 := match d1 !! "name" with
             | Some _ => d1
             | None => <["name" := dict_get "id" d1]> d1
             end) in *.
  assert (Hid1 : forall v, d !! "id" = Some v -> d1 !! "id" = Some v).
  { intros v Hv. subst d1. now rewrite Hv. }
  assert (Hid0 : d !! "id" = None -> d1 !! "id" = Some (JStr (Pathlib.stem p))).
  { intros Hv. subst d1. rewrite Hv. apply lookup_insert_eq. }
  assert (Hid2 : d2 !! "id" = d1 !! "id").
  { subst d2. destruct (d1 !! "name"); [reflexivity|].
    now rewrite lookup_insert_ne. }
  assert (Hname1 : forall v, d !! "name" = Some v -> d2 !! "name" = Some v).
  { intros v Hv. assert (Hv1 : d1 !! "name" = Some v).
    { subst d1. destruct (d !! "id"); [exact Hv|].
      now rewrite lookup_insert_ne. }
    subst d2. now rewrite Hv1. }
  assert (Hname0 : d !! "name" = None -> d2 !! "name" = d2 !! "id").
  { intros Hv. assert (Hv1 : d1 !! "name" = None).
    { subst d1. destruct (d !! "id"); [exact Hv|].
      now rewrite lookup_insert_ne. }
    rewrite Hid2. subst d2. rewrite Hv1, lookup_insert_eq.
    unfold dict_get. destruct (d !! "id") as [v|] eqn:Hd.
    - now rewrite (Hid1 v eq_refl).
    - now rewrite (Hid0 eq_refl). }
  assert (Hd2 : forall k v, d !! k = Some v -> d2 !! k = Some v).
  { intros k v Hv. destruct (decide (k = "id")) as [->|Hki].
    - rewrite Hid2. now apply Hid1.
    - destruct (decide (k = "name")) as [->|Hkn]; [now apply Hname1|].
      now rewrite Hk. }
  assert (Hshape : forall g0 : game,
             (forall k, k <> "meta_path" -> k <> "work_dir" -> g0 !! k = d2 !! k) ->
             (has_truthy "work_dir" d2 = true -> g0 !! "work_dir" = d2 !! "work_dir") ->
             (forall k v, d !! k = Some v -> k <> "meta_path" ->
                          (k = "work_dir" -> truthy v = true) -> g0 !! k = Some v)
             /\ (d !! "id" = None -> g0 !! "id" = Some (JStr (Pathlib.stem p)))
             /\ (d !! "name" = None -> g0 !! "name" = g0 !! "id")).
  { intros g0 Hother Hwd. split; [|split].
    - intros k v Hv Hmeta Htruthy.
      destruct (decide (k = "work_dir")) as [->|Hkw].
      + rewrite Hwd; [now apply Hd2|].
        unfold has_truthy, dict_get. rewrite (Hd2 _ _ Hv). now apply Htruthy.
      + rewrite Hother by assumption. now apply Hd2.
    - intros Hv. rewrite Hother by discriminate. rewrite Hid2. now apply Hid0.
    - intros Hv. rewrite !Hother by discriminate. now apply Hname0. }
  destruct (has_truthy "work_dir" d2) eqn:Hwd; cbn [negb].
  - cbn. intros [= <- <-]. apply Hshape.
    + intros k Hm _. now rewrite lookup_insert_ne.
    + intros _. now rewrite lookup_insert_ne.
  - unfold bind. rewrite default_work_dir_run.
    destruct (if has_truthy "game_path" d2 then _ else _) as [wd|e];
      [|cbn; intros [= <- <-]; now rewrite lookup_empty in Hrecord].
    cbn. intros [= <- <-]. apply Hshape.
    + intros k Hm Hw. now rewrite !lookup_insert_ne.
    + discriminate.
Qed.

End ReadEdge.

Lemma same_but_fs_with_fs w m : same_but_fs w (with_fs w m).
Proof. now repeat split. Qed.

Lemma same_but_fs_dir w q :
  same_but_fs w (with_fs w (<[q := Dir false]> (w_fs w))).
Proof. apply same_but_fs_with_fs. Qed.

Section SaveEdge.

Context `{JsonCodec} `{PyRepr}.

Lemma write_game_file_same_but_fs g : keeps same_but_fs (_write_game_file g).
Proof.
  unfold _write_game_file. intros w. unfold bind.
  rewrite derive_gid_run. destruct (fst (derive_gid g w)) as [gid|e];
    [|reflexivity].
  rewrite target_path_run. destruct (fst (target_path g gid w)) as [p|e];
    [|reflexivity].
  pose proof (keeps_mkdir_parents same_but_fs same_but_fs_dir
                (Pathlib.parent p) w) as Hmk.
  destruct (FS.mkdir_parents (Pathlib.parent p) w) as [[[]|e] w1];
    cbn [snd] in *; [|exact Hmk].
  pose proof (keeps_write_file same_but_fs same_but_fs_with_fs
                p (dumps (JObj (to_save g))) w1) as Hwr.
  destruct (FS.write_file p _ w1) as [[[]|e] w2]; cbn [snd] in *;
    now transitivity w1.
Qed.

(** X4.  A save that returns has changed no regular file but the one it
    wrote: a regular file found after [_write_game_file] returned was there
    before with the same content, or it is the file the returned path leads
    to, is writable and holds the serialisation of the record without its
    [meta_path]. *)
Theorem write_game_file_changes_one_file
        (g g' : game) (p : pure_path) (w w' : world)
        (q : path) (ro : bool) (d : string)
        (Hsaved : _write_game_file g w = (Ok (p, g'), w'))
        (Hafter : w_fs w' !! q = Some (File ro d)) :
  w_fs w !! q = Some (File ro d)
  \/ (FS.walk (w_fs w') p (FS.start (w_cwd w') p) (pp_tail p) = Ok q
      /\ ro = false /\ d = dumps (JObj (to_save g))).
Proof.
  revert Hsaved. unfold _write_game_file. intros Hrun.
  apply bind_ok_inv in Hrun as (gid & wa & Hgid & Hrun).
  rewrite derive_gid_run in Hgid. injection Hgid as _ <-.
  apply bind_ok_inv in Hrun as (p0 & wb & Hp & Hrun).
  rewrite target_path_run in Hp. injection Hp as _ <-.
  apply bind_ok_inv in Hrun as (u1 & w1 & Hmk & Hrun).
  apply bind_ok_inv in Hrun as (u2 & w2 & Hwr & Hrun).
  injection Hrun as <- _ <-.
  pose proof (keeps_mkdir_parents (writes_only (fun _ => False))
                (writes_only_dir _) (Pathlib.parent p0) w) as Hfiles.
  rewrite Hmk in Hfiles. cbn [snd] in Hfiles.
  apply write_file_ok in Hwr as (q' & Hwalk & Hnodir & ->).
  cbn [w_fs w_cwd with_fs] in *.
  destruct (decide (q' = q)) as [->|Hne].
  - rewrite lookup_insert_eq in Hafter. injection Hafter as <- <-.
    right. split; [|now split]. now apply walk_insert_file.
  - rewrite lookup_insert_ne in Hafter by exact Hne.
    now destruct (Hfiles _ _ _ Hafter); [left|].
Qed.

(** X6.  [save_games] always returns.  It goes through the records in
    order and changes a record at most by setting its [meta_path].  It logs
    nothing but errors, at most one for each record, and it leaves the
    working directory, the callbacks and the host alone. *)
Theorem save_games_only_sets_meta_path (games : list game) (w : world) :
  exists (out : list game) (errors : list (log_level * string)) (w' : world),
    save_games games w = (Ok out, w')
    /\ Forall2 (fun g g' =>
                  g' = g
                  \/ exists p, g' = <["meta_path" := JStr (Pathlib.to_str p)]> g)
               games out
    /\ w_log w' = w_log w ++ errors
    /\ Forall (fun r => fst r = ERROR) errors
    /\ length errors <= length games
    /\ w_cwd w' = w_cwd w /\ w_events w' = w_events w
    /\ w_calls w' = w_calls w.
Proof.
  revert w. induction games as [|g rest IH]; intros w.
  - exists [], [], w. rewrite app_nil_r. repeat split; constructor.
  - cbn [save_games]. unfold bind, try_except, ret, logging.
    pose proof (write_game_file_same_but_fs g w) as (Hcwd & Hlog & Hev & Hcalls).
    destruct (_write_game_file g w) as [[[p g']|e] w1] eqn:Hrun; cbn [snd] in *.
    + destruct (IH w1) as (out & errors & w2 & Hrest & Hrel & Hl & Herr & Hlen
                           & Hc2 & He2 & Hk2).
      exists (g' :: out), errors, w2. rewrite Hrest.
      apply write_game_file_ok in Hrun as (-> & _).
      split; [reflexivity|]. split; [constructor; [right; eauto|exact Hrel]|].
      split; [congruence|]. split; [exact Herr|]. split; [cbn; lia|].
      repeat split; congruence.
    + set (w1' := World _ _ _ _ _).
      destruct (IH w1') as (out & errors & w2 & Hrest & Hrel & Hl & Herr & Hlen
                            & Hc2 & He2 & Hk2).
      exists (g :: out),
        ((ERROR, "Save failed for "
                 +:+ py_str (default (JStr "(no id)") (g !! "id"))
                 +:+ ": " +:+ exn_msg e) :: errors), w2.
      rewrite Hrest.
      split; [reflexivity|]. split; [constructor; [now left|exact Hrel]|].
      split; [rewrite Hl; subst w1'; cbn; rewrite Hlog, <- app_assoc; reflexivity|].
      split; [now constructor|]. split; [cbn; lia|].
      subst w1'. cbn in *. repeat split; congruence.
Qed.

(** X9.  When [games] is a regular file, [load_games] raises the
    [FileExistsError] of [mkdir(exist_ok=True)] and leaves the world as it
    was. *)
Theorem load_games_blocked_by_a_file
        (w : world) (ro : bool) (data : string)
        (Hfile : w_fs w !! games_loc (w_cwd w) = Some (File ro data)) :
  load_games w = (Raise (FS.os_error FileExistsError GAMES_DIR), w).
Proof.
  unfold load_games, bind at 1 2, get_cwd.
  unfold FS.mkdir, try_except.
  rewrite (os_mkdir_existing _ _ _ _ (games_dir_walk _ _) Hfile).
  cbv beta iota. change (exn_cls (FS.os_error FileExistsError GAMES_DIR))
    with FileExistsError. cbv iota.
  unfold bind, FS.is_dir, try_except. unfold bind.
  rewrite (stat_run _ _ _ (games_dir_walk _ _)), Hfile. reflexivity.
Qed.

Lemma omap_none {A B} (f : A -> option B) (l : list A) :
  Forall (fun x => f x = None) l -> omap f l = [].
Proof.
  induction 1 as [|x l Hx _ IH]; [reflexivity|]. cbn. now rewrite Hx.
Qed.

Lemma listdir_new_directory (m : gmap path node) (d : path) nd :
  (forall nm, m !! (d ++ [nm]) = None) ->
  FS.listdir (<[d := nd]> m) d = [].
Proof.
  intros Hempty. unfold FS.listdir. apply omap_none, Forall_forall.
  intros [k v] Hin. apply elem_of_map_to_list in Hin. cbn [fst].
  unfold FS.entry_name. destruct k as [|c k']; [reflexivity|].
  destruct (decide (removelast (c :: k') = d)) as [Hd|]; [|reflexivity].
  exfalso. assert (Hk : c :: k' = d ++ [List.last (c :: k') ""]).
  { rewrite <- Hd. now apply app_removelast_last. }
  rewrite Hk in Hin. rewrite lookup_insert_ne in Hin.
  - now rewrite Hempty in Hin.
  - intros Heq. apply (f_equal length) in Heq. rewrite length_app in Heq.
    cbn in Heq. lia.
Qed.

Lemma entry_name_child d nm : FS.entry_name d (d ++ [nm]) = Some nm.
Proof.
  unfold FS.entry_name. destruct (d ++ [nm]) as [|c q] eqn:Hq.
  - now destruct d.
  - rewrite <- Hq, removelast_last, last_last.
    now destruct (decide (d = d)).
Qed.

Lemma listdir_nil_lookup (m : gmap path node) d nm :
  FS.listdir m d = [] -> m !! (d ++ [nm]) = None.
Proof.
  intros Hnil. destruct (m !! (d ++ [nm])) as [nd|] eqn:Hq; [|reflexivity].
  exfalso. apply elem_of_map_to_list in Hq.
  assert (Hin : nm ∈ FS.listdir m d).
  { unfold FS.listdir. apply list_elem_of_omap. exists (d ++ [nm], nd).
    split; [exact Hq|apply entry_name_child]. }
  rewrite Hnil in Hin. now apply elem_of_nil in Hin.
Qed.

(** X8.  The first run.  When the working directory is a writable
    directory with no entry [games], and nothing is recorded below that
    name, [load_games] creates the directory, saves the placeholder as
    [sample.json] in it and returns the placeholder alone, with its
    [meta_path]; nothing else changes. *)
Theorem load_games_first_run_creates_catalog
        (w : world)
        (Hcwd : w_fs w !! w_cwd w = Some (Dir false))
        (Hnone : w_fs w !! games_loc (w_cwd w) = None)
        (Hempty : FS.listdir (w_fs w) (games_loc (w_cwd w)) = []) :
  load_games w
  = (Ok [<["meta_path" := JStr "games/sample.json"]> (placeholder (w_cwd w))],
     with_fs w
       (<[sample_loc (w_cwd w) :=
            File false (dumps (JObj (placeholder (w_cwd w))))]>
          (<[games_loc (w_cwd w) := Dir false]> (w_fs w)))).
Proof.
  assert (Hchild : forall nm, w_fs w !! (games_loc (w_cwd w) ++ [nm]) = None)
    by (intros nm; now apply listdir_nil_lookup).
  set (w1 := with_fs w (<[games_loc (w_cwd w) := Dir false]> (w_fs w))).
  assert (Hdir : w_fs w1 !! games_loc (w_cwd w1) = Some (Dir false))
    by apply lookup_insert_eq.
  assert (Hmk : FS.mkdir true GAMES_DIR w = (Ok tt, w1)).
  { unfold FS.mkdir, try_except, FS.os_mkdir, bind, get_fs.
    rewrite locate_run, games_dir_walk, Hnone.
    unfold FS.create, bind, get_fs. unfold games_loc at 1.
    rewrite removelast_last, Hcwd. reflexivity. }
  assert (Hsame : load_games w = load_games w1).
  { unfold load_games, bind, get_cwd.
    now rewrite Hmk, (mkdir_existing _ _ _ _ (games_dir_walk _ _) Hdir). }
  rewrite Hsame, (load_games_scan _ _ Hdir).
  assert (Hnames : catalog_names (w_fs w1) (w_cwd w1) = []).
  { unfold catalog_names. subst w1. cbn [w_fs w_cwd with_fs].
    now rewrite listdir_new_directory. }
  rewrite Hnames. cbn [map scan_games]. unfold bind at 1, ret at 1.
  assert (Hfree : w_fs w1 !! sample_loc (w_cwd w1) = None).
  { subst w1. cbn [w_fs w_cwd with_fs]. rewrite lookup_insert_ne.
    - apply Hchild.
    - intros Heq. apply (f_equal length) in Heq. unfold sample_loc in Heq.
      rewrite length_app in Heq. cbn in Heq. lia. }
  unfold bind. change (w_cwd w) with (w_cwd w1).
  rewrite (write_placeholder w1 Hdir (or_introl Hfree)). reflexivity.
Qed.

End SaveEdge.

(** ** Downloader: the bytes written and the callbacks *)

Lemma append_empty_r (s : string) : s +:+ "" = s.
Proof.
  induction s as [|c s IH]; [reflexivity|].
  change (String c s +:+ "") with (String c (s +:+ "")). now f_equal.
Qed.

Lemma append_assoc (a b c : string) : (a +:+ b) +:+ c = a +:+ (b +:+ c).
Proof.
  induction a as [|x a IH]; [reflexivity|].
  change (String x ((a +:+ b) +:+ c) = String x (a +:+ (b +:+ c))).
  now f_equal.
Qed.

Lemma concat_cons (x : string) (l : list string) :
  String.concat "" (x :: l) = x +:+ String.concat "" l.
Proof.
  destruct l; [|reflexivity].
  change (x = x +:+ ""). now rewrite append_empty_r.
Qed.

Lemma not_truthy_empty (s : string) : PyStr.truthy s = false -> s = "".
Proof. now destruct s. Qed.

Section DownloadEdge.

Context `{Network} `{ZipCodec}.

Lemma declared_total_run r w :
  declared_total r w = (fst (declared_total r w), w).
Proof.
  unfold declared_total. cbv zeta.
  destruct (PyStr.truthy _); [|reflexivity]. now destruct (PyInt.of_str _).
Qed.

(** What the loop over the chunks leaves in the open file. *)
Lemma write_chunks_fs f total progress_cb chunks :
  forall downloaded w ro old,
    w_fs w !! f = Some (File ro old) ->
    exists n w',
      write_chunks f total progress_cb chunks downloaded w = (Ok n, w')
      /\ w_fs w' = <[f := File ro (old +:+ String.concat "" chunks)]> (w_fs w).
Proof.
  induction chunks as [|chunk rest IH]; intros downloaded w ro old Hf;
    cbn [write_chunks].
  - exists downloaded, w. split; [reflexivity|].
    cbn. rewrite append_empty_r. symmetry. now apply insert_id.
  - rewrite concat_cons. destruct (PyStr.truthy chunk) eqn:Hchunk; cbn [negb].
    + unfold bind at 1. unfold FS.write, bind at 1, get_fs. rewrite Hf.
      unfold put_fs. unfold bind at 1.
      set (w1 := World (<[f := File ro (old +:+ chunk)]> (w_fs w)) _ _ _ _).
      assert (Hev : exists w2,
                 (if negb (total =? 0)%Z && progress_cb
                  then emit (Progress (inject_Z (downloaded + len chunk)
                                       / inject_Z total))
                  else ret tt) w1 = (Ok tt, w2)
                 /\ w_fs w2 = w_fs w1).
      { destruct (_ && _); eexists; split; reflexivity. }
      destruct Hev as (w2 & -> & Hfs).
      destruct (IH (downloaded + len chunk)%Z w2 ro (old +:+ chunk))
        as (n & w' & Hrun & Hfs').
      { rewrite Hfs. apply lookup_insert_eq. }
      exists n, w'. split; [exact Hrun|].
      rewrite Hfs', Hfs. subst w1. cbn [w_fs].
      now rewrite insert_insert_eq, append_assoc.
    + apply not_truthy_empty in Hchunk as ->. cbn [String.append].
      now apply IH.
Qed.

(** X13.  What a download leaves in [dest].  Take a response that passes
    [raise_for_status], whose [Content-Length] reads as a number, and a
    [dest] that could be opened; and suppose [download_update] returned, or
    raised the error of the transfer and no other, so that every write to
    [dest] went through.  Then the file at [dest] holds the chunks received,
    one after the other and nothing else, and no other entry of the file
    system changed since [dest] was opened.  This covers a transfer that
    breaks (the file keeps the chunks received before the error) and one
    that completes with no archive to extract. *)
Theorem download_writes_the_chunks_in_order
        (url dest extract_to : string) (progress_cb status_cb : bool)
        (w w1 : world) (r : response) (total : Z) (f : path)
        (Hget : http_get url = Ok r)
        (Hstatus : ~ (400 <= status_code r < 600)%Z)
        (Htotal : fst (declared_total r w) = Ok total)
        (Hopen : (FS.mkdir_parents (Pathlib.parent (Pathlib.parse Posix dest)) >>
                  open_named dest) w = (Ok f, w1))
        (Hstop : is_Some (body_error r)
                 \/ PyStr.endswith (PyStr.lower dest) ".zip"
                    && PyStr.truthy extract_to = false)
        (Hresult : fst (download_update url dest extract_to
                                        progress_cb status_cb w)
                   = match body_error r with
                     | Some e => Raise e
                     | None => Ok tt
                     end) :
  w_fs (snd (download_update url dest extract_to progress_cb status_cb w))
  = <[f := File false (String.concat "" (body_chunks r))]> (w_fs w1).
Proof.
  assert (Hfetch : exists w2,
             fetch_to_file url dest progress_cb w
             = (match body_error r with Some e => Raise e | None => Ok tt end,
                w2)
             /\ w_fs w2
                = <[f := File false (String.concat "" (body_chunks r))]>
                    (w_fs w1)).
  { rewrite (fetch_to_file_run url dest progress_cb w r total Hget
               (raise_for_status_passes _ _ _ Hstatus))
      by (now rewrite declared_total_run, Htotal).
    apply bind_ok_inv in Hopen as (u & wa & Hmk & Hopen).
    rewrite (bind_ok _ _ _ _ _ Hmk), (bind_ok _ _ _ _ _ Hopen).
    assert (Hf : w_fs w1 !! f = Some (File false "")).
    { revert Hopen. unfold open_named, named. cbv zeta.
      destruct (String.eqb dest ""); [discriminate|].
      destruct (ends_in_dot dest && _).
      { unfold try_except, bind.
        destruct (FS.stat _ wa) as [[nd|e] w0]; discriminate. }
      destruct (PyStr.endswith dest "/" && _).
      - unfold bind.
        match goal with
        | |- context [try_except ?c ?h wa] =>
            destruct (try_except c h wa) as [[b|e] w0]; discriminate
        end.
      - unfold try_except.
        destruct (FS.open_wb (Pathlib.parse Posix dest) wa)
          as [[f0|e] w0] eqn:Hopen; [|discriminate].
        intros [= <- <-]. apply open_wb_ok in Hopen as (_ & _ & ->).
        apply lookup_insert_eq. }
    destruct (write_chunks_fs f total progress_cb (body_chunks r) 0%Z w1
                false "" Hf) as (n & w2 & Hrun & Hfs).
    rewrite (bind_ok _ _ _ _ _ Hrun). exists w2. split; [|exact Hfs].
    now destruct (body_error r). }
  destruct Hfetch as (w2 & Hfetch & Hfs). clear Hresult.
  unfold download_update, bind. rewrite Hfetch.
  destruct (body_error r) as [e|]; [exact Hfs|].
  destruct Hstop as [[e He]|Hplain]; [discriminate|].
  rewrite Hplain. exact Hfs.
Qed.

(** X14.  A [Content-Length] that [int] cannot read stops the download
    before anything is touched: when the response passes [raise_for_status]
    and its [Content-Length] is not empty, is in ASCII and is no integer
    literal, [download_update] raises a [ValueError] and the world is as it
    was.  ([int] is modelled for ASCII strings, hence the condition.) *)
Theorem download_rejects_malformed_length
        (url dest extract_to : string) (progress_cb status_cb : bool)
        (w : world) (r : response) (header : string)
        (Hget : http_get url = Ok r)
        (Hstatus : ~ (400 <= status_code r < 600)%Z)
        (Hheader : content_length r = Some header)
        (Hgiven : PyStr.truthy header = true)
        (Hascii : PyStr.isascii header = true)
        (Hint : PyInt.of_str header = None) :
  exists e : exn,
    download_update url dest extract_to progress_cb status_cb w = (Raise e, w)
    /\ exn_cls e = ValueError.
Proof.
  exists (Exn ValueError (PyInt.error_message header)).
  split; [|reflexivity].
  unfold download_update, fetch_to_file, bind, lift. rewrite Hget.
  rewrite (raise_for_status_passes _ _ _ Hstatus).
  unfold declared_total. rewrite Hheader.
  unfold default, from_option, id. cbv zeta. now rewrite Hgiven, Hint.
Qed.

Lemma write_chunks_events f total progress_cb chunks :
  forall downloaded w,
    exists fractions : list Q,
      w_events (snd (write_chunks f total progress_cb chunks downloaded w))
      = w_events w ++ map Progress fractions
      /\ (progress_cb = false -> fractions = []).
Proof.
  induction chunks as [|chunk rest IH]; intros downloaded w;
    cbn [write_chunks].
  - exists []. cbn. now rewrite app_nil_r.
  - destruct (negb (PyStr.truthy chunk)); [apply IH|].
    unfold bind at 1.
    pose proof (keeps_write same_events ltac:(easy) f chunk w) as Hw.
    assert (Hok : exists w1, FS.write f chunk w = (Ok tt, w1)).
    { unfold FS.write, bind, get_fs, put_fs, ret.
      destruct (w_fs w !! f) as [[ro old|ro]|]; eauto. }
    destruct Hok as (w1 & Hrun). rewrite Hrun in *. cbn [snd] in Hw.
    unfold bind at 1.
    destruct (negb (total =? 0)%Z && progress_cb) eqn:Hcb.
    + unfold emit at 1.
      destruct (IH (downloaded + len chunk)%Z
                   (World (w_fs w1) (w_cwd w1) (w_log w1)
                      (w_events w1
                       ++ [Progress (inject_Z (downloaded + len chunk)
                                     / inject_Z total)])
                      (w_calls w1))) as (fr & Hev & Hnone).
      exists ((inject_Z (downloaded + len chunk) / inject_Z total)%Q :: fr).
      rewrite Hev. cbn [w_events map]. rewrite Hw, <- app_assoc.
      split; [reflexivity|].
      intros ->. now rewrite andb_false_r in Hcb.
    + unfold ret at 1.
      destruct (IH (downloaded + len chunk)%Z w1) as (fr & Hev & Hnone).
      exists fr. now rewrite Hev, Hw.
Qed.

Lemma fetch_to_file_events url dest progress_cb w :
  exists fractions : list Q,
    w_events (snd (fetch_to_file url dest progress_cb w))
    = w_events w ++ map Progress fractions
    /\ (progress_cb = false -> fractions = []).
Proof.
  assert (Hsame : forall w', w_events w' = w_events w ->
            exists fractions : list Q,
              w_events w' = w_events w ++ map Progress fractions
              /\ (progress_cb = false -> fractions = [])).
  { intros w' ->. exists []. cbn. now rewrite app_nil_r. }
  unfold fetch_to_file, bind at 1, lift.
  destruct (http_get url) as [r|e]; [|now apply Hsame].
  unfold bind at 1. rewrite raise_for_status_run.
  destruct (fst (raise_for_status url r w)); [|now apply Hsame].
  unfold bind at 1. rewrite declared_total_run.
  destruct (fst (declared_total r w)) as [total|e]; [|now apply Hsame].
  unfold bind at 1.
  pose proof (keeps_mkdir_parents same_events ltac:(easy)
                (Pathlib.parent (Pathlib.parse Posix dest)) w) as Hmk.
  destruct (FS.mkdir_parents _ w) as [[[]|e] w1]; cbn [snd] in Hmk;
    [|now apply Hsame].
  unfold bind at 1.
  pose proof (keeps_open_named same_events ltac:(easy) dest w1) as Hop.
  unfold same_events in *.
  destruct (open_named dest w1) as [[f|e] w2]; cbn [snd] in Hop;
    [|apply Hsame; cbn [snd]; congruence].
  destruct (write_chunks_events f total progress_cb (body_chunks r) 0%Z w2)
    as (fr & Hev & Hnone).
  exists fr. split; [|exact Hnone].
  unfold bind.
  destruct (write_chunks f total progress_cb (body_chunks r) 0%Z w2)
    as [[n|e] w3]; cbn [snd] in *.
  - destruct (body_error r); cbn; congruence.
  - congruence.
Qed.

(** X15.  The calls [download_update] makes to its callbacks, in order:
    first the progress fractions, then, at most once, the status
    [Extracting…].  The status is reported exactly when a status callback
    was passed, [dest] ends in [.zip] whatever the case of its letters,
    [extract_to] is not empty and the [with] block ([fetch_to_file])
    completed.  Without a progress callback no fraction is reported. *)
Theorem download_reports_in_order
        (url dest extract_to : string) (progress_cb status_cb : bool)
        (w : world) :
  exists fractions : list Q,
    w_events (snd (download_update url dest extract_to progress_cb status_cb w))
    = w_events w ++ map Progress fractions
      ++ (if status_cb
             && (PyStr.endswith (PyStr.lower dest) ".zip"
                 && PyStr.truthy extract_to)
             && match fst (fetch_to_file url dest progress_cb w) with
                | Ok _ => true
                | Raise _ => false
                end
          then [Status "Extracting…"] else [])
    /\ (progress_cb = false -> fractions = []).
Proof.
  destruct (fetch_to_file_events url dest progress_cb w) as (fr & Hev & Hnone).
  exists fr. split; [|exact Hnone].
  unfold download_update, bind at 1.
  destruct (fetch_to_file url dest progress_cb w) as [[[]|e] w1];
    cbn [fst snd] in *.
  2:{ rewrite andb_false_r, app_nil_r. exact Hev. }
  rewrite andb_true_r.
  destruct (PyStr.endswith (PyStr.lower dest) ".zip" && PyStr.truthy extract_to).
  2:{ rewrite andb_false_r, app_nil_r. exact Hev. }
  rewrite andb_true_r. unfold bind at 1.
  assert (Hrest : forall w2,
             w_events (snd ((let* zf := open_zip dest in
                             _safe_extract_zip zf (Pathlib.parse Posix extract_to))
                              w2))
             = w_events w2).
  { change (keeps same_events
              (let* zf := open_zip dest in
               _safe_extract_zip zf (Pathlib.parse Posix extract_to))).
    frame with keeps_bind; [frame with keeps_open_zip; easy|intros zf].
    frame with keeps_safe_extract_zip. easy. }
  destruct status_cb; cbn [andb].
  - unfold emit at 1. rewrite Hrest. cbn [w_events].
    now rewrite Hev, <- app_assoc.
  - unfold ret at 1. rewrite Hrest, app_nil_r. exact Hev.
Qed.

End DownloadEdge.

(** ** Strings as lists of bytes *)

Lemma chars_app (a b : string) :
  PyStr.chars (a +:+ b) = PyStr.chars a ++ PyStr.chars b.
Proof.
  induction a as [|c a IH]; [reflexivity|].
  change (c :: PyStr.chars (a +:+ b) = c :: (PyStr.chars a ++ PyStr.chars b)).
  now f_equal.
Qed.

Lemma chars_of_chars l : PyStr.chars (PyStr.of_chars l) = l.
Proof. apply list_ascii_of_string_of_list_ascii. Qed.

Lemma of_chars_chars s : PyStr.of_chars (PyStr.chars s) = s.
Proof. apply string_of_list_ascii_of_string. Qed.

Lemma chars_inj a b : PyStr.chars a = PyStr.chars b -> a = b.
Proof.
  intros Heq. rewrite <- (of_chars_chars a), <- (of_chars_chars b).
  now rewrite Heq.
Qed.

Lemma of_chars_app l l' :
  PyStr.of_chars (l ++ l') = PyStr.of_chars l +:+ PyStr.of_chars l'.
Proof.
  apply chars_inj. now rewrite chars_app, !chars_of_chars.
Qed.

Lemma append_inv_head (s a b : string) : s +:+ a = s +:+ b -> a = b.
Proof.
  intros Heq. apply chars_inj. apply (f_equal PyStr.chars) in Heq.
  rewrite !chars_app in Heq. now apply app_inv_head in Heq.
Qed.

Lemma append_inv_tail (s a b : string) : a +:+ s = b +:+ s -> a = b.
Proof.
  intros Heq. apply chars_inj. apply (f_equal PyStr.chars) in Heq.
  rewrite !chars_app in Heq. now apply app_inv_tail in Heq.
Qed.

Lemma truthy_chars s : PyStr.truthy s = true <-> PyStr.chars s <> [].
Proof. destruct s; cbn; split; intros; congruence. Qed.

(** ** [lower] and [replace] *)

Lemma lower_ascii_idem c :
  PyStr.lower_ascii (PyStr.lower_ascii c) = PyStr.lower_ascii c.
Proof. destruct c as [[] [] [] [] [] [] [] []]; reflexivity. Qed.

Lemma lower_ascii_code c n :
  n = 226 \/ n = 132 \/ n = 170 ->
  (nat_of_ascii (PyStr.lower_ascii c) =? n)%nat = (nat_of_ascii c =? n)%nat.
Proof.
  intros [->|[->| ->]]; destruct c as [[] [] [] [] [] [] [] []]; reflexivity.
Qed.

Lemma underscore_code c n :
  n = 226 \/ n = 132 \/ n = 170 ->
  (nat_of_ascii (underscore c) =? n)%nat = (nat_of_ascii c =? n)%nat.
Proof.
  intros [->|[->| ->]]; destruct c as [[] [] [] [] [] [] [] []]; reflexivity.
Qed.

Lemma underscore_lower c :
  underscore (PyStr.lower_ascii c) = PyStr.lower_ascii (underscore c).
Proof. destruct c as [[] [] [] [] [] [] [] []]; reflexivity. Qed.

Lemma underscore_idem c : underscore (underscore c) = underscore c.
Proof. destruct c as [[] [] [] [] [] [] [] []]; reflexivity. Qed.

Lemma lower_ascii_slash c : c <> "/"%char -> PyStr.lower_ascii c <> "/"%char.
Proof.
  destruct c as [[] [] [] [] [] [] [] []]; intros Hc; try discriminate.
  now destruct Hc.
Qed.

Lemma underscore_slash c : c <> "/"%char -> underscore c <> "/"%char.
Proof.
  destruct c as [[] [] [] [] [] [] [] []]; intros Hc; try discriminate.
  now destruct Hc.
Qed.

(** One step of [lower_chars]. *)
Lemma lower_chars_cons c l :
  PyStr.lower_chars (c :: l)
  = if kelvin (c :: l) then "k"%char :: PyStr.lower_chars (skipn 2 l)
    else PyStr.lower_ascii c :: PyStr.lower_chars l.
Proof. destruct l as [|c1 [|c2 l'']]; reflexivity. Qed.

Lemma kelvin_head c l : kelvin (c :: l) = true -> (nat_of_ascii c =? 226)%nat = true.
Proof.
  destruct l as [|c1 [|c2 l'']]; try discriminate. cbn.
  now destruct (nat_of_ascii c =? 226)%nat.
Qed.

Lemma lower_chars_other c l :
  (nat_of_ascii c =? 226)%nat = false ->
  PyStr.lower_chars (c :: l) = PyStr.lower_ascii c :: PyStr.lower_chars l.
Proof.
  intros Hc. rewrite lower_chars_cons.
  destruct (kelvin (c :: l)) eqn:Hk; [|reflexivity].
  apply kelvin_head in Hk. congruence.
Qed.

(** The first byte of [lower_chars l], when it is neither [k] nor a
    letter, is the first byte of [l]. *)
Lemma lower_chars_head l x rest n :
  n = 132 \/ n = 170 ->
  PyStr.lower_chars l = x :: rest -> (nat_of_ascii x =? n)%nat = true ->
  exists c l', l = c :: l' /\ (nat_of_ascii c =? n)%nat = true
               /\ rest = PyStr.lower_chars l'.
Proof.
  intros Hn. destruct l as [|c l']; [discriminate|].
  rewrite lower_chars_cons. destruct (kelvin (c :: l')) eqn:Hk.
  - intros [= <- _] Hx. destruct Hn as [-> | ->]; discriminate.
  - intros [= <- <-] Hx. exists c, l'. split; [reflexivity|].
    split; [|reflexivity].
    rewrite lower_ascii_code in Hx by tauto. exact Hx.
Qed.

Lemma lower_chars_idem_le n : forall l,
  length l <= n -> PyStr.lower_chars (PyStr.lower_chars l) = PyStr.lower_chars l.
Proof.
  induction n as [|n IH]; intros l Hlen.
  - destruct l; [reflexivity|cbn in Hlen; lia].
  - destruct l as [|c l']; [reflexivity|]. cbn [length] in Hlen.
    rewrite lower_chars_cons. destruct (kelvin (c :: l')) eqn:Hk.
    + rewrite lower_chars_other by reflexivity.
      rewrite IH; [reflexivity|]. rewrite length_skipn. lia.
    + destruct (nat_of_ascii c =? 226)%nat eqn:Hc.
      * rewrite lower_chars_cons.
        destruct (kelvin (PyStr.lower_ascii c :: PyStr.lower_chars l')) eqn:Hk2.
        -- exfalso.
           destruct (PyStr.lower_chars l') as [|x1 [|x2 rest]] eqn:Hl;
             try discriminate.
           cbn [kelvin] in Hk2.
           apply andb_prop in Hk2 as [Hk2 H170].
           apply andb_prop in Hk2 as [_ H132].
           destruct (lower_chars_head l' x1 (x2 :: rest) 132 ltac:(tauto) Hl H132)
             as (c1 & l1 & -> & Hc1 & Hrest).
           symmetry in Hrest.
           destruct (lower_chars_head l1 x2 rest 170 ltac:(tauto) Hrest H170)
             as (c2 & l2 & -> & Hc2 & _).
           cbn [kelvin] in Hk. now rewrite Hc, Hc1, Hc2 in Hk.
        -- rewrite lower_ascii_idem, IH by lia. reflexivity.
      * rewrite lower_chars_other
          by (now rewrite lower_ascii_code by tauto).
        rewrite lower_ascii_idem, IH by lia. reflexivity.
Qed.

Lemma lower_chars_idem l :
  PyStr.lower_chars (PyStr.lower_chars l) = PyStr.lower_chars l.
Proof. now apply (lower_chars_idem_le (length l)). Qed.

Lemma kelvin_map_underscore l : kelvin (map underscore l) = kelvin l.
Proof.
  destruct l as [|c [|c1 [|c2 l'']]]; try reflexivity. cbn [map kelvin].
  now rewrite !underscore_code by tauto.
Qed.

Lemma lower_chars_underscore_le n : forall l,
  length l <= n ->
  PyStr.lower_chars (map underscore l) = map underscore (PyStr.lower_chars l).
Proof.
  induction n as [|n IH]; intros l Hlen.
  - destruct l; [reflexivity|cbn in Hlen; lia].
  - destruct l as [|c l']; [reflexivity|]. cbn [length map] in *.
    rewrite !lower_chars_cons.
    change (underscore c :: map underscore l') with (map underscore (c :: l')).
    rewrite kelvin_map_underscore. destruct (kelvin (c :: l')).
    + cbn [map]. rewrite <- IH by (rewrite length_skipn; lia).
      now rewrite skipn_map.
    + cbn [map]. rewrite IH by lia. now rewrite underscore_lower.
Qed.

Lemma lower_chars_underscore l :
  PyStr.lower_chars (map underscore l) = map underscore (PyStr.lower_chars l).
Proof. now apply (lower_chars_underscore_le (length l)). Qed.

(** Appending bytes that cannot complete the three bytes of U+212A. *)
Lemma lower_chars_app_le n : forall a b,
  length a <= n ->
  match b with
  | [] => True
  | x :: _ => (nat_of_ascii x =? 132)%nat = false /\ (nat_of_ascii x =? 170)%nat = false
  end ->
  PyStr.lower_chars (a ++ b) = PyStr.lower_chars a ++ PyStr.lower_chars b.
Proof.
  induction n as [|n IH]; intros a b Hlen Hb.
  - destruct a; [reflexivity|cbn in Hlen; lia].
  - destruct a as [|c a']; [reflexivity|]. cbn [length app] in *.
    rewrite !lower_chars_cons.
    assert (Hk : kelvin (c :: a' ++ b) = kelvin (c :: a')).
    { destruct a' as [|c1 [|c2 a'']]; [| |reflexivity].
      - destruct b as [|x [|y b']]; try reflexivity. cbn.
        destruct Hb as [-> _]. now rewrite andb_false_r.
      - destruct b as [|x b']; [reflexivity|]. cbn.
        destruct Hb as [_ ->]. now rewrite andb_false_r. }
    rewrite Hk. destruct (kelvin (c :: a')) eqn:Hk'.
    + destruct a' as [|c1 [|c2 a'']]; try discriminate.
      cbn [skipn app]. rewrite !drop_0. rewrite IH; [reflexivity| |exact Hb].
      cbn [length] in Hlen. lia.
    + rewrite IH; [reflexivity|lia|exact Hb].
Qed.

Lemma lower_chars_app a b :
  match b with
  | [] => True
  | x :: _ => (nat_of_ascii x =? 132)%nat = false /\ (nat_of_ascii x =? 170)%nat = false
  end ->
  PyStr.lower_chars (a ++ b) = PyStr.lower_chars a ++ PyStr.lower_chars b.
Proof. now apply (lower_chars_app_le (length a)). Qed.

Lemma lower_chars_slash_le n : forall l,
  length l <= n ->
  Forall (fun c => c <> "/"%char) l ->
  Forall (fun c => c <> "/"%char) (PyStr.lower_chars l).
Proof.
  induction n as [|n IH]; intros l Hlen Hl.
  - destruct l; [constructor|cbn in Hlen; lia].
  - destruct l as [|c l']; [constructor|]. cbn [length] in Hlen.
    apply Forall_cons in Hl as [Hc Hl'].
    rewrite lower_chars_cons. destruct (kelvin (c :: l')).
    + constructor; [discriminate|]. apply IH.
      * rewrite length_skipn. lia.
      * rewrite <- (firstn_skipn 2 l') in Hl'. now apply Forall_app in Hl'.
    + constructor; [now apply lower_ascii_slash|]. apply IH; [lia|exact Hl'].
Qed.

Lemma lower_chars_nonempty l : l <> [] -> PyStr.lower_chars l <> [].
Proof.
  destruct l as [|c l']; [congruence|]. intros _.
  rewrite lower_chars_cons. now destruct (kelvin (c :: l')).
Qed.

(** ** File names derived from identifiers *)

Lemma chars_lower s : PyStr.chars (PyStr.lower s) = PyStr.lower_chars (PyStr.chars s).
Proof. apply chars_of_chars. Qed.

Lemma chars_file_id s :
  PyStr.chars (file_id s) = map underscore (PyStr.lower_chars (PyStr.chars s)).
Proof.
  unfold file_id, PyStr.replace_char. rewrite chars_of_chars, chars_lower.
  reflexivity.
Qed.

Lemma file_id_idem s : file_id (file_id s) = file_id s.
Proof.
  apply chars_inj. rewrite !chars_file_id.
  rewrite lower_chars_underscore, lower_chars_idem, map_map.
  apply map_ext. intros c. apply underscore_idem.
Qed.

Lemma lower_chars_plain l : Forall plain l -> PyStr.lower_chars l = l.
Proof.
  induction 1 as [|c l (Hl & _ & H226 & _) _ IH]; [reflexivity|].
  rewrite lower_chars_other by exact H226. now rewrite Hl, IH.
Qed.

Lemma map_underscore_plain l : Forall plain l -> map underscore l = l.
Proof.
  induction 1 as [|c l (_ & Hu & _) _ IH]; [reflexivity|].
  cbn. now rewrite Hu, IH.
Qed.

Lemma file_id_append s t :
  Forall plain (PyStr.chars t) -> file_id (file_id s +:+ t) = file_id s +:+ t.
Proof.
  intros Ht. apply chars_inj. rewrite chars_file_id, !chars_app, chars_file_id.
  rewrite lower_chars_app.
  - rewrite lower_chars_underscore, lower_chars_idem, map_app, map_map.
    rewrite (lower_chars_plain _ Ht), (map_underscore_plain _ Ht).
    f_equal. apply map_ext. intros c. apply underscore_idem.
  - destruct Ht as [|c l (_ & _ & _ & H132 & H170 & _) _]; [exact I|now split].
Qed.

Lemma digits_plain d : Forall plain (PyStr.chars (NilEmpty.string_of_uint d)).
Proof.
  induction d; cbn; constructor; try assumption; repeat split; reflexivity.
Qed.

Lemma to_uint_not_nil n : Nat.to_uint n <> Decimal.Nil.
Proof.
  rewrite <- (Unsigned.of_to n), Unsigned.to_of.
  apply DecimalFacts.unorm_nonnil.
Qed.

Lemma decimal_of_nat n :
  NilZero.string_of_uint (Nat.to_uint n) = NilEmpty.string_of_uint (Nat.to_uint n).
Proof.
  pose proof (to_uint_not_nil n) as Hn. now destruct (Nat.to_uint n).
Qed.

Lemma decimal_inj a b :
  NilZero.string_of_uint (Nat.to_uint a) = NilZero.string_of_uint (Nat.to_uint b) ->
  a = b.
Proof.
  rewrite !decimal_of_nat. intros Heq. apply Unsigned.to_uint_inj.
  apply (f_equal NilEmpty.uint_of_string) in Heq.
  rewrite !NilEmpty.usu in Heq. congruence.
Qed.

Lemma numbered_tail_plain n :
  Forall plain (PyStr.chars ("_" +:+ NilZero.string_of_uint (Nat.to_uint n))).
Proof.
  rewrite decimal_of_nat.
  change (Forall plain ("_"%char :: PyStr.chars (NilEmpty.string_of_uint (Nat.to_uint n)))).
  constructor; [repeat split; reflexivity|apply digits_plain].
Qed.

Lemma file_id_candidate s k :
  file_id (candidate (file_id s) k) = candidate (file_id s) k.
Proof.
  destruct k as [|k]; [apply file_id_idem|].
  unfold candidate, numbered. apply file_id_append, numbered_tail_plain.
Qed.

Lemma candidate_inj base j k : candidate base j = candidate base k -> j = k.
Proof.
  assert (Hne : forall n, base <> numbered base n).
  { intros n Heq. unfold numbered in Heq.
    rewrite <- (append_empty_r base) in Heq at 1.
    apply append_inv_head in Heq. discriminate. }
  destruct j as [|j], k as [|k]; cbn [candidate]; intros Heq.
  - reflexivity.
  - now destruct (Hne _ Heq).
  - now destruct (Hne _ (eq_sym Heq)).
  - unfold numbered in Heq. do 2 apply append_inv_head in Heq.
    now apply decimal_inj.
Qed.

Lemma file_id_truthy s : PyStr.truthy s = true -> PyStr.truthy (file_id s) = true.
Proof.
  rewrite !truthy_chars, chars_file_id. intros Hs Hnil.
  apply map_eq_nil in Hnil. now apply lower_chars_nonempty in Hnil.
Qed.

Lemma candidate_truthy base k :
  PyStr.truthy base = true -> PyStr.truthy (candidate base k) = true.
Proof.
  intros Hb. destruct k; [exact Hb|]. cbn [candidate]. unfold numbered.
  now destruct base.
Qed.

(** ** Path components *)

Lemma no_slash_file_id s : no_slash s -> no_slash (file_id s).
Proof.
  unfold no_slash. rewrite chars_file_id. intros Hs.
  apply Forall_map.
  eapply Forall_impl; [apply (lower_chars_slash_le (length (PyStr.chars s))); [lia|exact Hs]|].
  intros c. apply underscore_slash.
Qed.

Lemma plain_not_slash l : Forall plain l -> Forall (fun c => c <> "/"%char) l.
Proof.
  intros Hl. eapply Forall_impl; [exact Hl|].
  intros c (_ & _ & _ & _ & _ & Hc) ->. discriminate.
Qed.

Lemma split_chars_plain sep l : forall cur,
  Forall (fun c => c <> sep) l ->
  PyStr.split_chars sep cur l = [PyStr.of_chars (rev cur ++ l)].
Proof.
  induction l as [|c l IH]; intros cur Hl; cbn [PyStr.split_chars].
  - now rewrite app_nil_r.
  - apply Forall_cons in Hl as [Hc Hl].
    rewrite (proj2 (Ascii.eqb_neq c sep) Hc), IH by exact Hl.
    cbn [rev]. now rewrite <- app_assoc.
Qed.

Lemma split_chars_components sep l : forall cur,
  Forall (fun c => c <> sep) cur ->
  Forall (fun s => Forall (fun c => c <> sep) (PyStr.chars s))
         (PyStr.split_chars sep cur l).
Proof.
  induction l as [|c l IH]; intros cur Hcur; cbn [PyStr.split_chars].
  - constructor; [|constructor]. rewrite chars_of_chars.
    now apply Forall_rev.
  - destruct (Ascii.eqb_spec c sep) as [->|Hc].
    + constructor; [|apply IH; constructor].
      rewrite chars_of_chars. now apply Forall_rev.
    + apply IH. now constructor.
Qed.

Lemma parse_tail_no_slash raw :
  Forall no_slash (pp_tail (Pathlib.parse Posix raw)).
Proof.
  unfold Pathlib.parse. destruct (String.eqb raw ""); [constructor|].
  destruct (Pathlib.splitroot Posix raw) as [[drv root] rel].
  cbn [pp_tail]. apply Forall_forall. intros x Hx.
  apply list_elem_of_filter in Hx as [_ Hx].
  pose proof (split_chars_components "/"%char (PyStr.chars rel) []
                ltac:(constructor)) as Hall.
  rewrite Forall_forall in Hall. now apply Hall.
Qed.

Lemma last_Forall {A} (P : A -> Prop) (l : list A) (d : A) :
  Forall P l -> P d -> P (List.last l d).
Proof.
  induction 1 as [|x l Hx Hl IH]; intros Hd; [exact Hd|].
  cbn. destruct l; [exact Hx|]. now apply IH.
Qed.

Lemma substring_Forall (P : ascii -> Prop) s : forall n m,
  Forall P (PyStr.chars s) -> Forall P (PyStr.chars (String.substring n m s)).
Proof.
  induction s as [|c s IH]; intros n m Hs.
  - destruct n, m; constructor.
  - apply Forall_cons in Hs as [Hc Hs]. destruct n as [|n].
    + destruct m as [|m]; [constructor|].
      cbn. constructor; [exact Hc|now apply IH].
    + cbn. now apply IH.
Qed.

Lemma stem_no_slash raw : no_slash (Pathlib.stem (Pathlib.parse Posix raw)).
Proof.
  unfold Pathlib.stem, Pathlib.name.
  assert (Hname : no_slash (List.last (pp_tail (Pathlib.parse Posix raw)) ""))
    by (apply last_Forall; [apply parse_tail_no_slash|constructor]).
  revert Hname. generalize (List.last (pp_tail (Pathlib.parse Posix raw)) "").
  intros nm Hnm. unfold Pathlib.name_stem.
  destruct (PyStr.rfind "." nm) as [i|]; [|exact Hnm].
  destruct (_ && _)%nat; [|exact Hnm].
  now apply substring_Forall.
Qed.

Lemma no_slash_app a b : no_slash a -> no_slash b -> no_slash (a +:+ b).
Proof.
  unfold no_slash. rewrite chars_app. intros Ha Hb. now apply Forall_app.
Qed.

Lemma no_slash_candidate base k : no_slash base -> no_slash (candidate base k).
Proof.
  intros Hb. destruct k as [|k]; [exact Hb|]. cbn [candidate]. unfold numbered.
  apply no_slash_app; [exact Hb|].
  apply plain_not_slash, numbered_tail_plain.
Qed.

Lemma no_slash_json gid : no_slash gid -> no_slash (gid +:+ ".json").
Proof.
  intros Hg. apply no_slash_app; [exact Hg|].
  repeat constructor; discriminate.
Qed.

Lemma json_name_shape gid :
  PyStr.truthy (gid +:+ ".json") = true
  /\ gid +:+ ".json" <> "." /\ gid +:+ ".json" <> "..".
Proof.
  split; [now destruct gid|].
  split; intros Heq; apply (f_equal PyStr.chars) in Heq;
    rewrite chars_app in Heq; apply (f_equal length) in Heq;
    rewrite length_app in Heq; cbn in Heq; lia.
Qed.

(** [GAMES_DIR / seg] for a segment that is one plain component. *)
Lemma joinpath_games seg :
  no_slash seg -> PyStr.truthy seg = true -> seg <> "." ->
  Pathlib.joinpath GAMES_DIR seg = Pathlib.make_child GAMES_DIR seg.
Proof.
  intros Hseg Htruthy Hdot. unfold Pathlib.joinpath.
  change (Pathlib.to_str GAMES_DIR) with "games".
  unfold Pathlib.posix_join.
  assert (Hstart : PyStr.startswith seg "/" = false).
  { unfold PyStr.startswith. destruct seg as [|c r]; [reflexivity|].
    cbn [String.prefix]. destruct (ascii_dec "/" c) as [<-|]; [|reflexivity].
    apply Forall_cons in Hseg as [Hc _]. now destruct Hc. }
  rewrite Hstart.
  change (String.eqb "games" "" || PyStr.endswith "games" "/") with false.
  cbv iota.
  change ("games" +:+ "/" +:+ seg)
    with (String "g" (String "a" (String "m" (String "e" (String "s"
            (String "/" seg)))))).
  unfold Pathlib.parse. cbn [String.eqb]. cbv iota.
  unfold Pathlib.splitroot, Pathlib.posix_splitroot.
  rewrite take_1_cons. cbn [String.eqb Ascii.eqb Bool.eqb negb]. cbv iota.
  cbv beta iota zeta.
  change (String.eqb "" "" && PyStr.startswith "" (Pathlib.sep_str Posix)
          && negb (PyStr.endswith "" (Pathlib.sep_str Posix))) with false.
  cbv iota. unfold PyStr.split.
  change (PyStr.chars (String "g" (String "a" (String "m" (String "e"
            (String "s" (String "/" seg)))))))
    with ("g"%char :: "a"%char :: "m"%char :: "e"%char :: "s"%char
          :: "/"%char :: PyStr.chars seg).
  change (PyStr.split_chars (Pathlib.sep Posix) []
            ("g"%char :: "a"%char :: "m"%char :: "e"%char :: "s"%char
             :: "/"%char :: PyStr.chars seg))
    with ("games" :: PyStr.split_chars "/" [] (PyStr.chars seg)).
  rewrite (split_chars_plain "/"%char (PyStr.chars seg) [] Hseg). cbn [rev app].
  rewrite of_chars_chars.
  rewrite filter_cons_True by reflexivity.
  rewrite filter_cons_True.
  - reflexivity.
  - unfold Pathlib.keep_part. unfold PyStr.truthy in Htruthy.
    rewrite Htruthy. cbn [andb].
    now rewrite (proj2 (String.eqb_neq seg ".") Hdot).
Qed.

Lemma record_path_parts gid :
  no_slash gid ->
  Pathlib.joinpath GAMES_DIR (gid +:+ ".json")
  = Pathlib.make_child GAMES_DIR (gid +:+ ".json").
Proof.
  intros Hg. destruct (json_name_shape gid) as (Ht & Hdot & _).
  now apply joinpath_games; [apply no_slash_json|..].
Qed.

(** ** Entries of the catalog directory *)

Lemma entry_exists_taken w nm :
  nm <> ".." ->
  FS.exists_ (Pathlib.make_child GAMES_DIR nm) w = (Ok true, w) ->
  is_Some (w_fs w !! (games_loc (w_cwd w) ++ [nm])).
Proof.
  intros Hnm. unfold FS.exists_, try_except, bind, FS.stat, bind, get_fs.
  rewrite locate_run. rewrite GAMES_DIR_parts.
  cbn [Pathlib.make_child pp_tail pp_flavour pp_drive pp_root app FS.walk].
  change (FS.start (w_cwd w) _) with (w_cwd w).
  change (FS.step (w_cwd w) "games") with (games_loc (w_cwd w)).
  destruct (w_fs w !! games_loc (w_cwd w)) as [[ro d|ro]|]; try discriminate.
  rewrite step_name by exact Hnm.
  destruct (w_fs w !! (games_loc (w_cwd w) ++ [nm])); [eauto|discriminate].
Qed.

Lemma entry_exists_free w nm ro :
  nm <> ".." ->
  w_fs w !! games_loc (w_cwd w) = Some (Dir ro) ->
  FS.exists_ (Pathlib.make_child GAMES_DIR nm) w = (Ok false, w) ->
  w_fs w !! (games_loc (w_cwd w) ++ [nm]) = None.
Proof.
  intros Hnm Hdir. unfold FS.exists_, try_except, bind.
  rewrite (stat_run _ _ _ (entry_walk _ _ _ _ Hnm Hdir)).
  now destruct (w_fs w !! (games_loc (w_cwd w) ++ [nm])).
Qed.

(** No more locations are occupied than the file system has entries. *)
Lemma taken_bound (m : gmap path node) (l : list path) :
  NoDup l -> Forall (fun q => is_Some (m !! q)) l -> length l <= size m.
Proof.
  intros Hnd Hall. rewrite <- (length_map_to_list m).
  rewrite <- (length_fmap fst (map_to_list m)).
  apply submseteq_length, NoDup_submseteq; [exact Hnd|].
  intros q Hq. rewrite Forall_forall in Hall.
  destruct (Hall q Hq) as [nd Hnd'].
  apply list_elem_of_fmap. exists (q, nd). split; [reflexivity|].
  now apply elem_of_map_to_list.
Qed.

Lemma record_loc_inj cwd base j k :
  record_loc cwd (candidate base j) = record_loc cwd (candidate base k) ->
  j = k.
Proof.
  unfold record_loc. intros Heq. apply app_inv_head in Heq.
  injection Heq as Heq. apply append_inv_tail in Heq.
  now apply candidate_inj in Heq.
Qed.

Lemma candidates_bound (m : gmap path node) cwd base k :
  (forall j, j < k -> is_Some (m !! record_loc cwd (candidate base j))) ->
  k <= size m.
Proof.
  intros Htaken.
  assert (Hlen : length (map (fun j => record_loc cwd (candidate base j))
                             (seq 0 k)) <= size m).
  { apply taken_bound.
    - apply NoDup_fmap_2; [|apply NoDup_seq].
      intros i j. apply record_loc_inj.
    - apply Forall_map, Forall_forall. intros j Hj.
      apply elem_of_seq in Hj. apply Htaken. lia. }
  now rewrite length_map, length_seq in Hlen.
Qed.

(** The loop of [quick_add_game] stops at the first identifier of the
    sequence whose record file does not exist. *)
Lemma free_gid_run w base :
  no_slash base ->
  forall fuel k,
    (forall j, j < k ->
               FS.exists_ (Pathlib.make_child GAMES_DIR
                             (candidate base j +:+ ".json")) w = (Ok true, w)) ->
    size (w_fs w) < fuel + k ->
    exists k',
      k <= k' <= size (w_fs w)
      /\ free_gid fuel base (candidate base k) (S k) w
         = (Ok (Some (candidate base k')), w)
      /\ FS.exists_ (Pathlib.make_child GAMES_DIR (candidate base k' +:+ ".json"))
                    w = (Ok false, w)
      /\ forall j, j < k' ->
                   FS.exists_ (Pathlib.make_child GAMES_DIR
                                 (candidate base j +:+ ".json")) w
                   = (Ok true, w).
Proof.
  intros Hbase fuel.
  assert (Hbound : forall k,
             (forall j, j < k ->
                FS.exists_ (Pathlib.make_child GAMES_DIR
                              (candidate base j +:+ ".json")) w = (Ok true, w)) ->
             k <= size (w_fs w)).
  { intros k Htaken. apply (candidates_bound _ (w_cwd w) base).
    intros j Hj. apply entry_exists_taken; [|now apply Htaken].
    apply (json_name_shape (candidate base j)). }
  induction fuel as [|fuel IH]; intros k Htaken Hfuel.
  - apply Hbound in Htaken. cbn in Hfuel. lia.
  - cbn [free_gid]. unfold bind.
    rewrite record_path_parts by (now apply no_slash_candidate).
    destruct (exists_run (Pathlib.make_child GAMES_DIR
                            (candidate base k +:+ ".json")) w) as [b Hex].
    rewrite Hex. destruct b.
    + destruct (IH (S k)) as (k' & Hle & Hrun & Hfree & Hall).
      * intros j Hj. destruct (decide (j = k)) as [->|Hne];
          [exact Hex|apply Htaken; lia].
      * lia.
      * exists k'. split; [lia|]. split; [exact Hrun|]. now split.
    + exists k. split; [split; [lia|now apply Hbound]|].
      split; [reflexivity|]. now split.
Qed.

(** ** Quick-add *)

Section QuickAddFacts.

Context `{JsonCodec}.

Lemma new_record_fields p gid :
  new_record p gid !! "id" = Some (JStr gid)
  /\ new_record p gid !! "name" = Some (JStr (Pathlib.stem p))
  /\ new_record p gid !! "work_dir"
     = Some (JStr (Pathlib.to_str (Pathlib.parent p)))
  /\ new_record p gid !! "meta_path" = None.
Proof. repeat split. Qed.

(** Saving the record of quick-add under an identifier that is free. *)
Lemma new_record_saved p gid w :
  no_slash gid -> PyStr.truthy gid = true -> file_id gid = gid ->
  w_fs w !! games_loc (w_cwd w) = Some (Dir false) ->
  w_fs w !! record_loc (w_cwd w) gid = None ->
  _write_game_file (new_record p gid) w
  = (Ok (Pathlib.make_child GAMES_DIR (gid +:+ ".json"),
         <["meta_path" := JStr ("games/" +:+ gid +:+ ".json")]>
           (new_record p gid)),
     with_fs w (<[record_loc (w_cwd w) gid :=
                    File false (dumps (JObj (new_record p gid)))]> (w_fs w))).
Proof.
  intros Hslash Htruthy Hfid Hdir Hfree. unfold _write_game_file.
  destruct (new_record_fields p gid) as (Hid & _ & _ & Hmeta).
  assert (Hgid : derive_gid (new_record p gid) w = (Ok gid, w)).
  { unfold derive_gid, has_truthy, dict_get. rewrite Hid.
    unfold default, from_option, id. cbn [truthy]. rewrite Htruthy.
    change (PyStr.replace_char " " "_" (PyStr.lower gid)) with (file_id gid).
    now rewrite Hfid. }
  rewrite (bind_ok _ _ _ _ _ Hgid).
  assert (Hp : target_path (new_record p gid) gid w
               = (Ok (Pathlib.make_child GAMES_DIR (gid +:+ ".json")), w)).
  { unfold target_path, has_truthy, dict_get. rewrite Hmeta.
    unfold default, from_option, id. cbn [truthy].
    now rewrite record_path_parts. }
  rewrite (bind_ok _ _ _ _ _ Hp).
  assert (Hmk : FS.mkdir_parents
                  (Pathlib.parent
                     (Pathlib.make_child GAMES_DIR (gid +:+ ".json"))) w
                = (Ok tt, w)).
  { change (Pathlib.parent (Pathlib.make_child GAMES_DIR (gid +:+ ".json")))
      with GAMES_DIR.
    exact (mkdir_parents_existing _ _ _ _ (games_dir_walk _ _) Hdir). }
  rewrite (bind_ok _ _ _ _ _ Hmk).
  rewrite (delete_id _ _ Hmeta : to_save (new_record p gid) = new_record p gid).
  destruct (json_name_shape gid) as (_ & _ & Hdots).
  assert (Hwalk := entry_walk (w_fs w) (w_cwd w) false (gid +:+ ".json")
                              Hdots Hdir).
  cbv zeta in Hwalk.
  assert (Hwr := write_file_run
                   (Pathlib.make_child GAMES_DIR (gid +:+ ".json"))
                   (dumps (JObj (new_record p gid))) w _ Hwalk).
  fold (record_loc (w_cwd w) gid) in Hwr.
  assert (Hcase : w_fs w !! record_loc (w_cwd w) gid = None
                  /\ w_fs w !! removelast (record_loc (w_cwd w) gid)
                     = Some (Dir false)
                  \/ (exists old, w_fs w !! record_loc (w_cwd w) gid
                                  = Some (File false old))).
  { left. split; [exact Hfree|]. unfold record_loc. now rewrite removelast_last. }
  now rewrite (bind_ok _ _ _ _ _ (Hwr Hcase)).
Qed.

(** The whole of quick-add in a writable catalog directory. *)
Lemma quick_add_run fuel path games w :
  PyStr.truthy (Pathlib.stem (Pathlib.parse Posix path)) = true ->
  w_fs w !! games_loc (w_cwd w) = Some (Dir false) ->
  size (w_fs w) < fuel ->
  exists k,
    let p := Pathlib.parse Posix path in
    let gid := candidate (file_id (Pathlib.stem p)) k in
    w_fs w !! record_loc (w_cwd w) gid = None
    /\ _write_game_file (new_record p gid) w
       = (Ok (Pathlib.make_child GAMES_DIR (gid +:+ ".json"),
              <["meta_path" := JStr ("games/" +:+ gid +:+ ".json")]>
                (new_record p gid)),
          with_fs w (<[record_loc (w_cwd w) gid :=
                         File false (dumps (JObj (new_record p gid)))]>
                       (w_fs w)))
    /\ quick_add_game fuel path games w
       = (Ok (Some (games
                    ++ [<["meta_path" := JStr ("games/" +:+ gid +:+ ".json")]>
                          (new_record p gid)])),
          with_fs w (<[record_loc (w_cwd w) gid :=
                         File false (dumps (JObj (new_record p gid)))]>
                       (w_fs w))).
Proof.
  intros Hstem Hdir Hfuel.
  set (p := Pathlib.parse Posix path).
  set (base := file_id (Pathlib.stem p)).
  assert (Hbase : no_slash base) by apply no_slash_file_id, stem_no_slash.
  destruct (free_gid_run w base Hbase fuel 0) as (k & _ & Hrun & Hfree & Hall);
    [intros j Hj; lia|lia|].
  exists k. cbv zeta. fold p base.
  assert (Hslash := no_slash_candidate base k Hbase).
  destruct (json_name_shape (candidate base k)) as (_ & _ & Hdots).
  apply (entry_exists_free _ _ _ Hdots Hdir) in Hfree.
  fold (record_loc (w_cwd w) (candidate base k)) in Hfree.
  assert (Hsaved := new_record_saved p (candidate base k) w Hslash
                      (candidate_truthy _ _ (file_id_truthy _ Hstem))
                      (file_id_candidate _ _) Hdir Hfree).
  split; [exact Hfree|]. split; [exact Hsaved|].
  unfold quick_add_game.
  assert (Hpath : PyStr.truthy path = true).
  { destruct path; [discriminate Hstem|reflexivity]. }
  rewrite Hpath. cbn [negb]. cbv zeta. fold p base.
  change base with (candidate base 0) at 2.
  rewrite (bind_ok _ _ _ _ _ Hrun), (bind_ok _ _ _ _ _ Hsaved).
  reflexivity.
Qed.

(** X18.  The search of [quick_add_game] for an identifier ends, for a
    chosen file whose stem is in ASCII.  With more tests allowed than the
    file system has entries, the loop leaves the sequence [base_id],
    [base_id_1], [base_id_2], ... at the first identifier whose [exists]
    test does not answer [True], after at most as many tests as there are
    entries; every identifier before it is taken.  When that test answers
    [False] the record built for the identifier is passed to
    [_write_game_file]; when it raises, [quick_add_game] raises the same
    exception. *)
Theorem quick_add_finds_a_free_identifier
        (fuel : nat) (path : string) (games : list game) (w : world)
        (Hchosen : PyStr.truthy path = true)
        (Hascii : PyStr.isascii (Pathlib.stem (Pathlib.parse Posix path)) = true)
        (Hfuel : size (w_fs w) < fuel) :
  let p := Pathlib.parse Posix path in
  let base_id := file_id (Pathlib.stem p) in
  let record_file k :=
    Pathlib.joinpath GAMES_DIR (candidate base_id k +:+ ".json") in
  exists k : nat,
    k <= size (w_fs w)
    /\ (forall j, j < k -> FS.exists_ (record_file j) w = (Ok true, w))
    /\ match FS.exists_ (record_file k) w with
       | (Ok true, _) => False
       | (Ok false, _) =>
           quick_add_game fuel path games w
           = (let* written :=
                _write_game_file (new_record p (candidate base_id k)) in
              ret (Some (games ++ [snd written]))) w
       | (Raise e, w1) => quick_add_game fuel path games w = (Raise e, w1)
       end.
Proof.
  intros p base_id record_file. subst record_file.
  assert (Hbase : no_slash base_id) by apply no_slash_file_id, stem_no_slash.
  destruct (free_gid_run w base_id Hbase fuel 0) as (k & Hle & Hrun & Hfree & Hall);
    [intros j Hj; lia|lia|].
  exists k. split; [lia|].
  split; [intros j Hj; rewrite record_path_parts
                         by (now apply no_slash_candidate); now apply Hall|].
  rewrite record_path_parts by (now apply no_slash_candidate).
  rewrite Hfree.
  unfold quick_add_game. rewrite Hchosen. cbn [negb]. cbv zeta. fold p base_id.
  change base_id with (candidate base_id 0) at 2.
  now rewrite (bind_ok _ _ _ _ _ Hrun).
Qed.

(** X19.  Quick-add never overwrites.  For a chosen file whose name has a
    non-empty stem in ASCII, in a catalog directory that exists: when
    [quick_add_game] returns a list, the list is the old one with the new
    record, with its [meta_path], at its end; the record file was written
    at a location where nothing was and holds the serialisation of the new
    record; every entry the file system had is unchanged and nothing but
    the file system changed. *)
Theorem quick_add_never_overwrites
        (fuel : nat) (path : string) (games games' : list game) (w w' : world)
        (Hchosen : PyStr.truthy (Pathlib.stem (Pathlib.parse Posix path)) = true)
        (Hascii : PyStr.isascii (Pathlib.stem (Pathlib.parse Posix path)) = true)
        (Hdir : w_fs w !! games_loc (w_cwd w) = Some (Dir false))
        (Hfuel : size (w_fs w) < fuel)
        (Hadded : quick_add_game fuel path games w = (Ok (Some games'), w')) :
  exists gid : string,
    let new := <["meta_path" := JStr ("games/" +:+ gid +:+ ".json")]>
                 (new_record (Pathlib.parse Posix path) gid) in
    games' = games ++ [new]
    /\ w_fs w !! record_loc (w_cwd w) gid = None
    /\ w_fs w' !! record_loc (w_cwd w) gid
       = Some (File false
                 (dumps (JObj (new_record (Pathlib.parse Posix path) gid))))
    /\ (forall q nd, w_fs w !! q = Some nd -> w_fs w' !! q = Some nd)
    /\ same_but_fs w w'.
Proof.
  destruct (quick_add_run fuel path games w Hchosen Hdir Hfuel)
    as (k & Hfree & _ & Hrun).
  cbv zeta in *. rewrite Hrun in Hadded. injection Hadded as <- <-.
  eexists. split; [reflexivity|].
  split; [exact Hfree|]. cbn [with_fs w_fs].
  split; [apply lookup_insert_eq|]. split; [|apply same_but_fs_with_fs].
  intros q nd Hq. rewrite lookup_insert_ne; [exact Hq|].
  intros <-. congruence.
Qed.

(** X20.  The record file quick-add writes loads back as the record
    quick-add appended: under the conditions of X19, when [quick_add_game]
    returned a list and the JSON library reads back what it wrote for the
    new record, [_read_game_file] on the file written returns exactly the
    record at the end of the list. *)
Theorem quick_add_record_loads_back
        (fuel : nat) (path : string) (games games' : list game) (w w' : world)
        (Hchosen : PyStr.truthy (Pathlib.stem (Pathlib.parse Posix path)) = true)
        (Hascii : PyStr.isascii (Pathlib.stem (Pathlib.parse Posix path)) = true)
        (Hdir : w_fs w !! games_loc (w_cwd w) = Some (Dir false))
        (Hfuel : size (w_fs w) < fuel)
        (Hadded : quick_add_game fuel path games w = (Ok (Some games'), w')) :
  exists (gid : string) (new : game),
    games' = games ++ [new]
    /\ new !! "id" = Some (JStr gid)
    /\ (loads (dumps (JObj (to_save new))) = Some (JObj (to_save new)) ->
        _read_game_file (Pathlib.make_child GAMES_DIR (gid +:+ ".json")) w'
        = (Ok new, w')).
Proof.
  destruct (quick_add_run fuel path games w Hchosen Hdir Hfuel)
    as (k & _ & Hsaved & Hrun).
  cbv zeta in *. rewrite Hrun in Hadded. injection Hadded as <- <-.
  eexists _, _. split; [reflexivity|].
  split; [reflexivity|].
  set (p := Pathlib.parse Posix path) in *.
  set (gid := candidate (file_id (Pathlib.stem p)) k) in *.
  destruct (new_record_fields p gid) as (Hid & Hname & Hwd & Hmeta).
  pose proof (write_game_file_ok _ _ _ _ _ Hsaved) as (_ & Hread & _).
  assert (Hsave : to_save (new_record p gid) = new_record p gid)
    by apply (delete_id _ _ Hmeta).
  assert (Hsave' : to_save (<["meta_path" := JStr ("games/" +:+ gid +:+ ".json")]>
                              (new_record p gid)) = new_record p gid).
  { unfold to_save. rewrite delete_insert_eq. exact Hsave. }
  rewrite Hsave'. intros Hcodec.
  rewrite (read_game_file_saved (new_record p gid) _ _ Hread).
  - rewrite Hsave. reflexivity.
  - rewrite Hsave. exact Hcodec.
  - now rewrite Hid.
  - now rewrite Hname.
  - unfold has_truthy, dict_get. rewrite Hwd. apply to_str_truthy.
Qed.

End QuickAddFacts.

(** ** The name [_write_game_file] derives *)

Section DerivedName.

Context `{JsonCodec}.

(** X5.  The file name derived from an identifier is a fixed point of the
    derivation, for names in ASCII: when [_write_game_file] derives an
    ASCII [gid] from a record, it derives the same [gid] from every record
    whose [id] is [gid].  A record whose identifier already is a derived
    name, as those of quick-add are, is saved under that very name.
    ([lower] is modelled for the letters of ASCII, hence the condition.) *)
Theorem derived_file_name_is_stable
        (g g' : game) (gid : string) (w w' : world)
        (Hgid : derive_gid g w = (Ok gid, w'))
        (Hascii : PyStr.isascii gid = true) :
  derive_gid (<["id" := JStr gid]> g') w = (Ok gid, w).
Proof.
  assert (Hshape : exists s, PyStr.truthy s = true /\ gid = file_id s).
  { revert Hgid. unfold derive_gid, has_truthy.
    destruct (truthy (dict_get "id" g)) eqn:Hid.
    - destruct (dict_get "id" g) as [| | |s| |]; try discriminate.
      intros [= <- _]. now exists s.
    - destruct (truthy (dict_get "name" g)) eqn:Hname.
      + destruct (dict_get "name" g) as [| | |s| |]; try discriminate.
        intros [= <- _]. now exists s.
      + intros [= <- _]. now exists "game". }
  destruct Hshape as (s & Hs & ->).
  unfold derive_gid, has_truthy, dict_get. rewrite lookup_insert_eq.
  unfold default, from_option, id. cbn [truthy].
  rewrite (file_id_truthy _ Hs).
  change (PyStr.replace_char " " "_" (PyStr.lower (file_id s)))
    with (file_id (file_id s)).
  now rewrite file_id_idem.
Qed.

End DerivedName.

(** ** The order of the catalog *)

Lemma compare_not_gt_trans a : forall b c,
  String.compare a b <> Gt -> String.compare b c <> Gt ->
  String.compare a c <> Gt.
Proof.
  induction a as [|x a IH]; intros [|y b] [|z c]; cbn; try congruence.
  unfold Ascii.compare.
  destruct (N.compare_spec (N_of_ascii x) (N_of_ascii y)) as [Hxy|Hxy|Hxy];
    try congruence;
    destruct (N.compare_spec (N_of_ascii y) (N_of_ascii z)) as [Hyz|Hyz|Hyz];
    try congruence;
    destruct (N.compare_spec (N_of_ascii x) (N_of_ascii z)) as [Hxz|Hxz|Hxz];
    try congruence; try lia.
  apply IH.
Qed.

#[local] Instance str_le_trans : Transitive FS.str_le.
Proof.
  intros a b c. unfold FS.str_le, String.leb. intros Hab Hbc.
  pose proof (compare_not_gt_trans a b c) as Ht.
  destruct (String.compare a b); try discriminate;
    destruct (String.compare b c); try discriminate;
    destruct (String.compare a c); try reflexivity;
    exfalso; apply Ht; congruence.
Qed.

#[local] Instance str_le_total : Total FS.str_le.
Proof. intros a b. apply String.leb_total. Qed.

Lemma StronglySorted_filter {A} (R : relation A) (P : A -> Prop)
      `{!forall x, Decision (P x)} (l : list A) :
  StronglySorted R l -> StronglySorted R (filter P l).
Proof.
  induction 1 as [|x l Hl IH Hx]; [constructor|].
  destruct (decide (P x)) as [Hp|Hp].
  - rewrite filter_cons_True by exact Hp. constructor; [exact IH|].
    apply Forall_forall. intros y Hy. apply list_elem_of_filter in Hy as [_ Hy].
    rewrite Forall_forall in Hx. now apply Hx.
  - now rewrite filter_cons_False by exact Hp.
Qed.

Section CatalogOrder.

Context `{JsonCodec} `{PyRepr} `{OSEnv}.

(** X7.  On a POSIX host, when the catalog directory holds a valid record
    file and the names of its [*.json] entries are in ASCII, [load_games]
    returns the records in the ascending order of the names of their
    files, byte by byte.  (On such names the order of the bytes is the
    order in which [sorted] puts the paths.) *)
Theorem load_games_in_name_order
        (w : world) (ro : bool)
        (Hhost : os_name <> "nt")
        (Hdir : w_fs w !! games_loc (w_cwd w) = Some (Dir ro))
        (Hnames : forallb PyStr.isascii (catalog_names (w_fs w) (w_cwd w))
                  = true)
        (Hsome : 0 < length (filter (fun nm => valid_entry (w_fs w) (w_cwd w) nm
                                               = true)
                                    (catalog_names (w_fs w) (w_cwd w)))) :
  exists (names : list string) (recs : list game) (w' : world),
    load_games w = (Ok recs, w')
    /\ Forall2 loaded_from names recs
    /\ StronglySorted FS.str_le names.
Proof.
  destruct (scan_games_run (catalog_names (w_fs w) (w_cwd w)) [] w ro Hdir
              (catalog_names_json _ _))
    as (recs & warnings & Hscan & Hrecs & _ & _).
  eexists _, recs, _. split; [|split; [exact Hrecs|]].
  - rewrite (load_games_scan _ _ Hdir). unfold bind at 1. rewrite Hscan.
    apply Forall2_length in Hrecs.
    destruct recs; [cbn in Hrecs; lia|reflexivity].
  - apply StronglySorted_filter. unfold catalog_names.
    apply StronglySorted_merge_sort; exact _.
Qed.

End CatalogOrder.

(** ** The launcher's actions *)

Lemma prefix_trans a : forall b s,
  String.prefix a b = true -> String.prefix b s = true ->
  String.prefix a s = true.
Proof.
  induction a as [|x a IH]; intros [|y b] [|z s]; cbn; try congruence.
  destruct (ascii_dec x y) as [->|]; [|discriminate].
  destruct (ascii_dec y z) as [->|]; [|discriminate].
  apply IH.
Qed.

Lemma take_points_prefix l : forall k,
  exists rest, l = take_points k l ++ rest.
Proof.
  induction l as [|c l IH]; intros k; [now exists []|].
  cbn [take_points]. destruct (is_continuation c).
  - destruct (IH k) as [rest Hrest]. exists rest. cbn. now f_equal.
  - destruct k as [|k]; [now exists (c :: l)|].
    destruct (IH k) as [rest Hrest]. exists rest. cbn. now f_equal.
Qed.

Lemma take_points_bound l : forall k, points (take_points k l) <= k.
Proof.
  unfold points. induction l as [|c l IH]; intros k; [cbn; lia|].
  cbn [take_points]. destruct (is_continuation c) eqn:Hc.
  - rewrite filter_cons_False by congruence. apply IH.
  - destruct k as [|k]; [cbn; lia|].
    rewrite filter_cons_True by exact Hc. cbn [length].
    specialize (IH k). lia.
Qed.

Lemma take_points_all l : forall k, points l <= k -> take_points k l = l.
Proof.
  unfold points. induction l as [|c l IH]; intros k Hk; [reflexivity|].
  cbn [take_points]. destruct (is_continuation c) eqn:Hc.
  - rewrite filter_cons_False in Hk by congruence. now rewrite IH.
  - rewrite filter_cons_True in Hk by exact Hc. cbn [length] in Hk.
    destruct k as [|k]; [lia|]. rewrite IH by lia. reflexivity.
Qed.

(** Frames of the downloader when both callbacks are passed. *)
Section ReportingFrames.

Context (R : world -> world -> Prop) `{!PreOrder R}.
Hypothesis R_fs : forall w m, R w (with_fs w m).
Hypothesis R_emit : forall ev, keeps R (emit ev).

Context `{Network} `{ZipCodec}.

Lemma keeps_write_chunks f total progress_cb chunks :
  forall downloaded,
    keeps R (write_chunks f total progress_cb chunks downloaded).
Proof.
  induction chunks as [|chunk rest IH]; intros downloaded;
    cbn [write_chunks]; [frame with keeps_ret|].
  destruct (negb (PyStr.truthy chunk)); [apply IH|].
  frame with keeps_bind; [frame with keeps_write|intros _].
  frame with keeps_bind; [|intros _; apply IH].
  destruct (_ && _); [apply R_emit|frame with keeps_ret].
Qed.

Lemma keeps_download_update url dest extract_to progress_cb status_cb :
  keeps R (download_update url dest extract_to progress_cb status_cb).
Proof.
  unfold download_update. frame with keeps_bind.
  - unfold fetch_to_file.
    frame with keeps_bind; [intros w; reflexivity|intros r].
    frame with keeps_bind.
    { intros w. rewrite raise_for_status_run. reflexivity. }
    intros _. frame with keeps_bind.
    { intros w. rewrite declared_total_run. reflexivity. }
    intros total.
    frame with keeps_bind;
      [frame with keeps_mkdir_parents; intros; apply R_fs|intros _].
    frame with keeps_bind; [frame with keeps_open_named|intros f].
    frame with keeps_bind; [apply keeps_write_chunks|intros _].
    destruct (body_error r); [frame with keeps_raise|frame with keeps_ret].
  - intros _. apply keeps_extract_step; try exact _; try assumption.
    intros s. apply R_emit.
Qed.

End ReportingFrames.

#[local] Instance same_session_preorder : PreOrder same_session.
Proof.
  split; [easy|]. intros w1 w2 w3 (? & ? & ?) (? & ? & ?).
  repeat split; congruence.
Qed.

Section ActionFacts.

Context `{OSEnv} `{Network} `{ZipCodec} `{TextDecoder}.

Lemma fetch_news_run url w : fetch_news url w = (fst (fetch_news url w), w).
Proof.
  unfold fetch_news, bind, lift. destruct (http_get url) as [r|e]; [|reflexivity].
  destruct (body_error r); [reflexivity|]. cbn [ret].
  rewrite raise_for_status_run.
  now destruct (fst (raise_for_status url r w)).
Qed.

(** X17.  The worker of [load_news] never raises.  When [fetch_news]
    returns a text, the worker hands on the first 20000 characters of it
    (the whole text when it has no more) and leaves the world as it was;
    when [fetch_news] raises, the worker schedules the status
    [News fetch failed: ...] with the message of the exception, and nothing
    else. *)
Theorem news_job_never_raises (url : string) (w : world) :
  match fst (fetch_news url w) with
  | Ok text =>
      exists shown rest : string,
        news_job url w = (Ok (Some shown), w)
        /\ text = shown +:+ rest
        /\ points (PyStr.chars shown) <= N.to_nat 20000
        /\ (points (PyStr.chars text) <= N.to_nat 20000 -> shown = text)
  | Raise e =>
      news_job url w
      = (Ok None,
         World (w_fs w) (w_cwd w) (w_log w)
               (w_events w ++ [Status ("News fetch failed: " +:+ exn_msg e)])
               (w_calls w))
  end.
Proof.
  unfold news_job, try_except, bind. rewrite fetch_news_run.
  destruct (fst (fetch_news url w)) as [text|e]; [|reflexivity].
  destruct (take_points_prefix (PyStr.chars text) (N.to_nat 20000))
    as [rest Hrest].
  exists (PyStr.of_chars (take_points (N.to_nat 20000) (PyStr.chars text))),
    (PyStr.of_chars rest).
  split; [reflexivity|]. split; [|split].
  - rewrite <- of_chars_app, <- Hrest. symmetry. apply of_chars_chars.
  - rewrite chars_of_chars. apply take_points_bound.
  - intros Hshort. rewrite take_points_all by exact Hshort.
    apply of_chars_chars.
Qed.

(** X16.  The worker of [Launcher.download] never raises, and the last
    thing it schedules is one status: [Saved to <dest>] when
    [download_update] returned, [Download failed: ...] with the message of
    the exception when it raised.  The file system and the earlier reports
    are those of [download_update]; the log, the working directory and the
    host are untouched. *)
Theorem download_job_always_reports (url dest extract_to : string) (w : world) :
  exists (w1 : world) (final : string),
    download_job url dest extract_to w
    = (Ok tt,
       World (w_fs w1) (w_cwd w) (w_log w)
             (w_events w1 ++ [Status final]) (w_calls w))
    /\ w1 = snd (download_update url dest extract_to true true w)
    /\ final = match fst (download_update url dest extract_to true true w) with
               | Ok _ => "Saved to " +:+ dest
               | Raise e => "Download failed: " +:+ exn_msg e
               end.
Proof.
  pose proof (keeps_download_update same_session
                ltac:(easy) ltac:(easy) url dest extract_to true true w)
    as (Hcwd & Hlog & Hcalls).
  unfold download_job, try_except, bind, emit.
  destruct (download_update url dest extract_to true true w) as [[[]|e] w1];
    cbn [fst snd] in *; exists w1; eexists; rewrite Hcwd, Hlog, Hcalls;
    (split; [reflexivity|split; reflexivity]).
Qed.

Lemma launch_game_run target work_dir args w :
  exists (ok : bool) (msg : string),
    launch_game target work_dir args w
    = (Ok (ok, msg),
       World (w_fs w) (w_cwd w) (w_log w) (w_events w)
             (w_calls w ++ [chosen_call target work_dir (default [] args)])).
Proof.
  unfold launch_game. cbv zeta. unfold try_except.
  destruct (launch_body_run target work_dir (default [] args) w)
    as (r & msg & ->).
  destruct r as [u|e]; eauto.
Qed.

(** X22.  [Launcher.play] on a POSIX host, case by case.  An empty
    [game_path] is refused.  One that begins with [http], [steam://] or
    [epic://] is launched without a look at the file system.  For any
    other, the outcome of [Path(exe).exists()] decides: [True] launches,
    [False] refuses, and an exception of the test, which nothing catches,
    is the exception [play] raises.  To launch is to make the one request
    [launch_game] chooses and to set a status that begins with [OK] or
    [FAIL]; to refuse leaves the world as it was. *)
Theorem play_warns_or_launches
        (exe : string) (work_dir : option string)
        (args : option (list string)) (w : world)
        (Hhost : os_name <> "nt") :
  let known := PyStr.startswith_any exe ["http"; "steam://"; "epic://"] in
  let launched :=
    exists (ok : bool) (msg : string),
      play (Some exe) work_dir args w
      = (Ok (Launched ((if ok then "OK" else "FAIL") +:+ " — " +:+ msg)),
         World (w_fs w) (w_cwd w) (w_log w) (w_events w)
               (w_calls w ++ [chosen_call exe work_dir (default [] args)])) in
  if negb (PyStr.truthy exe) then play (Some exe) work_dir args w = (Ok Refused, w)
  else if known then launched
  else match FS.exists_ (Pathlib.parse Posix exe) w with
       | (Ok true, _) => launched
       | (Ok false, _) => play (Some exe) work_dir args w = (Ok Refused, w)
       | (Raise e, w1) => play (Some exe) work_dir args w = (Raise e, w1)
       end.
Proof.
  intros known launched.
  assert (Hlaunch : exists (ok : bool) (msg : string),
             (let* r := launch_game exe work_dir args in
              ret (Launched ((if fst r then "OK" else "FAIL")
                             +:+ " — " +:+ snd r))) w
             = (Ok (Launched ((if ok then "OK" else "FAIL") +:+ " — " +:+ msg)),
                World (w_fs w) (w_cwd w) (w_log w) (w_events w)
                      (w_calls w
                       ++ [chosen_call exe work_dir (default [] args)]))).
  { unfold bind.
    destruct (launch_game_run exe work_dir args w) as (ok & msg & ->).
    now exists ok, msg. }
  subst launched. unfold play. fold known.
  destruct (PyStr.truthy exe); [|reflexivity]. cbn [negb].
  destruct known; [exact Hlaunch|].
  pose proof (keeps_exists eq (Pathlib.parse Posix exe) w) as Hpure.
  destruct (FS.exists_ (Pathlib.parse Posix exe) w) as [[b|e] w1] eqn:Hex;
    cbn [snd] in Hpure; subst w1.
  - assert (Hmiss : (let* there := FS.exists_ (Pathlib.parse Posix exe) in
                     ret (negb there)) w = (Ok (negb b), w))
      by (unfold bind; now rewrite Hex).
    rewrite (bind_ok _ _ _ _ _ Hmiss).
    destruct b; cbn [negb]; [exact Hlaunch|reflexivity].
  - unfold bind. now rewrite Hex.
Qed.

(** X23.  A target that [launch_game] opens through the protocol handler is
    never stopped by the missing-file check of [Launcher.play]: whatever the
    file system holds, [play] asks the host to open it and sets a status. *)
Theorem play_never_refuses_a_protocol
        (exe : string) (work_dir : option string)
        (args : option (list string)) (w : world)
        (Hprotocol : PyStr.startswith_any exe PROTOCOLS = true) :
  exists (ok : bool) (msg : string),
    play (Some exe) work_dir args w
    = (Ok (Launched ((if ok then "OK" else "FAIL") +:+ " — " +:+ msg)),
       World (w_fs w) (w_cwd w) (w_log w) (w_events w)
             (w_calls w ++ [WebOpen exe])).
Proof.
  assert (Hcall : chosen_call exe work_dir (default [] args) = WebOpen exe).
  { apply chosen_call_protocol, classify_protocol.
    apply startswith_any_Exists in Hprotocol. unfold PROTOCOLS in Hprotocol.
    rewrite !Exists_cons, Exists_nil in Hprotocol. tauto. }
  assert (Hknown : PyStr.startswith_any exe ["http"; "steam://"; "epic://"]
                   = true).
  { apply startswith_any_Exists in Hprotocol. apply startswith_any_Exists.
    unfold PROTOCOLS in Hprotocol.
    rewrite !Exists_cons, Exists_nil in Hprotocol. rewrite !Exists_cons.
    destruct Hprotocol as [Hp|[Hp|[Hp|[Hp|[]]]]].
    - left. now apply (prefix_trans "http" "http://").
    - left. now apply (prefix_trans "http" "https://").
    - right. now left.
    - right. right. now left. }
  assert (Htruthy : PyStr.truthy exe = true).
  { destruct exe; [discriminate Hknown|reflexivity]. }
  unfold play. rewrite Htruthy, Hknown. cbn [negb].
  unfold bind at 1, ret at 1. cbv iota. unfold bind.
  destruct (launch_game_run exe work_dir args w) as (ok & msg & ->).
  rewrite Hcall. now exists ok, msg.
Qed.

End ActionFacts.

(** ** Splitting and joining paths *)

Lemma split_chars_app_sep sep l1 l2 : forall cur,
  PyStr.split_chars sep cur (l1 ++ sep :: l2)
  = PyStr.split_chars sep cur l1 ++ PyStr.split_chars sep [] l2.
Proof.
  induction l1 as [|c l1 IH]; intros cur; cbn [app PyStr.split_chars].
  - now rewrite Ascii.eqb_refl.
  - destruct (Ascii.eqb c sep); [cbn; f_equal|]; apply IH.
Qed.

Lemma split_plain s : no_slash s -> PyStr.split "/" s = [s].
Proof.
  intros Hs. unfold PyStr.split. rewrite split_chars_plain by exact Hs.
  cbn [rev app]. now rewrite of_chars_chars.
Qed.

Lemma split_append a b :
  PyStr.split "/" (a +:+ "/" +:+ b) = PyStr.split "/" a ++ PyStr.split "/" b.
Proof.
  unfold PyStr.split. rewrite !chars_app.
  change (PyStr.chars "/" ++ PyStr.chars b) with ("/"%char :: PyStr.chars b).
  apply split_chars_app_sep.
Qed.

Lemma join_cons x y l :
  PyStr.join "/" (x :: y :: l) = x +:+ "/" +:+ PyStr.join "/" (y :: l).
Proof. reflexivity. Qed.

Lemma split_join l :
  Forall no_slash l -> l <> [] -> PyStr.split "/" (PyStr.join "/" l) = l.
Proof.
  induction 1 as [|x l Hx Hl IH]; intros Hne; [congruence|].
  destruct l as [|y l]; [now apply split_plain|].
  rewrite join_cons, split_append, split_plain by exact Hx.
  now rewrite IH.
Qed.

Lemma filter_keep l :
  Forall (fun s => Pathlib.keep_part s = true) l ->
  filter (fun x => Pathlib.keep_part x = true) l = l.
Proof.
  induction 1 as [|x l Hx Hl IH]; [reflexivity|].
  now rewrite filter_cons_True, IH by exact Hx.
Qed.

Lemma parse_tail_kept raw :
  Forall (fun s => Pathlib.keep_part s = true) (pp_tail (Pathlib.parse Posix raw)).
Proof.
  unfold Pathlib.parse. destruct (String.eqb raw ""); [constructor|].
  destruct (Pathlib.splitroot Posix raw) as [[drv root] rel].
  cbn [pp_tail]. apply Forall_forall. intros x Hx.
  now apply list_elem_of_filter in Hx as [Hx _].
Qed.

Lemma substring_all s : String.substring 0 (String.length s) s = s.
Proof. induction s as [|c s IH]; [reflexivity|]. cbn. now rewrite IH. Qed.

Lemma drop_1_cons c r : PyStr.drop 1 (String c r) = r.
Proof.
  unfold PyStr.drop. cbn [String.length Nat.sub String.substring].
  rewrite Nat.sub_0_r. apply substring_all.
Qed.

Lemma startswith_slash s :
  PyStr.startswith s "/" = true <-> exists r, s = String "/" r.
Proof.
  unfold PyStr.startswith. destruct s as [|c r]; cbn [String.prefix].
  - split; [discriminate|]. now intros [r Hr].
  - destruct (ascii_dec "/" c) as [<-|Hc].
    + split; [eauto|]. now destruct r.
    + split; [discriminate|]. intros [r' [= Hc' _]]. congruence.
Qed.

Lemma startswith_cons_no c r :
  c <> "/"%char -> PyStr.startswith (String c r) "/" = false.
Proof.
  intros Hc. unfold PyStr.startswith. cbn [String.prefix].
  destruct (ascii_dec "/" c) as [<-|]; [now destruct Hc|reflexivity].
Qed.

(** A string that does not begin with [/] keeps all its components when it
    is put after the root. *)
Lemma parse_below_root r :
  PyStr.startswith r "/" = false ->
  Pathlib.parse Posix (String "/" r)
  = PurePath Posix "" "/"
      (filter (fun x => Pathlib.keep_part x = true) (PyStr.split "/" r)).
Proof.
  intros Hr. unfold Pathlib.parse. cbn [String.eqb]. cbv iota.
  unfold Pathlib.splitroot, Pathlib.posix_splitroot.
  rewrite take_1_cons. cbn [String.eqb Ascii.eqb Bool.eqb negb]. cbv iota.
  assert (Hsecond : negb (String.eqb (PyStr.slice 1 2 (String "/" r)) "/")
                    = true).
  { unfold PyStr.slice. rewrite drop_1_cons. cbn [Nat.sub].
    destruct r as [|c r']; [reflexivity|]. rewrite take_1_cons.
    destruct (Ascii.eqb_spec c "/") as [->|Hc].
    - exfalso. rewrite (proj2 (startswith_slash _)) in Hr by eauto.
      discriminate.
    - cbn [String.eqb]. rewrite (proj2 (Ascii.eqb_neq _ _) Hc). reflexivity. }
  rewrite Hsecond. cbn [orb]. cbv beta iota zeta.
  rewrite drop_1_cons. reflexivity.
Qed.

Lemma parse_relative fname :
  PyStr.startswith fname "/" = false ->
  pp_tail (Pathlib.parse Posix fname)
  = filter (fun x => Pathlib.keep_part x = true) (PyStr.split "/" fname).
Proof.
  intros Hrel. unfold Pathlib.parse.
  destruct fname as [|c r]; [reflexivity|]. cbn [String.eqb]. cbv iota.
  unfold Pathlib.splitroot, Pathlib.posix_splitroot. rewrite take_1_cons.
  destruct (Ascii.eqb_spec c "/") as [->|Hc].
  - rewrite (proj2 (startswith_slash _)) in Hrel by eauto. discriminate.
  - cbn [String.eqb]. rewrite (proj2 (Ascii.eqb_neq _ _) Hc).
    reflexivity.
Qed.

Lemma last_char s c :
  String.substring (String.length (s +:+ String c "") - 1) 1 (s +:+ String c "")
  = String c "".
Proof.
  induction s as [|x s IH]; [reflexivity|].
  change (String x s +:+ String c "") with (String x (s +:+ String c "")).
  cbn [String.length Nat.sub]. rewrite Nat.sub_0_r.
  destruct (s +:+ String c "") as [|y t] eqn:Ht.
  - now destruct s.
  - cbn [String.length]. cbn [String.length Nat.sub] in IH.
    rewrite Nat.sub_0_r in IH. exact IH.
Qed.

Lemma string_snoc s : s <> "" -> exists t c, s = t +:+ String c "".
Proof.
  induction s as [|x s IH]; [congruence|]. intros _.
  destruct s as [|y s'].
  - now exists "", x.
  - destruct IH as (t & c & Ht); [discriminate|].
    exists (String x t), c.
    change (String x t +:+ String c "") with (String x (t +:+ String c "")).
    now rewrite <- Ht.
Qed.

Lemma endswith_slash_no a x :
  x <> "" -> no_slash x -> PyStr.endswith (a +:+ x) "/" = false.
Proof.
  intros Hx Hslash. destruct (string_snoc x Hx) as (t & c & ->).
  assert (Hc : c <> "/"%char).
  { unfold no_slash in Hslash. rewrite chars_app in Hslash.
    apply Forall_app in Hslash as [_ Hc]. now apply Forall_cons in Hc as [Hc _]. }
  rewrite <- append_assoc. unfold PyStr.endswith.
  change (String.length "/") with 1. rewrite last_char.
  cbn [String.eqb]. rewrite (proj2 (Ascii.eqb_neq _ _) Hc).
  apply andb_false_r.
Qed.

Lemma join_last l :
  l <> [] -> Forall component l ->
  exists a x, PyStr.join "/" l = a +:+ x /\ x <> "" /\ no_slash x.
Proof.
  intros Hne Hl. induction Hl as [|y l (Hy & Hk & _) Hl IH]; [congruence|].
  destruct l as [|z l].
  - exists "", y. split; [reflexivity|]. split; [|exact Hy].
    intros ->. discriminate.
  - destruct IH as (a & x & Ha & Hx & Hs); [discriminate|].
    exists (y +:+ "/" +:+ a), x. rewrite join_cons, Ha, !append_assoc.
    now split.
Qed.

(** ** Normalising a list of components *)

Lemma normalize_plain comps : forall acc,
  Forall (fun c => c <> "..") comps ->
  Pathlib.normalize acc comps = acc ++ comps.
Proof.
  induction comps as [|c rest IH]; intros acc Hc; cbn [Pathlib.normalize].
  - now rewrite app_nil_r.
  - apply Forall_cons in Hc as [Hc Hrest].
    rewrite (proj2 (String.eqb_neq _ _) Hc), IH by exact Hrest.
    now rewrite <- app_assoc.
Qed.

Lemma normalize_Forall (P : string -> Prop) comps : forall acc,
  Forall P acc -> Forall P comps -> Forall P (Pathlib.normalize acc comps).
Proof.
  induction comps as [|c rest IH]; intros acc Hacc Hc; [exact Hacc|].
  apply Forall_cons in Hc as [Hc Hrest]. cbn [Pathlib.normalize].
  destruct (String.eqb c "..").
  - apply IH; [now apply Forall_removelast|exact Hrest].
  - apply IH; [|exact Hrest]. apply Forall_app. split; [exact Hacc|].
    now constructor.
Qed.

(** The components of a resolved path are names. *)
Lemma resolve_components cwd p raw :
  p = Pathlib.parse Posix raw ->
  Forall component cwd ->
  Forall component (pp_tail (Pathlib.resolve cwd p)).
Proof.
  intros -> Hcwd. unfold Pathlib.resolve. cbn [pp_tail].
  assert (Hweak : forall (l : list string),
             Forall (fun s => no_slash s /\ Pathlib.keep_part s = true) l ->
             forall acc, Forall component acc ->
                         Forall component (Pathlib.normalize acc l)).
  { induction l as [|c rest IH]; intros Hl acc Hacc; [exact Hacc|].
    apply Forall_cons in Hl as [[Hs Hk] Hrest]. cbn [Pathlib.normalize].
    destruct (String.eqb_spec c "..") as [->|Hc].
    - apply IH; [exact Hrest|now apply Forall_removelast].
    - apply IH; [exact Hrest|]. apply Forall_app. split; [exact Hacc|].
      constructor; [|constructor]. now repeat split. }
  apply Hweak.
  - pose proof (parse_tail_no_slash raw) as Hs.
    pose proof (parse_tail_kept raw) as Hk.
    rewrite Forall_forall in *. intros s Hin. split; auto.
  - destruct (PyStr.truthy _); [constructor|exact Hcwd].
Qed.

(** Joining a relative name to a resolved directory. *)
Lemma joinpath_below base fname :
  pp_flavour base = Posix -> pp_drive base = "" -> pp_root base = "/" ->
  Forall component (pp_tail base) ->
  PyStr.startswith fname "/" = false ->
  Pathlib.joinpath base fname
  = PurePath Posix "" "/"
      (pp_tail base ++ pp_tail (Pathlib.parse Posix fname)).
Proof.
  destruct base as [fl drv root bt]. cbn [pp_flavour pp_drive pp_root pp_tail].
  intros -> -> -> Hbt Hrel. unfold Pathlib.joinpath.
  change (Pathlib.to_str (PurePath Posix "" "/" bt))
    with (String "/" (PyStr.join "/" bt)).
  unfold Pathlib.posix_join. rewrite Hrel.
  rewrite (parse_relative _ Hrel).
  destruct bt as [|b bt'].
  - change (String.eqb (String "/" (PyStr.join "/" [])) ""
            || PyStr.endswith (String "/" (PyStr.join "/" [])) "/") with true.
    cbv iota. change (String "/" (PyStr.join "/" []) +:+ fname)
      with (String "/" fname).
    now rewrite parse_below_root by exact Hrel.
  - destruct (join_last (b :: bt') ltac:(discriminate) Hbt)
      as (a & x & Ha & Hx & Hs).
    assert (Hend : PyStr.endswith (String "/" (PyStr.join "/" (b :: bt'))) "/"
                   = false).
    { rewrite Ha. change (String "/" (a +:+ x)) with (String "/" a +:+ x).
      now apply endswith_slash_no. }
    rewrite Hend. cbn [String.eqb orb]. cbv iota.
    change (String "/" (PyStr.join "/" (b :: bt')) +:+ "/" +:+ fname)
      with (String "/" (PyStr.join "/" (b :: bt') +:+ "/" +:+ fname)).
    rewrite parse_below_root.
    + rewrite split_append, split_join, filter_app, filter_keep.
      * reflexivity.
      * eapply Forall_impl; [exact Hbt|]. now intros s (_ & Hk & _).
      * eapply Forall_impl; [exact Hbt|]. now intros s (Hn & _).
      * discriminate.
    + apply Forall_cons in Hbt as [(Hb & Hk & _) _].
      destruct b as [|c b']; [discriminate Hk|].
      apply Forall_cons in Hb as [Hc _].
      destruct bt' as [|b2 bt2]; [|rewrite join_cons];
        now apply (startswith_cons_no c).
Qed.

(** ** A path and its string *)

Lemma posix_drive_empty t : fst (fst (Pathlib.posix_splitroot t)) = "".
Proof.
  unfold Pathlib.posix_splitroot.
  destruct (negb _); [reflexivity|]. now destruct (_ || _).
Qed.

Lemma parse_relative_whole fname :
  fname <> "" -> PyStr.startswith fname "/" = false ->
  Pathlib.parse Posix fname
  = PurePath Posix "" ""
      (filter (fun x => Pathlib.keep_part x = true) (PyStr.split "/" fname)).
Proof.
  intros Hne Hrel. unfold Pathlib.parse.
  destruct fname as [|c r]; [congruence|]. cbn [String.eqb]. cbv iota.
  unfold Pathlib.splitroot, Pathlib.posix_splitroot. rewrite take_1_cons.
  destruct (Ascii.eqb_spec c "/") as [->|Hc].
  - rewrite (proj2 (startswith_slash _)) in Hrel by eauto. discriminate.
  - cbn [String.eqb]. rewrite (proj2 (Ascii.eqb_neq _ _) Hc).
    reflexivity.
Qed.

Lemma parse_below_double_root r :
  PyStr.startswith r "/" = false ->
  Pathlib.parse Posix (String "/" (String "/" r))
  = PurePath Posix "" "//"
      (filter (fun x => Pathlib.keep_part x = true) (PyStr.split "/" r)).
Proof.
  intros Hr. unfold Pathlib.parse. cbn [String.eqb]. cbv iota.
  unfold Pathlib.splitroot, Pathlib.posix_splitroot.
  rewrite take_1_cons. cbn [String.eqb Ascii.eqb Bool.eqb negb]. cbv iota.
  assert (Hsecond : String.eqb (PyStr.slice 1 2 (String "/" (String "/" r))) "/"
                    = true).
  { unfold PyStr.slice. rewrite drop_1_cons. cbn [Nat.sub].
    now rewrite take_1_cons. }
  assert (Hthird : String.eqb (PyStr.slice 2 3 (String "/" (String "/" r))) "/"
                   = false).
  { unfold PyStr.slice.
    assert (Hdrop : PyStr.drop 2 (String "/" (String "/" r)) = r).
    { unfold PyStr.drop. cbn [String.length Nat.sub String.substring].
      rewrite Nat.sub_0_r. apply substring_all. }
    rewrite Hdrop. cbn [Nat.sub].
    destruct r as [|c r']; [reflexivity|]. rewrite take_1_cons.
    destruct (Ascii.eqb_spec c "/") as [->|Hc].
    - rewrite (proj2 (startswith_slash _)) in Hr by eauto. discriminate.
    - cbn [String.eqb]. now rewrite (proj2 (Ascii.eqb_neq _ _) Hc). }
  rewrite Hsecond, Hthird. cbn [negb orb]. cbv beta iota zeta.
  assert (Htake : PyStr.take 2 (String "/" (String "/" r)) = "//").
  { unfold PyStr.take. now destruct r. }
  assert (Hdrop : PyStr.drop 2 (String "/" (String "/" r)) = r).
  { unfold PyStr.drop. cbn [String.length Nat.sub String.substring].
    rewrite Nat.sub_0_r. apply substring_all. }
  rewrite Htake, Hdrop. reflexivity.
Qed.

(** What [parse] returns on a POSIX host: no drive, one of three roots,
    and components that are names. *)
Lemma parse_shape s :
  exists root tail,
    Pathlib.parse Posix s = PurePath Posix "" root tail
    /\ (root = "" \/ root = "/" \/ root = "//")
    /\ Forall no_slash tail
    /\ Forall (fun x => Pathlib.keep_part x = true) tail.
Proof.
  pose proof (parse_tail_no_slash s) as Hslash.
  pose proof (parse_tail_kept s) as Hkept.
  destruct (Pathlib.parse Posix s) as [fl drv root tail] eqn:Hp.
  cbn [pp_tail] in *. exists root, tail.
  split; [|split; [|now split]].
  - f_equal.
    + revert Hp. unfold Pathlib.parse. destruct (String.eqb s "");
        [now intros [= <- _ _ _]|].
      destruct (Pathlib.splitroot Posix s) as [[? ?] ?]. now intros [= <- _ _ _].
    + revert Hp. unfold Pathlib.parse. destruct (String.eqb s "");
        [now intros [= _ <- _ _]|].
      pose proof (posix_drive_empty s) as Hd.
      unfold Pathlib.splitroot.
      destruct (Pathlib.posix_splitroot s) as [[d0 r0] rel]. cbn in Hd.
      subst d0. now intros [= _ <- _ _].
  - revert Hp. unfold Pathlib.parse. destruct (String.eqb s "") eqn:Hs;
      [intros [= _ _ <- _]; now left|].
    unfold Pathlib.splitroot, Pathlib.posix_splitroot.
    destruct (negb (String.eqb (PyStr.take 1 s) "/")) eqn:H1.
    { intros [= _ _ <- _]. now left. }
    destruct (negb (String.eqb (PyStr.slice 1 2 s) "/")
              || String.eqb (PyStr.slice 2 3 s) "/") eqn:H2.
    { intros [= _ _ <- _]. right. now left. }
    intros [= _ _ <- _]. right. right.
    apply orb_false_iff in H2 as [H2 _].
    apply negb_false_iff, String.eqb_eq in H1, H2.
    destruct s as [|c r]; [discriminate|]. rewrite take_1_cons in H1.
    injection H1 as ->. unfold PyStr.slice in H2. rewrite drop_1_cons in H2.
    cbn [Nat.sub] in H2. destruct r as [|c' r']; [discriminate|].
    rewrite take_1_cons in H2. injection H2 as ->.
    change (String.eqb "" "" && PyStr.startswith "" (Pathlib.sep_str Posix)
            && negb (PyStr.endswith "" (Pathlib.sep_str Posix))) with false.
    cbv iota. unfold PyStr.take. now destruct r'.
Qed.

Lemma join_relative tail :
  Forall no_slash tail ->
  Forall (fun x => Pathlib.keep_part x = true) tail ->
  PyStr.startswith (PyStr.join "/" tail) "/" = false.
Proof.
  intros Hs Hk. destruct tail as [|t rest]; [reflexivity|].
  apply Forall_cons in Hs as [Hs _]. apply Forall_cons in Hk as [Hk _].
  destruct t as [|c t']; [discriminate|].
  apply Forall_cons in Hs as [Hc _].
  destruct rest; [|rewrite join_cons]; now apply (startswith_cons_no c).
Qed.

Lemma split_join_kept tail :
  Forall no_slash tail ->
  Forall (fun x => Pathlib.keep_part x = true) tail ->
  filter (fun x => Pathlib.keep_part x = true)
         (PyStr.split "/" (PyStr.join "/" tail)) = tail.
Proof.
  intros Hs Hk. destruct tail as [|t rest]; [reflexivity|].
  rewrite split_join by (exact Hs || discriminate). now apply filter_keep.
Qed.

(** The string of a parsed path parses to the same path. *)
Lemma parse_to_str s :
  Pathlib.parse Posix (Pathlib.to_str (Pathlib.parse Posix s))
  = Pathlib.parse Posix s.
Proof.
  destruct (parse_shape s) as (root & tail & -> & Hroot & Hs & Hk).
  pose proof (join_relative tail Hs Hk) as Hrel.
  pose proof (split_join_kept tail Hs Hk) as Hsplit.
  destruct Hroot as [->|[->| ->]].
  - destruct tail as [|t rest]; [reflexivity|].
    unfold Pathlib.to_str.
    cbn [pp_flavour pp_drive pp_root pp_tail PyStr.truthy String.eqb negb orb].
    cbv iota zeta. unfold Pathlib.splitroot. rewrite posix_drive_empty.
    cbn [PyStr.truthy String.eqb negb]. cbv iota.
    assert (Hne : PyStr.join "/" (t :: rest) <> "").
    { apply Forall_cons in Hk as [Hk _]. destruct t as [|c t']; [discriminate|].
      destruct rest; [discriminate|]. rewrite join_cons. discriminate. }
    change (Pathlib.sep_str Posix) with "/".
    rewrite (proj2 (String.eqb_neq _ _) Hne).
    rewrite parse_relative_whole by assumption. now rewrite Hsplit.
  - change (Pathlib.to_str (PurePath Posix "" "/" tail))
      with (String "/" (PyStr.join "/" tail)).
    rewrite parse_below_root by exact Hrel. now rewrite Hsplit.
  - change (Pathlib.to_str (PurePath Posix "" "//" tail))
      with (String "/" (String "/" (PyStr.join "/" tail))).
    rewrite parse_below_double_root by exact Hrel. now rewrite Hsplit.
Qed.

(** ** Directories that were made *)

Lemma walk_insert_dir m p q ro comps : forall cur r,
  FS.walk m p cur comps = Ok r ->
  FS.walk (<[q := Dir ro]> m) p cur comps = Ok r.
Proof.
  induction comps as [|c rest IH]; intros cur r Hwalk; [exact Hwalk|].
  cbn [FS.walk] in *. destruct rest as [|c' rest']; [exact Hwalk|].
  destruct (decide (q = FS.step cur c)) as [->|Hne].
  - rewrite lookup_insert_eq.
    destruct (m !! FS.step cur c) as [[? ?|?]|]; try discriminate.
    now apply IH.
  - rewrite lookup_insert_ne by exact Hne.
    destruct (m !! FS.step cur c) as [[? ?|?]|]; try discriminate.
    now apply IH.
Qed.

Lemma is_dir_true p w w' :
  FS.is_dir p w = (Ok true, w') -> w' = w /\ directory_at p w.
Proof.
  unfold FS.is_dir, try_except, bind, FS.stat, bind, get_fs. rewrite locate_run.
  destruct (FS.walk _ _ _ _) as [q|e] eqn:Hwalk;
    [|destruct (FS.ignore_error e); discriminate].
  destruct (w_fs w !! q) as [[fro d|ro]|] eqn:Hq; try (cbn; discriminate).
  intros [= <-]. split; [reflexivity|]. now exists q, ro.
Qed.

Lemma os_mkdir_ok p w w1 :
  FS.os_mkdir p w = (Ok tt, w1) -> directory_at p w1.
Proof.
  unfold FS.os_mkdir, bind, get_fs. rewrite locate_run.
  destruct (FS.walk _ _ _ _) as [q|e] eqn:Hwalk; [|discriminate].
  destruct (w_fs w !! q); [discriminate|].
  unfold FS.create, bind, get_fs.
  destruct (w_fs w !! removelast q) as [[? ?|ro]|]; try discriminate.
  destruct ro; [discriminate|]. intros [= <-].
  exists q, false. cbn. split; [|apply lookup_insert_eq].
  now apply walk_insert_dir.
Qed.

Lemma mkdir_ok p w w1 : FS.mkdir true p w = (Ok tt, w1) -> directory_at p w1.
Proof.
  unfold FS.mkdir, try_except.
  destruct (FS.os_mkdir p w) as [[[]|e] w0] eqn:Hos.
  - intros [= <-]. now apply os_mkdir_ok in Hos.
  - destruct (exn_cls e); try discriminate;
      unfold bind; destruct (FS.is_dir p w0) as [[[]|e'] wd] eqn:Hd; cbn;
      try discriminate; intros [= <-]; now apply is_dir_true in Hd as [-> Hd].
Qed.

Lemma mkdir_parents_ok p w w1 :
  FS.mkdir_parents p w = (Ok tt, w1) -> directory_at p w1.
Proof.
  unfold FS.mkdir_parents. destruct p as [fl drv root tail].
  cbn [pp_flavour pp_drive pp_root pp_tail].
  rewrite <- (rev_involutive tail) at 2.
  generalize (rev tail). intros rtail.
  destruct rtail as [|c rparent]; cbn [FS.mkdir_rec]; unfold try_except.
  - destruct (FS.os_mkdir _ w) as [[[]|e] w0] eqn:Hos.
    + intros [= <-]. now apply os_mkdir_ok in Hos.
    + destruct (exn_cls e); try discriminate;
        unfold bind; destruct (FS.is_dir _ w0) as [[[]|e'] wd] eqn:Hd; cbn;
        try discriminate; intros [= <-];
        now apply is_dir_true in Hd as [-> Hd].
  - destruct (FS.os_mkdir _ w) as [[[]|e] w0] eqn:Hos.
    + intros [= <-]. now apply os_mkdir_ok in Hos.
    + destruct (exn_cls e);
        try (unfold bind; destruct (FS.is_dir _ w0) as [[[]|e'] wd] eqn:Hd; cbn;
             try discriminate; intros [= <-];
             now apply is_dir_true in Hd as [-> Hd]).
      unfold bind. destruct (FS.mkdir_rec fl drv root rparent w0) as [[[]|e'] wa];
        [|discriminate].
      apply mkdir_ok.
Qed.

(** ** Saving a saved record *)

Section SaveAgain.

Context `{JsonCodec}.

Lemma target_path_parsed g gid w p :
  target_path g gid w = (Ok p, w) -> exists s, p = Pathlib.parse Posix s.
Proof.
  unfold target_path. destruct (has_truthy "meta_path" g).
  - destruct (dict_get "meta_path" g) as [| | |s| |]; try discriminate.
    intros [= <-]. eauto.
  - intros [= <-]. unfold Pathlib.joinpath. eauto.
Qed.

(** X21.  Saving is idempotent: when [_write_game_file] has saved a record,
    saving the record it returned writes the same path again and leaves the
    record and the world exactly as they are. *)
Theorem saving_again_changes_nothing
        (g g' : game) (p : pure_path) (w w' : world)
        (Hsaved : _write_game_file g w = (Ok (p, g'), w')) :
  _write_game_file g' w' = (Ok (p, g'), w').
Proof.
  revert Hsaved. unfold _write_game_file. intros Hrun.
  apply bind_ok_inv in Hrun as (gid & w0 & Hgid & Hrun).
  rewrite derive_gid_run in Hgid. injection Hgid as Hgid <-.
  apply bind_ok_inv in Hrun as (p0 & w0 & Hp & Hrun).
  rewrite target_path_run in Hp. injection Hp as Hp <-.
  apply bind_ok_inv in Hrun as ([] & w1 & Hmk & Hrun).
  apply bind_ok_inv in Hrun as ([] & w2 & Hwr & Hrun).
  injection Hrun as <- <- <-.
  destruct (target_path_parsed g gid w p0) as [s ->];
    [now rewrite target_path_run, Hp|].
  set (p := Pathlib.parse Posix s) in *.
  set (g' := <["meta_path" := JStr (Pathlib.to_str p)]> g).
  assert (Hgid' : derive_gid g' w2 = (Ok gid, w2)).
  { rewrite derive_gid_run. f_equal. rewrite <- Hgid.
    unfold derive_gid, has_truthy, dict_get. subst g'.
    rewrite !lookup_insert_ne by discriminate.
    now destruct (if truthy _ then _ else _). }
  rewrite (bind_ok _ _ _ _ _ Hgid').
  assert (Hp' : target_path g' gid w2 = (Ok p, w2)).
  { unfold target_path, has_truthy, dict_get. subst g'.
    rewrite lookup_insert_eq. unfold default, from_option, id. cbn [truthy].
    rewrite to_str_truthy. subst p. now rewrite parse_to_str. }
  rewrite (bind_ok _ _ _ _ _ Hp').
  pose proof (write_file_ok _ _ _ _ _ Hwr) as (qf & Hwalk & Hnodir & ->).
  apply mkdir_parents_ok in Hmk as (q & ro & Hqwalk & Hq).
  set (data := dumps (JObj (to_save g))) in *.
  set (w2 := with_fs w1 (<[qf := File false data]> (w_fs w1))).
  assert (Hmk' : FS.mkdir_parents (Pathlib.parent p) w2 = (Ok tt, w2)).
  { apply (mkdir_parents_existing _ _ q ro).
    - apply walk_insert_file; assumption.
    - subst w2. cbn [w_fs with_fs]. rewrite lookup_insert_ne; [exact Hq|].
      intros ->. now apply (Hnodir ro). }
  rewrite (bind_ok _ _ _ _ _ Hmk').
  assert (Hsave : to_save g' = to_save g).
  { unfold to_save. subst g'. apply delete_insert_eq. }
  rewrite Hsave. fold data.
  assert (Hwr' : FS.write_file p data w2 = (Ok tt, w2)).
  { rewrite (write_file_run p data w2 qf).
    - f_equal. subst w2. unfold with_fs. cbn [w_fs w_cwd w_log w_events w_calls].
      now rewrite insert_insert_eq.
    - apply walk_insert_file; assumption.
    - right. exists data. apply lookup_insert_eq. }
  rewrite (bind_ok _ _ _ _ _ Hwr'). unfold ret. subst g'.
  now rewrite insert_insert_eq.
Qed.

End SaveAgain.

(** ** Loading and saving in place *)

Section SavedInPlace.

Context `{JsonCodec}.

(** X24.  A record that was loaded is saved in place.  When
    [_read_game_file] loaded a record from the file [Path(s)] and
    [_write_game_file] saves that record, the path written is the path it
    was loaded from, whatever its [id] is, and the record is returned as it
    was; when the JSON library reads back what it wrote for the record,
    loading the file again returns the same record. *)
Theorem loaded_record_is_saved_in_place
        (s : string) (g g' : game) (p' : pure_path) (w w1 w2 w3 : world)
        (Hread : _read_game_file (Pathlib.parse Posix s) w = (Ok g, w1))
        (Hrecord : g <> ∅)
        (Hsaved : _write_game_file g w2 = (Ok (p', g'), w3)) :
  p' = Pathlib.parse Posix s
  /\ g' = g
  /\ (loads (dumps (JObj (to_save g))) = Some (JObj (to_save g)) ->
      _read_game_file (Pathlib.parse Posix s) w3 = (Ok g, w3)).
Proof.
  apply read_game_file_body in Hread; [|exact Hrecord].
  apply read_game_body_shape in Hread as (Hid & Hname & Hwd & Hmeta).
  pose proof (write_game_file_ok _ _ _ _ _ Hsaved) as (Hg' & Hfile & _).
  assert (Hp : p' = Pathlib.parse Posix s).
  { revert Hsaved. unfold _write_game_file. intros Hrun.
    apply bind_ok_inv in Hrun as (gid & wa & _ & Hrun).
    apply bind_ok_inv in Hrun as (p0 & wb & Hp & Hrun).
    apply bind_ok_inv in Hrun as (u1 & wc & _ & Hrun).
    apply bind_ok_inv in Hrun as (u2 & wd & _ & Hrun).
    injection Hrun as <- _ _. revert Hp.
    unfold target_path, has_truthy, dict_get. rewrite Hmeta.
    unfold default, from_option, id. cbn [truthy]. rewrite to_str_truthy.
    intros [= <- _]. apply parse_to_str. }
  subst p'. split; [reflexivity|].
  assert (Hsame : g' = g).
  { rewrite Hg'. now apply insert_id. }
  split; [exact Hsame|]. intros Hcodec.
  rewrite (read_game_file_saved g _ _ Hfile Hcodec Hid Hname Hwd).
  unfold to_save. rewrite insert_delete_eq. do 2 f_equal. now apply insert_id.
Qed.

End SavedInPlace.

(** ** Starting again *)

Lemma NoDup_omap_on {A B} (f : A -> option B) (l : list A) :
  (forall x y z, x ∈ l -> y ∈ l -> f x = Some z -> f y = Some z -> x = y) ->
  NoDup l -> NoDup (omap f l).
Proof.
  induction l as [|a l IH]; intros Hinj Hnd; [constructor|].
  apply NoDup_cons in Hnd as [Ha Hnd]. cbn.
  assert (IH' : NoDup (omap f l)).
  { apply IH; [|exact Hnd]. intros x y z Hx Hy.
    apply Hinj; now right. }
  destruct (f a) as [b|] eqn:Hfa; [|exact IH'].
  apply NoDup_cons. split; [|exact IH'].
  intros Hin. apply list_elem_of_omap in Hin as (y & Hy & Hfy).
  assert (Hay : a = y).
  { apply (Hinj a y b); [left|
                         now right|exact Hfa|exact Hfy]. }
  subst y. contradiction.
Qed.

Lemma entry_name_inv d q nm : FS.entry_name d q = Some nm -> q = d ++ [nm].
Proof.
  unfold FS.entry_name. destruct q as [|c q']; [discriminate|].
  destruct (decide (removelast (c :: q') = d)) as [Hd|]; [|discriminate].
  intros Hnm. injection Hnm as <-. rewrite <- Hd.
  assert (Hne : c :: q' <> []) by discriminate.
  exact (app_removelast_last "" Hne).
Qed.

Lemma listdir_elem m d nm :
  nm ∈ FS.listdir m d <-> is_Some (m !! (d ++ [nm])).
Proof.
  unfold FS.listdir. rewrite list_elem_of_omap. split.
  - intros ([k nd] & Hin & Hname). apply entry_name_inv in Hname.
    cbn [fst] in Hname. subst k. apply elem_of_map_to_list in Hin. eauto.
  - intros [nd Hq]. exists (d ++ [nm], nd).
    split; [now apply elem_of_map_to_list|apply entry_name_child].
Qed.

Lemma listdir_NoDup m d : NoDup (FS.listdir m d).
Proof.
  apply NoDup_omap_on; [|apply NoDup_map_to_list].
  intros [k1 v1] [k2 v2] nm H1 H2 E1 E2.
  apply entry_name_inv in E1, E2. cbn [fst] in E1, E2. subst k1 k2.
  apply elem_of_map_to_list in H1, H2. congruence.
Qed.

Lemma catalog_names_elem m cwd nm :
  nm ∈ catalog_names m cwd
  <-> PyStr.endswith nm ".json" = true
      /\ is_Some (m !! (games_loc cwd ++ [nm])).
Proof.
  unfold catalog_names.
  now rewrite merge_sort_Permutation, list_elem_of_filter, listdir_elem.
Qed.

Lemma catalog_names_NoDup m cwd : NoDup (catalog_names m cwd).
Proof.
  unfold catalog_names. rewrite merge_sort_Permutation.
  apply NoDup_filter, listdir_NoDup.
Qed.

Section Again.

Context `{JsonCodec} `{PyRepr}.

(** What [_read_game_file] returns depends on the file system and the
    working directory alone. *)
Lemma stat_same p w w' :
  w_fs w' = w_fs w -> w_cwd w' = w_cwd w ->
  fst (FS.stat p w') = fst (FS.stat p w).
Proof.
  intros Hfs Hcwd. unfold FS.stat, bind, get_fs.
  rewrite !locate_run, Hfs, Hcwd.
  destruct (FS.walk _ _ _ _) as [q|e]; [|reflexivity].
  now destruct (w_fs w !! q).
Qed.

Lemma read_file_same p w w' :
  w_fs w' = w_fs w -> w_cwd w' = w_cwd w ->
  fst (FS.read_file p w') = fst (FS.read_file p w).
Proof.
  intros Hfs Hcwd. pose proof (stat_same p w w' Hfs Hcwd) as Hst.
  unfold FS.read_file, bind.
  destruct (FS.stat p w') as [[nd'|e'] w1'], (FS.stat p w) as [[nd|e] w1];
    cbn [fst] in Hst; try discriminate Hst.
  - injection Hst as ->. now destruct nd.
  - cbn. now injection Hst as ->.
Qed.

Lemma exists_same p w w' :
  w_fs w' = w_fs w -> w_cwd w' = w_cwd w ->
  fst (FS.exists_ p w') = fst (FS.exists_ p w).
Proof.
  intros Hfs Hcwd. pose proof (stat_same p w w' Hfs Hcwd) as Hst.
  unfold FS.exists_, try_except, bind.
  destruct (FS.stat p w') as [[nd'|e'] w1'], (FS.stat p w) as [[nd|e] w1];
    cbn [fst] in Hst; try discriminate Hst; [reflexivity|].
  injection Hst as ->. now destruct (FS.ignore_error e).
Qed.

Lemma read_game_body_same p w w' :
  w_fs w' = w_fs w -> w_cwd w' = w_cwd w ->
  fst (read_game_body p w') = fst (read_game_body p w).
Proof.
  intros Hfs Hcwd. unfold read_game_body, bind.
  rewrite !read_json_run, (read_file_same p w w' Hfs Hcwd).
  destruct (fst (FS.read_file p w)) as [bytes|e]; [|reflexivity].
  destruct (loads bytes) as [[| | | | |d]|]; try reflexivity.
  destruct (negb _); [|reflexivity].
  rewrite !default_work_dir_run, Hcwd.
  destruct (has_truthy "game_path" _); [|reflexivity].
  destruct (dict_get "game_path" _); try reflexivity.
  now rewrite (exists_same _ w w' Hfs Hcwd).
Qed.

Lemma read_game_file_fst p w :
  fst (_read_game_file p w)
  = match fst (read_game_body p w) with
    | Ok g => Ok g
    | Raise _ => Ok ∅
    end.
Proof.
  unfold _read_game_file, try_except.
  now destruct (read_game_body p w) as [[g|e] w1].
Qed.

Lemma read_game_file_world p w :
  same_but_log w (snd (_read_game_file p w)).
Proof.
  destruct (read_game_file_run p w) as (g & msg & -> & _).
  destruct (fst (FS.read_file p w)) as [bytes|e];
    [destruct (valid_record _ _ bytes)|]; now cbn.
Qed.

Lemma scan_games_same ps : forall acc w w',
  w_fs w' = w_fs w -> w_cwd w' = w_cwd w ->
  fst (scan_games ps acc w') = fst (scan_games ps acc w).
Proof.
  induction ps as [|p ps IH]; intros acc w w' Hfs Hcwd; [reflexivity|].
  cbn [scan_games]. unfold bind.
  pose proof (read_game_file_fst p w) as Hw.
  pose proof (read_game_file_fst p w') as Hw'.
  rewrite (read_game_body_same p w w' Hfs Hcwd) in Hw'.
  rewrite <- Hw in Hw'.
  pose proof (read_game_file_world p w) as (Hf1 & Hc1 & _).
  pose proof (read_game_file_world p w') as (Hf2 & Hc2 & _).
  destruct (_read_game_file p w') as [[g'|e'] w1'],
           (_read_game_file p w) as [[g|e] w1];
    cbn [fst snd] in *; try discriminate Hw'.
  - injection Hw' as ->. apply IH; congruence.
  - cbn. now injection Hw' as ->.
Qed.

(** When [mkdir(exist_ok=True)] of the catalog directory returns, the
    directory is there. *)
Lemma mkdir_games_ok w wa :
  FS.mkdir true GAMES_DIR w = (Ok tt, wa) ->
  (exists ro, w_fs wa !! games_loc (w_cwd wa) = Some (Dir ro))
  /\ same_but_fs w wa.
Proof.
  assert (Hdir : forall nd,
             w_fs w !! games_loc (w_cwd w) = nd ->
             FS.is_dir GAMES_DIR w
             = (Ok match nd with Some (Dir _) => true | _ => false end, w)).
  { intros nd Hnd. unfold FS.is_dir, try_except, bind.
    rewrite (stat_run _ _ _ (games_dir_walk _ _)), Hnd.
    now destruct nd as [[]|]. }
  unfold FS.mkdir, try_except, FS.os_mkdir, bind at 1 2, get_fs.
  rewrite locate_run, games_dir_walk.
  destruct (w_fs w !! games_loc (w_cwd w)) as [[ro d|ro]|] eqn:Hd.
  - unfold raise at 1.
    change (exn_cls (FS.os_error FileExistsError GAMES_DIR))
      with FileExistsError. cbv iota.
    unfold bind. now rewrite (Hdir _ eq_refl).
  - unfold raise at 1.
    change (exn_cls (FS.os_error FileExistsError GAMES_DIR))
      with FileExistsError. cbv iota.
    unfold bind. rewrite (Hdir _ eq_refl). intros [= <-].
    split; [eauto|reflexivity].
  - unfold FS.create, bind at 1, get_fs.
    destruct (w_fs w !! removelast (games_loc (w_cwd w))) as [[ro d|[]]|].
    + unfold raise at 1.
      change (exn_cls (FS.os_error NotADirectoryError GAMES_DIR))
        with NotADirectoryError. cbv iota.
      unfold bind. now rewrite (Hdir _ eq_refl).
    + unfold raise at 1.
      change (exn_cls (FS.os_error PermissionError GAMES_DIR))
        with PermissionError. cbv iota.
      unfold bind. now rewrite (Hdir _ eq_refl).
    + cbn. intros [= <-]. split; [|easy].
      exists false. cbn. apply lookup_insert_eq.
    + discriminate.
Qed.

(** The loop of [load_games] over a directory in which one entry at most
    holds a record. *)
Lemma scan_games_single x g names : forall acc w ro,
  w_fs w !! games_loc (w_cwd w) = Some (Dir ro) ->
  Forall (fun nm => nm <> "..") names ->
  NoDup names ->
  (forall nm, nm ∈ names -> nm <> x ->
              valid_entry (w_fs w) (w_cwd w) nm = false) ->
  (forall w', w_fs w' = w_fs w -> w_cwd w' = w_cwd w ->
              _read_game_file (Pathlib.make_child GAMES_DIR x) w' = (Ok g, w')) ->
  truthy (JObj g) = true ->
  exists w2,
    scan_games (map (Pathlib.make_child GAMES_DIR) names) acc w
    = (Ok (acc ++ if bool_decide (x ∈ names) then [g] else []), w2)
    /\ same_but_log w w2.
Proof.
  induction names as [|nm rest IH];
    intros acc w ro Hdir Hnames Hnd Hothers Hread Htruthy.
  - exists w. cbn. rewrite app_nil_r. now split.
  - apply Forall_cons in Hnames as [Hnm Hrest].
    apply NoDup_cons in Hnd as [Hnotin Hnd].
    cbn [map scan_games]. unfold bind.
    destruct (decide (nm = x)) as [->|Hne].
    + rewrite (Hread w eq_refl eq_refl), Htruthy.
      destruct (IH (acc ++ [g]) w ro Hdir Hrest Hnd) as (w2 & Hscan & Hsame).
      * intros nm' Hin. apply Hothers. now right.
      * exact Hread.
      * exact Htruthy.
      * exists w2. rewrite Hscan. split; [|exact Hsame].
        rewrite (bool_decide_eq_false_2 _ Hnotin), app_nil_r.
        rewrite bool_decide_eq_true_2 by left. reflexivity.
    + destruct (read_entry_run w ro nm Hnm Hdir) as (g0 & msg & Hrun & _).
      rewrite Hrun, (Hothers nm ltac:(left) Hne), truthy_empty_record.
      destruct (IH acc (with_log w WARNING msg) ro Hdir Hrest Hnd)
        as (w2 & Hscan & Hsame).
      * intros nm' Hin. apply (Hothers nm'). now right.
      * intros w' Hfs Hcwd. now apply Hread.
      * exact Htruthy.
      * exists w2. rewrite Hscan. split.
        -- assert (Hx : bool_decide (x ∈ nm :: rest) = bool_decide (x ∈ rest)).
           { apply bool_decide_ext. split; [|now right].
             intros Hin. apply elem_of_cons in Hin as [->|Hin];
               [easy|exact Hin]. }
           now rewrite Hx.
        -- destruct Hsame as (? & ? & ? & ?). now repeat split.
Qed.

End Again.

Section StartingAgain.

Context `{JsonCodec} `{PyRepr}.

Lemma placeholder_shape cwd :
  is_Some (placeholder cwd !! "id") /\ is_Some (placeholder cwd !! "name")
  /\ has_truthy "work_dir" (placeholder cwd) = true.
Proof.
  split; [eexists; reflexivity|]. split; [eexists; reflexivity|].
  assert (Hwd : placeholder cwd !! "work_dir"
                = Some (JStr (Pathlib.to_str (Pathlib.of_cwd cwd))))
    by reflexivity.
  unfold has_truthy, dict_get. rewrite Hwd. apply to_str_truthy.
Qed.

Lemma sample_loc_ne cwd nm :
  nm <> "sample.json" -> sample_loc cwd <> games_loc cwd ++ [nm].
Proof.
  intros Hne Heq. unfold sample_loc in Heq.
  apply app_inj_tail in Heq as [_ Heq]. congruence.
Qed.

Lemma sample_loc_not_games cwd : sample_loc cwd <> games_loc cwd.
Proof.
  intros Heq. apply (f_equal length) in Heq. unfold sample_loc in Heq.
  rewrite length_app in Heq. cbn in Heq. lia.
Qed.

(** X25.  Starting again gives the same catalog.  When [load_games] has
    returned a list of records, and the JSON library reads the placeholder
    back as it wrote it, [load_games] in the world it left returns the same
    list and changes nothing but the log: the placeholder is saved once. *)
Theorem load_games_again_gives_the_same_catalog
        (w w1 : world) (games : list game)
        (Hcodec : loads (dumps (JObj (placeholder (w_cwd w))))
                  = Some (JObj (placeholder (w_cwd w))))
        (Hloaded : load_games w = (Ok games, w1)) :
  exists w2, load_games w1 = (Ok games, w2) /\ same_but_log w1 w2.
Proof.
  destruct (FS.mkdir true GAMES_DIR w) as [[[]|e] wa] eqn:Hmk.
  2:{ revert Hloaded. unfold load_games, bind, get_cwd. now rewrite Hmk. }
  destruct (mkdir_games_ok _ _ Hmk) as ([ro Hdir] & Hcwd & _).
  assert (Hsame : load_games w = load_games wa).
  { unfold load_games, bind, get_cwd.
    rewrite Hmk, (mkdir_existing _ _ _ _ (games_dir_walk _ _) Hdir).
    now rewrite Hcwd. }
  rewrite <- Hcwd in Hcodec.
  rewrite Hsame, (load_games_scan _ _ Hdir) in Hloaded.
  destruct (scan_games_run (catalog_names (w_fs wa) (w_cwd wa)) [] wa ro
              Hdir (catalog_names_json _ _))
    as (recs & warnings & Hscan & Hrecs & _ & _).
  cbn [app] in Hscan. unfold bind at 1 in Hloaded. rewrite Hscan in Hloaded.
  set (wb := World (w_fs wa) (w_cwd wa) (w_log wa ++ warnings)
                   (w_events wa) (w_calls wa)) in *.
  assert (Hdirb : w_fs wb !! games_loc (w_cwd wb) = Some (Dir ro))
    by exact Hdir.
  destruct recs as [|r rs].
  - (* nothing was loaded: the placeholder was saved *)
    apply Forall2_nil_inv_r in Hrecs.
    set (p := Pathlib.make_child GAMES_DIR "sample.json") in *.
    set (bytes := dumps (JObj (placeholder (w_cwd wa)))) in *.
    assert (Hsave : to_save (placeholder (w_cwd wa)) = placeholder (w_cwd wa))
      by (apply delete_id, placeholder_no_meta_path).
    assert (Hwalk : forall m, m !! games_loc (w_cwd wa) = Some (Dir ro) ->
               FS.walk m p (FS.start (w_cwd wa) p) (pp_tail p)
               = Ok (sample_loc (w_cwd wa))).
    { intros m Hm.
      exact (entry_walk m (w_cwd wa) ro "sample.json" ltac:(discriminate) Hm). }
    assert (Hwrite : exists u,
               FS.write_file p bytes wb = (Ok u, w1)
               /\ games = [<["meta_path" := JStr "games/sample.json"]>
                             (placeholder (w_cwd wa))]).
    { revert Hloaded. unfold _write_game_file.
      assert (Hgid : derive_gid (placeholder (w_cwd wa)) wb = (Ok "sample", wb))
        by reflexivity.
      assert (Hp : target_path (placeholder (w_cwd wa)) "sample" wb = (Ok p, wb))
        by reflexivity.
      assert (Hmkp : FS.mkdir_parents (Pathlib.parent p) wb = (Ok tt, wb)).
      { change (Pathlib.parent p) with GAMES_DIR.
        exact (mkdir_parents_existing _ _ _ _ (games_dir_walk _ _) Hdirb). }
      unfold bind at 1.
      rewrite (bind_ok _ _ _ _ _ Hgid), (bind_ok _ _ _ _ _ Hp),
        (bind_ok _ _ _ _ _ Hmkp), Hsave.
      fold bytes. unfold bind, ret.
      destruct (FS.write_file p bytes wb) as [[u|e] wd]; [|discriminate].
      intros [= <- <-]. now exists u. }
    destruct Hwrite as (u & Hwr & ->).
    apply write_file_ok in Hwr as (q & Hq & Hnodir & ->).
    assert (Hloc : Ok q = Ok (sample_loc (w_cwd wa)))
      by (rewrite <- Hq; exact (Hwalk _ Hdirb)).
    injection Hloc as ->. clear Hq.
    set (w1 := with_fs wb _).
    assert (Hdir1 : w_fs w1 !! games_loc (w_cwd w1) = Some (Dir ro)).
    { subst w1. cbn [w_fs w_cwd with_fs].
      rewrite lookup_insert_ne by apply sample_loc_not_games. exact Hdir. }
    rewrite (load_games_scan _ _ Hdir1).
    destruct (scan_games_single "sample.json"
                (<["meta_path" := JStr "games/sample.json"]>
                   (placeholder (w_cwd wa)))
                (catalog_names (w_fs w1) (w_cwd w1)) [] w1 ro Hdir1
                (catalog_names_json _ _) (catalog_names_NoDup _ _))
      as (w2 & Hscan2 & Hsame2).
    + intros nm Hin Hne.
      apply catalog_names_elem in Hin as [Hsuf Hnd].
      subst w1. cbn [w_fs w_cwd with_fs] in *.
      rewrite lookup_insert_ne in Hnd by now apply sample_loc_ne.
      assert (Hentry : forall nd,
                 valid_entry (<[sample_loc (w_cwd wa) := nd]> (w_fs wa))
                             (w_cwd wa) nm
                 = valid_entry (w_fs wa) (w_cwd wa) nm).
      { intros nd. unfold valid_entry.
        rewrite lookup_insert_ne by now apply sample_loc_ne.
        destruct (w_fs wa !! (games_loc (w_cwd wa) ++ [nm]))
          as [[fro data|dro]|]; try reflexivity.
        apply valid_record_anywhere. }
      destruct (valid_entry (w_fs wa) (w_cwd wa) nm) eqn:Hvalid;
        [|exact (Hentry (File false bytes))].
      exfalso.
      assert (Hin : nm ∈ filter (fun nm => valid_entry (w_fs wa) (w_cwd wa) nm = true)
                                (catalog_names (w_fs wa) (w_cwd wa))).
      { apply list_elem_of_filter. split; [exact Hvalid|].
        now apply catalog_names_elem. }
      rewrite Hrecs in Hin. now apply elem_of_nil in Hin.
    + intros w' Hfs' Hcwd'.
      destruct (placeholder_shape (w_cwd wa)) as (Hid & Hname & Hwd).
      assert (Hread : FS.read_file p w' = (Ok bytes, w')).
      { unfold FS.read_file, bind. rewrite (stat_run _ _ (sample_loc (w_cwd wa))).
        - rewrite Hfs'. subst w1. cbn [w_fs with_fs].
          now rewrite lookup_insert_eq.
        - rewrite Hcwd'. apply Hwalk. rewrite Hfs'. exact Hdir1. }
      subst bytes. rewrite <- Hsave in Hread, Hcodec.
      fold p.
      rewrite (read_game_file_saved _ _ _ Hread Hcodec Hid Hname Hwd).
      now rewrite Hsave.
    + apply (truthy_record _ "meta_path" _ (lookup_insert_eq _ _ _)).
    + exists w2. split; [|exact Hsame2]. unfold bind at 1. rewrite Hscan2.
      rewrite bool_decide_eq_true_2; [reflexivity|].
      apply catalog_names_elem. split; [reflexivity|].
      subst w1. cbn [w_fs w_cwd with_fs]. rewrite lookup_insert_eq. eauto.
  - (* records were loaded: they are loaded again *)
    cbn in Hloaded. injection Hloaded as <- <-.
    rewrite (load_games_scan _ _ Hdirb).
    change (catalog_names (w_fs wb) (w_cwd wb))
      with (catalog_names (w_fs wa) (w_cwd wa)).
    pose proof (scan_games_same
                  (map (Pathlib.make_child GAMES_DIR)
                       (catalog_names (w_fs wa) (w_cwd wa)))
                  [] wa wb eq_refl eq_refl) as Heq.
    rewrite Hscan in Heq. cbn [fst] in Heq.
    destruct (scan_games_run (catalog_names (w_fs wa) (w_cwd wa)) [] wb ro
                Hdirb (catalog_names_json _ _))
      as (recs2 & warnings2 & Hscan2 & _).
    cbn [app] in Hscan2. rewrite Hscan2 in Heq. cbn [fst] in Heq.
    injection Heq as ->. eexists. unfold bind at 1. rewrite Hscan2.
    split; [reflexivity|]. now repeat split.
Qed.

End StartingAgain.

(** ** Downloader: the order of the fractions *)

Section ProgressOrder.

Context `{Network} `{ZipCodec}.

(** The fractions [write_chunks] reports: none, or one for each chunk that
    is not empty. *)
Lemma write_chunks_fractions f total progress_cb chunks downloaded w :
  exists fractions : list Q,
    progress_values
      (w_events (snd (write_chunks f total progress_cb chunks downloaded w)))
    = progress_values (w_events w) ++ fractions
    /\ (fractions = []
        \/ total <> 0%Z
           /\ fractions
              = map (fraction total) (running_totals chunks downloaded)).
Proof.
  destruct (negb (total =? 0)%Z && progress_cb) eqn:Hcb.
  - apply andb_true_iff in Hcb as [Ht ->].
    apply negb_true_iff, Z.eqb_neq in Ht.
    eexists. split; [now apply write_chunks_progress|]. right. now split.
  - exists []. split; [|now left]. rewrite app_nil_r.
    apply keeps_write_chunks_silent;
      [exact _|apply fs_same_progress|exact Hcb].
Qed.

(** X26.  The progress reported never goes back.  When the declared size
    is not negative, the fractions [download_update] reports are not
    negative and in non-decreasing order, whether or not the chunks add up
    to the declared size, the transfer breaks or an archive is extracted.
    (The fractions are the exact quotients; the floats Python computes are
    their roundings, which keeps both the order and the sign.) *)
Theorem progress_never_goes_back
        (url dest extract_to : string) (progress_cb status_cb : bool)
        (w : world) (r : response) (total : Z)
        (Hget : http_get url = Ok r)
        (Htotal : fst (declared_total r w) = Ok total)
        (Hsize : (0 <= total)%Z) :
  exists fractions : list Q,
    progress_values
      (w_events (snd (download_update url dest extract_to
                                      progress_cb status_cb w)))
    = progress_values (w_events w) ++ fractions
    /\ Sorted Qle fractions
    /\ Forall (fun q => 0 <= q)%Q fractions.
Proof.
  assert (Hstep : forall w2,
             same_progress w2
               (snd ((if PyStr.endswith (PyStr.lower dest) ".zip"
                         && PyStr.truthy extract_to
                      then
                        (if status_cb then emit (Status "Extracting…")
                         else ret tt) >>
                        let* zf := open_zip dest in
                        _safe_extract_zip zf (Pathlib.parse Posix extract_to)
                      else ret tt) w2))).
  { apply keeps_extract_step;
      [exact _|apply fs_same_progress|apply status_same_progress]. }
  assert (Hwhole : same_progress
                     (snd (fetch_to_file url dest progress_cb w))
                     (snd (download_update url dest extract_to
                                           progress_cb status_cb w))).
  { unfold download_update, bind.
    destruct (fetch_to_file url dest progress_cb w) as [[u|e] w2];
      [apply Hstep|reflexivity]. }
  rewrite Hwhole.
  assert (Hnone : forall w', same_progress w w' ->
            exists fractions : list Q,
              progress_values (w_events w')
              = progress_values (w_events w) ++ fractions
              /\ Sorted Qle fractions
              /\ Forall (fun q => 0 <= q)%Q fractions).
  { intros w' Hsame. exists []. rewrite app_nil_r.
    split; [exact Hsame|]. split; constructor. }
  destruct (fst (raise_for_status url r w)) as [[]|e] eqn:Hstatus.
  2:{ apply Hnone. unfold fetch_to_file, bind, lift.
      rewrite Hget, raise_for_status_run, Hstatus. reflexivity. }
  rewrite (fetch_to_file_run url dest progress_cb w r total Hget).
  2:{ now rewrite raise_for_status_run, Hstatus. }
  2:{ now rewrite declared_total_run, Htotal. }
  unfold bind at 1.
  pose proof (keeps_mkdir_parents same_progress
                (fun w0 q => fs_same_progress w0 _)
                (Pathlib.parent (Pathlib.parse Posix dest)) w) as Hmk.
  destruct (FS.mkdir_parents _ w) as [[[]|e] wa]; cbn [snd] in Hmk;
    [|now apply Hnone].
  unfold bind at 1.
  pose proof (keeps_open_named same_progress fs_same_progress dest wa) as Hop.
  destruct (open_named dest wa) as [[f|e] w1]; cbn [snd] in Hop;
    [|apply Hnone; now transitivity wa].
  assert (Hw1 : same_progress w w1) by now transitivity wa.
  destruct (write_chunks_fractions f total progress_cb (body_chunks r) 0%Z w1)
    as (fractions & Hev & Hshape).
  exists fractions. split.
  - unfold bind.
    destruct (write_chunks f total progress_cb (body_chunks r) 0%Z w1)
      as [[n|e] w2]; cbn [snd] in *.
    + rewrite <- Hw1, <- Hev. now destruct (body_error r).
    + now rewrite <- Hw1, <- Hev.
  - destruct Hshape as [->|[Hne ->]]; [split; constructor|].
    assert (Hpos : (0 < total)%Z) by lia.
    split; [apply fractions_sorted; [exact Hpos|apply running_totals_sorted]|].
    apply Forall_forall. intros q Hq.
    apply list_elem_of_In, in_map_iff in Hq as (n & <- & Hn).
    pose proof (running_totals_bounds (body_chunks r) 0%Z) as Hb.
    rewrite Forall_forall in Hb. apply list_elem_of_In, Hb in Hn.
    apply Qlt_le_weak, fraction_pos; lia.
Qed.

End ProgressOrder.

(** ** The further properties on the examples *)

Lemma read_game_file_shape_witness :
  is_Some (Examples.loaded_c !! "id") /\ is_Some (Examples.loaded_c !! "name")
  /\ has_truthy "work_dir" Examples.loaded_c = true
  /\ Examples.loaded_c !! "meta_path" = Some (JStr "games/c.json").
Proof.
  apply (read_game_file_shape (Pathlib.make_child GAMES_DIR "c.json")
           Examples.mixed_catalog Examples.loaded_c Examples.mixed_catalog).
  - vm_compute. reflexivity.
  - intros Hempty. apply (f_equal (fun m : game => m !! "id")) in Hempty.
    vm_compute in Hempty. discriminate.
Defined.

Lemma read_game_file_keeps_fields_witness :
  (forall k v, Examples.c_fields !! k = Some v -> k <> "meta_path" ->
               (k = "work_dir" -> truthy v = true) ->
               Examples.loaded_c !! k = Some v)
  /\ (Examples.c_fields !! "id" = None ->
      Examples.loaded_c !! "id"
      = Some (JStr (Pathlib.stem (Pathlib.make_child GAMES_DIR "c.json"))))
  /\ (Examples.c_fields !! "name" = None ->
      Examples.loaded_c !! "name" = Examples.loaded_c !! "id").
Proof.
  apply (read_game_file_keeps_fields
           (Pathlib.make_child GAMES_DIR "c.json")
           Examples.mixed_catalog Examples.mixed_catalog
           (ExampleCodec.example_dumps (JObj Examples.c_fields)) Examples.c_fields Examples.loaded_c);
    vm_compute; reflexivity.
Defined.

Lemma write_game_file_changes_one_file_witness :
  w_fs Examples.fresh !! (Examples.home ++ ["games"; "doom.json"])
  = Some (File false (dumps (JObj (to_save Examples.full_record))))
  \/ (FS.walk (w_fs (snd Examples.saved_full))
              (Pathlib.make_child GAMES_DIR "doom.json")
              (FS.start (w_cwd (snd Examples.saved_full))
                        (Pathlib.make_child GAMES_DIR "doom.json"))
              (pp_tail (Pathlib.make_child GAMES_DIR "doom.json"))
      = Ok (Examples.home ++ ["games"; "doom.json"])
      /\ false = false
      /\ dumps (JObj (to_save Examples.full_record))
         = dumps (JObj (to_save Examples.full_record))).
Proof.
  apply (write_game_file_changes_one_file
           Examples.full_record
           (<["meta_path" := JStr "games/doom.json"]> Examples.full_record)
           (Pathlib.make_child GAMES_DIR "doom.json")
           Examples.fresh (snd Examples.saved_full)).
  - vm_compute. reflexivity.
  - vm_compute. reflexivity.
Defined.

Lemma derived_file_name_is_stable_witness :
  derive_gid (<["id" := JStr "my_game"]> Examples.full_record) Examples.fresh
  = (Ok "my_game", Examples.fresh).
Proof.
  apply (derived_file_name_is_stable (<["id" := JStr "My Game"]> ∅)
           Examples.full_record "my_game" Examples.fresh Examples.fresh).
  - vm_compute. reflexivity.
  - reflexivity.
Defined.

Lemma load_games_in_name_order_witness :
  exists (names : list string) (recs : list game) (w' : world),
    load_games Examples.mixed_catalog = (Ok recs, w')
    /\ Forall2 loaded_from names recs
    /\ StronglySorted FS.str_le names.
Proof.
  apply (load_games_in_name_order (H1 := Examples.posix_host)
           Examples.mixed_catalog false).
  - discriminate.
  - vm_compute. reflexivity.
  - vm_compute. reflexivity.
  - vm_compute. lia.
Defined.

Lemma load_games_first_run_creates_catalog_witness :
  load_games Examples.fresh
  = (Ok [<["meta_path" := JStr "games/sample.json"]>
           (placeholder (w_cwd Examples.fresh))],
     with_fs Examples.fresh
       (<[sample_loc (w_cwd Examples.fresh) :=
            File false (dumps (JObj (placeholder (w_cwd Examples.fresh))))]>
          (<[games_loc (w_cwd Examples.fresh) := Dir false]>
             (w_fs Examples.fresh)))).
Proof.
  apply (load_games_first_run_creates_catalog Examples.fresh);
    vm_compute; reflexivity.
Defined.

Lemma load_games_blocked_by_a_file_witness :
  load_games Examples.games_is_a_file
  = (Raise (FS.os_error FileExistsError GAMES_DIR), Examples.games_is_a_file).
Proof.
  apply (load_games_blocked_by_a_file Examples.games_is_a_file false
           "not a directory").
  vm_compute. reflexivity.
Defined.

Lemma extraction_writes_where_the_test_passes_witness :
  w_fs Examples.fresh !! (Examples.home ++ ["dest"; "a"; "b"; "ok.txt"])
  = Some (File false "hello")
  \/ PyStr.startswith
       (loc_str (Examples.home ++ ["dest"; "a"; "b"; "ok.txt"]))
       (Pathlib.to_str (Pathlib.resolve (w_cwd Examples.fresh)
                                        (Pathlib.parse Posix "dest")))
     = true.
Proof.
  apply (extraction_writes_where_the_test_passes Examples.nested
           (Pathlib.parse Posix "dest") Examples.fresh).
  vm_compute. reflexivity.
Defined.

Lemma extraction_stops_at_absolute_entry_witness :
  _safe_extract_zip (Examples.nested ++ ZipEntry "/etc/passwd" (Some "x")
                                :: [ZipEntry "late.txt" (Some "late")])
                    (Pathlib.parse Posix "dest") Examples.fresh
  = (Raise (Exn PlainException
                ("Unsafe absolute path in zip: "
                 +:+ ze_filename (ZipEntry "/etc/passwd" (Some "x")))),
     snd (_safe_extract_zip Examples.nested (Pathlib.parse Posix "dest")
                            Examples.fresh)).
Proof.
  apply (extraction_stops_at_absolute_entry (Pathlib.parse Posix "dest")
           Examples.nested (ZipEntry "/etc/passwd" (Some "x"))
           [ZipEntry "late.txt" (Some "late")] Examples.fresh);
    vm_compute; reflexivity.
Defined.

Lemma download_writes_the_chunks_in_order_witness :
  w_fs (snd (download_update (H := Examples.honest)
                             (H0 := Examples.no_archive)
                             "http://host/a.bin" "dl/a.bin" "" true true
                             Examples.fresh))
  = <[Examples.home ++ ["dl"; "a.bin"] :=
        File false
             (String.concat ""
                (body_chunks (Response 200 (Some "8") ["abcd"; ""; "efgh"]
                                       None)))]>
      (w_fs (snd Examples.opened)).
Proof.
  apply (download_writes_the_chunks_in_order
           (H := Examples.honest) (H0 := Examples.no_archive)
           "http://host/a.bin" "dl/a.bin" "" true true
           Examples.fresh (snd Examples.opened)
           (Response 200 (Some "8") ["abcd"; ""; "efgh"] None) 8%Z).
  - reflexivity.
  - cbn. lia.
  - vm_compute. reflexivity.
  - vm_compute. reflexivity.
  - right. vm_compute. reflexivity.
  - vm_compute. reflexivity.
Defined.

Lemma download_rejects_malformed_length_witness :
  exists e : exn,
    download_update (H := Examples.garbled_length) (H0 := Examples.no_archive)
                    "http://host/a.bin" "dl/a.bin" "" true true Examples.fresh
    = (Raise e, Examples.fresh)
    /\ exn_cls e = ValueError.
Proof.
  apply (download_rejects_malformed_length
           (H := Examples.garbled_length) (H0 := Examples.no_archive)
           "http://host/a.bin" "dl/a.bin" "" true true Examples.fresh
           (Response 200 (Some "8 bytes") ["abcdefgh"] None) "8 bytes").
  - reflexivity.
  - cbn. lia.
  - reflexivity.
  - reflexivity.
  - reflexivity.
  - vm_compute. reflexivity.
Defined.

Lemma quick_add_finds_a_free_identifier_witness :
  let p := Pathlib.parse Posix "/opt/My Game/My Game.exe" in
  let base_id := file_id (Pathlib.stem p) in
  let record_file k :=
    Pathlib.joinpath GAMES_DIR (candidate base_id k +:+ ".json") in
  exists k : nat,
    k <= size (w_fs Examples.crowded_catalog)
    /\ (forall j, j < k ->
          FS.exists_ (record_file j) Examples.crowded_catalog
          = (Ok true, Examples.crowded_catalog))
    /\ match FS.exists_ (record_file k) Examples.crowded_catalog with
       | (Ok true, _) => False
       | (Ok false, _) =>
           quick_add_game 8 "/opt/My Game/My Game.exe" []
                          Examples.crowded_catalog
           = (let* written :=
                _write_game_file (new_record p (candidate base_id k)) in
              ret (Some ([] ++ [snd written]))) Examples.crowded_catalog
       | (Raise e, w1) =>
           quick_add_game 8 "/opt/My Game/My Game.exe" []
                          Examples.crowded_catalog
           = (Raise e, w1)
       end.
Proof.
  apply (quick_add_finds_a_free_identifier 8 "/opt/My Game/My Game.exe" []
           Examples.crowded_catalog).
  - reflexivity.
  - vm_compute. reflexivity.
  - vm_compute. lia.
Defined.

Lemma quick_add_never_overwrites_witness :
  exists gid : string,
    [Examples.added_record]
    = [] ++ [<["meta_path" := JStr ("games/" +:+ gid +:+ ".json")]>
               (new_record (Pathlib.parse Posix "/opt/My Game/My Game.exe")
                           gid)]
    /\ w_fs Examples.crowded_catalog
         !! record_loc (w_cwd Examples.crowded_catalog) gid
       = None
    /\ w_fs (snd Examples.quick_added)
         !! record_loc (w_cwd Examples.crowded_catalog) gid
       = Some (File false
                 (dumps (JObj (new_record (Pathlib.parse Posix
                                             "/opt/My Game/My Game.exe") gid))))
    /\ (forall q nd, w_fs Examples.crowded_catalog !! q = Some nd ->
                     w_fs (snd Examples.quick_added) !! q = Some nd)
    /\ same_but_fs Examples.crowded_catalog (snd Examples.quick_added).
Proof.
  apply (quick_add_never_overwrites 8 "/opt/My Game/My Game.exe" []
           [Examples.added_record] Examples.crowded_catalog
           (snd Examples.quick_added)).
  - vm_compute. reflexivity.
  - vm_compute. reflexivity.
  - vm_compute. reflexivity.
  - vm_compute. lia.
  - vm_compute. reflexivity.
Defined.

Lemma quick_add_record_loads_back_witness :
  exists (gid : string) (new : game),
    [Examples.added_record] = [] ++ [new]
    /\ new !! "id" = Some (JStr gid)
    /\ (loads (dumps (JObj (to_save new))) = Some (JObj (to_save new)) ->
        _read_game_file (Pathlib.make_child GAMES_DIR (gid +:+ ".json"))
                        (snd Examples.quick_added)
        = (Ok new, snd Examples.quick_added)).
Proof.
  apply (quick_add_record_loads_back 8 "/opt/My Game/My Game.exe" []
           [Examples.added_record] Examples.crowded_catalog
           (snd Examples.quick_added)).
  - vm_compute. reflexivity.
  - vm_compute. reflexivity.
  - vm_compute. reflexivity.
  - vm_compute. lia.
  - vm_compute. reflexivity.
Defined.

(** Quick-add in the crowded catalog takes the third identifier of the
    sequence, and the file it writes loads back as the record it added. *)
Example quick_add_in_crowded_catalog :
  Examples.added_record !! "id" = Some (JStr "my_game_2")
  /\ Examples.added_record !! "name" = Some (JStr "My Game")
  /\ Examples.added_record !! "work_dir" = Some (JStr "/opt/My Game")
  /\ Examples.added_record !! "meta_path" = Some (JStr "games/my_game_2.json")
  /\ fst (_read_game_file (Pathlib.make_child GAMES_DIR "my_game_2.json")
                          (snd Examples.quick_added))
     = Ok Examples.added_record.
Proof. repeat split; vm_compute; reflexivity. Qed.

Lemma saving_again_changes_nothing_witness :
  _write_game_file
    (<["meta_path" := JStr "games/doom.json"]> Examples.full_record)
    (snd Examples.saved_full)
  = (Ok (Pathlib.make_child GAMES_DIR "doom.json",
         <["meta_path" := JStr "games/doom.json"]> Examples.full_record),
     snd Examples.saved_full).
Proof.
  apply (saving_again_changes_nothing Examples.full_record _ _ Examples.fresh).
  vm_compute. reflexivity.
Defined.

Lemma play_warns_or_launches_witness :
  let exe := "/opt/doom/doom.exe" in
  let known := PyStr.startswith_any exe ["http"; "steam://"; "epic://"] in
  let launched :=
    exists (ok : bool) (msg : string),
      play (H := Examples.posix_host) (Some exe) None None Examples.fresh
      = (Ok (Launched ((if ok then "OK" else "FAIL") +:+ " — " +:+ msg)),
         World (w_fs Examples.fresh) (w_cwd Examples.fresh)
               (w_log Examples.fresh) (w_events Examples.fresh)
               (w_calls Examples.fresh
                ++ [chosen_call (H := Examples.posix_host)
                                exe None (default [] None)])) in
  if negb (PyStr.truthy exe)
  then play (H := Examples.posix_host) (Some exe) None None Examples.fresh
       = (Ok Refused, Examples.fresh)
  else if known then launched
  else match FS.exists_ (Pathlib.parse Posix exe) Examples.fresh with
       | (Ok true, _) => launched
       | (Ok false, _) =>
           play (H := Examples.posix_host) (Some exe) None None Examples.fresh
           = (Ok Refused, Examples.fresh)
       | (Raise e, w1) =>
           play (H := Examples.posix_host) (Some exe) None None Examples.fresh
           = (Raise e, w1)
       end.
Proof.
  apply (play_warns_or_launches (H := Examples.posix_host)
           "/opt/doom/doom.exe" None None Examples.fresh).
  vm_compute. discriminate.
Defined.

Lemma play_never_refuses_a_protocol_witness :
  exists (ok : bool) (msg : string),
    play (H := Examples.posix_host) (Some "steam://run/620") None None
         Examples.fresh
    = (Ok (Launched ((if ok then "OK" else "FAIL") +:+ " — " +:+ msg)),
       World (w_fs Examples.fresh) (w_cwd Examples.fresh)
             (w_log Examples.fresh) (w_events Examples.fresh)
             (w_calls Examples.fresh ++ [WebOpen "steam://run/620"])).
Proof.
  apply (play_never_refuses_a_protocol (H := Examples.posix_host)
           "steam://run/620" None None Examples.fresh).
  reflexivity.
Defined.

Lemma loaded_record_is_saved_in_place_witness :
  Pathlib.parse Posix "games/c.json" = Pathlib.parse Posix "games/c.json"
  /\ Examples.loaded_c = Examples.loaded_c
  /\ (loads (dumps (JObj (to_save Examples.loaded_c)))
      = Some (JObj (to_save Examples.loaded_c)) ->
      _read_game_file (Pathlib.parse Posix "games/c.json")
                      (snd (_write_game_file Examples.loaded_c
                                             Examples.mixed_catalog))
      = (Ok Examples.loaded_c,
         snd (_write_game_file Examples.loaded_c Examples.mixed_catalog))).
Proof.
  apply (loaded_record_is_saved_in_place "games/c.json" Examples.loaded_c
           Examples.loaded_c (Pathlib.parse Posix "games/c.json")
           Examples.mixed_catalog Examples.mixed_catalog
           Examples.mixed_catalog).
  - vm_compute. reflexivity.
  - intros Hempty. apply (f_equal (fun m : game => m !! "id")) in Hempty.
    vm_compute in Hempty. discriminate.
  - vm_compute. reflexivity.
Defined.

Lemma load_games_again_gives_the_same_catalog_witness :
  exists w2,
    load_games (snd (load_games Examples.fresh))
    = (Ok [<["meta_path" := JStr "games/sample.json"]>
             (placeholder (w_cwd Examples.fresh))], w2)
    /\ same_but_log (snd (load_games Examples.fresh)) w2.
Proof.
  apply (load_games_again_gives_the_same_catalog Examples.fresh).
  - vm_compute. reflexivity.
  - vm_compute. reflexivity.
Defined.

Lemma progress_never_goes_back_witness :
  exists fractions : list Q,
    progress_values
      (w_events (snd (download_update (H := Examples.compressed)
                                      (H0 := Examples.no_archive)
                                      "http://host/a.bin" "dl/a.bin" ""
                                      true true Examples.fresh)))
    = progress_values (w_events Examples.fresh) ++ fractions
    /\ Sorted Qle fractions
    /\ Forall (fun q => 0 <= q)%Q fractions.
Proof.
  apply (progress_never_goes_back
           (H := Examples.compressed) (H0 := Examples.no_archive)
           "http://host/a.bin" "dl/a.bin" "" true true Examples.fresh
           (Response 200 (Some "4") ["abcd"; "efgh"] None) 4%Z).
  - reflexivity.
  - vm_compute. reflexivity.
  - lia.
Defined.
